(** * The server bootstrap of the remote-display client (app/src/server.c)

    A shallow embedding of [server.c].  Every C function of the file is
    a program of a small free monad [prog]: its nodes are the accesses
    to the shared [struct server], the atomic test-and-set on
    [server_socket_closed], and the calls to collaborators that live
    outside the file (adb commands, sockets, SDL, curl).  The same
    programs are given two semantics:

    - [run], a sequential interpreter against an oracle that answers
      every external call from the history so far;
    - [step], an interleaving semantics of the caller thread and the
      [run_wait_server] thread over one shared [struct server].

    The [LOG*] macros have no effect on the state or on the control flow
    and are left out.  The build modelled is the default one: neither
    [__WINDOWS__], [PORTABLE] nor [SERVER_DEBUGGER] is defined, and
    [assert] is active. *)

From Stdlib Require Import ZArith List String Bool Lia DecimalString.
Import ListNotations.
Local Open Scope Z_scope.

(** ** Data *)

(** [socket_t]: a valid descriptor or the distinguished [INVALID_SOCKET]. *)
Inductive socket_t : Type :=
| INVALID_SOCKET
| Socket (fd : Z).

(** [process_t]: a process handle or [PROCESS_NONE]. *)
Inductive process_t : Type :=
| PROCESS_NONE
| Process (pid : Z).

(** A non-NULL pointer to an opaque SDL object (thread, mutex, cond). *)
Definition handle := Z.

(** The functions handed to [SDL_CreateThread]. *)
Inductive thread_fn : Type :=
| RUN_WAIT_SERVER.

Inductive sc_log_level : Type :=
| SC_LOG_LEVEL_DEBUG
| SC_LOG_LEVEL_INFO
| SC_LOG_LEVEL_WARN
| SC_LOG_LEVEL_ERROR.

(** [struct sc_port_range]: two [uint16_t]. *)
Record sc_port_range : Type := mk_port_range {
  first : Z;
  last : Z
}.

Record server_params : Type := mk_server_params {
  log_level : sc_log_level;
  crop : option string;
  codec_options : option string;
  encoder_name : option string;
  params_port_range : sc_port_range;
  max_size : Z;
  bit_rate : Z;
  max_fps : Z;
  lock_video_orientation : Z;
  control : bool;
  display_id : Z;
  show_touches : bool;
  stay_awake : bool;
  force_adb_forward : bool
}.

(** [struct server], with the fields [server.c] reads and writes.
    A [char *] is an [option string], [NULL] being [None]. *)
Record server : Type := mk_server {
  serial : option string;
  url : option string;
  addr : Z;
  process : process_t;
  wait_server_thread : option handle;
  server_socket_closed : bool;
  mutex : option handle;
  process_terminated_cond : option handle;
  process_terminated : bool;
  server_socket : socket_t;
  video_socket : socket_t;
  control_socket : socket_t;
  port_range : sc_port_range;
  local_port : Z;
  tunnel_enabled : bool;
  tunnel_forward : bool;
  direct : bool
}.

Definition socket_eqb (a b : socket_t) : bool :=
  match a, b with
  | INVALID_SOCKET, INVALID_SOCKET => true
  | Socket x, Socket y => x =? y
  | _, _ => false
  end.

Definition is_valid_socket (s : socket_t) : bool :=
  negb (socket_eqb s INVALID_SOCKET).

Definition process_eqb (a b : process_t) : bool :=
  match a, b with
  | PROCESS_NONE, PROCESS_NONE => true
  | Process x, Process y => x =? y
  | _, _ => false
  end.

(** Field updates of [struct server], one per assigned field. *)
Definition set_serial (v : option string) (s : server) : server :=
  mk_server v (url s) (addr s) (process s) (wait_server_thread s)
    (server_socket_closed s) (mutex s) (process_terminated_cond s)
    (process_terminated s) (server_socket s) (video_socket s)
    (control_socket s) (port_range s) (local_port s) (tunnel_enabled s)
    (tunnel_forward s) (direct s).

Definition set_url (v : option string) (s : server) : server :=
  mk_server (serial s) v (addr s) (process s) (wait_server_thread s)
    (server_socket_closed s) (mutex s) (process_terminated_cond s)
    (process_terminated s) (server_socket s) (video_socket s)
    (control_socket s) (port_range s) (local_port s) (tunnel_enabled s)
    (tunnel_forward s) (direct s).

Definition set_addr (v : Z) (s : server) : server :=
  mk_server (serial s) (url s) v (process s) (wait_server_thread s)
    (server_socket_closed s) (mutex s) (process_terminated_cond s)
    (process_terminated s) (server_socket s) (video_socket s)
    (control_socket s) (port_range s) (local_port s) (tunnel_enabled s)
    (tunnel_forward s) (direct s).

Definition set_process (v : process_t) (s : server) : server :=
  mk_server (serial s) (url s) (addr s) v (wait_server_thread s)
    (server_socket_closed s) (mutex s) (process_terminated_cond s)
    (process_terminated s) (server_socket s) (video_socket s)
    (control_socket s) (port_range s) (local_port s) (tunnel_enabled s)
    (tunnel_forward s) (direct s).

Definition set_wait_server_thread (v : option handle) (s : server) : server :=
  mk_server (serial s) (url s) (addr s) (process s) v
    (server_socket_closed s) (mutex s) (process_terminated_cond s)
    (process_terminated s) (server_socket s) (video_socket s)
    (control_socket s) (port_range s) (local_port s) (tunnel_enabled s)
    (tunnel_forward s) (direct s).

Definition set_server_socket_closed (v : bool) (s : server) : server :=
  mk_server (serial s) (url s) (addr s) (process s) (wait_server_thread s)
    v (mutex s) (process_terminated_cond s)
    (process_terminated s) (server_socket s) (video_socket s)
    (control_socket s) (port_range s) (local_port s) (tunnel_enabled s)
    (tunnel_forward s) (direct s).

Definition set_mutex (v : option handle) (s : server) : server :=
  mk_server (serial s) (url s) (addr s) (process s) (wait_server_thread s)
    (server_socket_closed s) v (process_terminated_cond s)
    (process_terminated s) (server_socket s) (video_socket s)
    (control_socket s) (port_range s) (local_port s) (tunnel_enabled s)
    (tunnel_forward s) (direct s).

Definition set_process_terminated_cond (v : option handle) (s : server) : server :=
  mk_server (serial s) (url s) (addr s) (process s) (wait_server_thread s)
    (server_socket_closed s) (mutex s) v
    (process_terminated s) (server_socket s) (video_socket s)
    (control_socket s) (port_range s) (local_port s) (tunnel_enabled s)
    (tunnel_forward s) (direct s).

Definition set_process_terminated (v : bool) (s : server) : server :=
  mk_server (serial s) (url s) (addr s) (process s) (wait_server_thread s)
    (server_socket_closed s) (mutex s) (process_terminated_cond s)
    v (server_socket s) (video_socket s)
    (control_socket s) (port_range s) (local_port s) (tunnel_enabled s)
    (tunnel_forward s) (direct s).

Definition set_server_socket (v : socket_t) (s : server) : server :=
  mk_server (serial s) (url s) (addr s) (process s) (wait_server_thread s)
    (server_socket_closed s) (mutex s) (process_terminated_cond s)
    (process_terminated s) v (video_socket s)
    (control_socket s) (port_range s) (local_port s) (tunnel_enabled s)
    (tunnel_forward s) (direct s).

Definition set_video_socket (v : socket_t) (s : server) : server :=
  mk_server (serial s) (url s) (addr s) (process s) (wait_server_thread s)
    (server_socket_closed s) (mutex s) (process_terminated_cond s)
    (process_terminated s) (server_socket s) v
    (control_socket s) (port_range s) (local_port s) (tunnel_enabled s)
    (tunnel_forward s) (direct s).

Definition set_control_socket (v : socket_t) (s : server) : server :=
  mk_server (serial s) (url s) (addr s) (process s) (wait_server_thread s)
    (server_socket_closed s) (mutex s) (process_terminated_cond s)
    (process_terminated s) (server_socket s) (video_socket s)
    v (port_range s) (local_port s) (tunnel_enabled s)
    (tunnel_forward s) (direct s).

Definition set_port_range (v : sc_port_range) (s : server) : server :=
  mk_server (serial s) (url s) (addr s) (process s) (wait_server_thread s)
    (server_socket_closed s) (mutex s) (process_terminated_cond s)
    (process_terminated s) (server_socket s) (video_socket s)
    (control_socket s) v (local_port s) (tunnel_enabled s)
    (tunnel_forward s) (direct s).

Definition set_local_port (v : Z) (s : server) : server :=
  mk_server (serial s) (url s) (addr s) (process s) (wait_server_thread s)
    (server_socket_closed s) (mutex s) (process_terminated_cond s)
    (process_terminated s) (server_socket s) (video_socket s)
    (control_socket s) (port_range s) v (tunnel_enabled s)
    (tunnel_forward s) (direct s).

Definition set_tunnel_enabled (v : bool) (s : server) : server :=
  mk_server (serial s) (url s) (addr s) (process s) (wait_server_thread s)
    (server_socket_closed s) (mutex s) (process_terminated_cond s)
    (process_terminated s) (server_socket s) (video_socket s)
    (control_socket s) (port_range s) (local_port s) v
    (tunnel_forward s) (direct s).

Definition set_tunnel_forward (v : bool) (s : server) : server :=
  mk_server (serial s) (url s) (addr s) (process s) (wait_server_thread s)
    (server_socket_closed s) (mutex s) (process_terminated_cond s)
    (process_terminated s) (server_socket s) (video_socket s)
    (control_socket s) (port_range s) (local_port s) (tunnel_enabled s)
    v (direct s).

Definition set_direct (v : bool) (s : server) : server :=
  mk_server (serial s) (url s) (addr s) (process s) (wait_server_thread s)
    (server_socket_closed s) (mutex s) (process_terminated_cond s)
    (process_terminated s) (server_socket s) (video_socket s)
    (control_socket s) (port_range s) (local_port s) (tunnel_enabled s)
    (tunnel_forward s) v.

(** ** External calls

    The collaborators of [server.c] (command.h, util/net.h, util/lock.h,
    SDL, the curl helper, libc), with the type of what each returns. *)
Inductive call : Type -> Type :=
| getenv (name : string) : call (option string)
| SDL_strdup (s : string) : call (option string)
| SDL_free (p : option string) : call unit
| is_regular_file (path : string) : call bool
| adb_push (serial : option string) (local remote : string) : call process_t
| adb_reverse (serial : option string) (name : string) (port : Z) : call process_t
| adb_reverse_remove (serial : option string) (name : string) : call process_t
| adb_forward (serial : option string) (port : Z) (name : string) : call process_t
| adb_forward_remove (serial : option string) (port : Z) : call process_t
| adb_execute (serial : option string) (cmd : list string) : call process_t
| process_check_success (p : process_t) (name : string) : call bool
| cmd_terminate (p : process_t) : call bool
| cmd_simple_wait (p : process_t) : call bool
| curl_get (url : string) (size : Z) : call (Z * string)
| net_listen (addr port backlog : Z) : call socket_t
| net_connect (addr port : Z) : call socket_t
| net_accept (s : socket_t) : call socket_t
| net_recv (s : socket_t) (len : Z) : call Z
| net_shutdown (s : socket_t) : call bool
| net_close (s : socket_t) : call bool
| SDL_Delay (ms : Z) : call unit
| SDL_CreateMutex : call (option handle)
| SDL_CreateCond : call (option handle)
| SDL_DestroyMutex (m : option handle) : call unit
| SDL_DestroyCond (c : option handle) : call unit
| SDL_CreateThread (fn : thread_fn) (name : string) : call (option handle)
| SDL_WaitThread (t : option handle) : call unit
| mutex_lock (m : option handle) : call unit
| mutex_unlock (m : option handle) : call unit
| cond_signal (c : option handle) : call unit
| cond_wait_timeout (c m : option handle) (ms : Z) : call Z.

(** One external call together with what it returned. *)
Inductive event : Type :=
| Ev (R : Type) (c : call R) (r : R).

Arguments Ev {R} c r.

(** ** Programs *)

Inductive prog (A : Type) : Type :=
| Ret (a : A)
| Abort (msg : string)
| Diverge
| Fetch (k : server -> prog A)
| Store (f : server -> server) (k : prog A)
| FlagTestAndSet (k : bool -> prog A)
| Ext (R : Type) (c : call R) (k : R -> prog A).

Arguments Ret {A} a.
Arguments Abort {A} msg.
Arguments Diverge {A}.
Arguments Fetch {A} k.
Arguments Store {A} f k.
Arguments FlagTestAndSet {A} k.
Arguments Ext {A R} c k.

Fixpoint bind {A B : Type} (p : prog A) (f : A -> prog B) : prog B :=
  match p with
  | Ret a => f a
  | Abort msg => Abort msg
  | Diverge => Diverge
  | Fetch k => Fetch (fun s => bind (k s) f)
  | Store g k => Store g (bind k f)
  | FlagTestAndSet k => FlagTestAndSet (fun b => bind (k b) f)
  | Ext c k => Ext c (fun r => bind (k r) f)
  end.

Declare Scope prog_scope.
Delimit Scope prog_scope with prog.
Notation "x <- p ;; q" := (bind p (fun x => q))
  (at level 61, p at next level, right associativity) : prog_scope.
Notation "p ;; q" := (bind p (fun _ => q))
  (at level 61, right associativity) : prog_scope.
Local Open Scope prog_scope.

(** [server->field]. *)
Definition get {T : Type} (proj : server -> T) : prog T :=
  Fetch (fun s => Ret (proj s)).

(** [server->field = v]. *)
Definition put (f : server -> server) : prog unit :=
  Store f (Ret tt).

(** A call to a collaborator. *)
Definition ext {R : Type} (c : call R) : prog R :=
  Ext c (fun r => Ret r).

(** [atomic_flag_test_and_set(&server->server_socket_closed)]: returns
    the previous value of the flag. *)
Definition atomic_flag_test_and_set : prog bool :=
  FlagTestAndSet (fun b => Ret b).

(** [assert(cond)]. *)
Definition assert (cond : bool) (msg : string) : prog unit :=
  if cond then Ret tt else Abort msg.

(** ** Sequential semantics *)

Inductive outcome (A : Type) : Type :=
| Done (a : A)
| Aborted (msg : string)
| OutOfFuel.

Arguments Done {A} a.
Arguments Aborted {A} msg.
Arguments OutOfFuel {A}.

(** The environment answers a call from the calls and answers so far. *)
Definition oracle := list event -> forall R : Type, call R -> R.

Fixpoint run {A : Type} (env : oracle) (p : prog A) (s : server)
    (h : list event) : outcome A * server * list event :=
  match p with
  | Ret a => (Done a, s, h)
  | Abort msg => (Aborted msg, s, h)
  | Diverge => (OutOfFuel, s, h)
  | Fetch k => run env (k s) s h
  | Store f k => run env k (f s) h
  | FlagTestAndSet k =>
      run env (k (server_socket_closed s)) (set_server_socket_closed true s) h
  | Ext c k => let r := env h _ c in run env (k r) s (h ++ [Ev c r])
  end.

(** ** The functions of server.c *)

Definition SOCKET_NAME : string := "scrcpy".
Definition SERVER_FILENAME : string := "scrcpy-server".
Definition DEVICE_SERVER_PATH : string := "/data/local/tmp/scrcpy-server.jar".
Definition IPV4_LOCALHOST : Z := 0x7F000001.
Definition WATCHDOG_DELAY_MS : Z := 1000.
Definition SDL_MUTEX_TIMEDOUT : Z := 1.
Definition UINT16_MODULUS : Z := 2 ^ 16.
Definition UINT32_MODULUS : Z := 2 ^ 32.

(** [if (cond) { body }]. *)
Definition when (cond : bool) (body : prog unit) : prog unit :=
  if cond then body else Ret tt.

(** [sprintf(buf, "%" PRIu16, x)] and the like: the decimal digits. *)
Definition decimal (x : Z) : string :=
  NilZero.string_of_int (Z.to_int x).

(** The characters of the C string held in the bytes [s]: those before
    the first zero byte. *)
Fixpoint c_string (s : string) : string :=
  match s with
  | EmptyString => EmptyString
  | String c s' =>
      if Ascii.eqb c Ascii.zero then EmptyString else String c (c_string s')
  end.

(** [strstr(haystack, needle) != NULL], where [haystack] is the bytes at
    the pointer: the search stops at the first zero byte. *)
Definition strstr (haystack needle : string) : bool :=
  match String.index 0 needle (c_string haystack) with
  | Some _ => true
  | None => false
  end.

Definition bool_string (b : bool) : string :=
  if b then "true" else "false".

Definition or_dash (o : option string) : string :=
  match o with
  | Some s => s
  | None => "-"
  end.

(** What ["%s"] prints for a [char *]; the C library prints a [NULL]
    as [(null)]. *)
Definition percent_s (o : option string) : string :=
  match o with
  | Some s => s
  | None => "(null)"
  end.

Section ServerC.

(** The macros of config.h, fixed when the client is built. *)
Variables (PREFIX SCRCPY_VERSION : string).

Definition DEFAULT_SERVER_PATH : string :=
  PREFIX ++ "/share/scrcpy/" ++ SERVER_FILENAME.

Definition get_server_path : prog (option string) :=
  server_path_env <- ext (getenv "SCRCPY_SERVER_PATH");;
  match server_path_env with
  | Some path =>
      server_path <- ext (SDL_strdup path);;
      match server_path with
      | None => Ret None
      | Some _ => Ret server_path
      end
  | None =>
      server_path <- ext (SDL_strdup DEFAULT_SERVER_PATH);;
      match server_path with
      | None => Ret None
      | Some _ => Ret server_path
      end
  end.

Definition push_server (serial' : option string) : prog bool :=
  server_path <- get_server_path;;
  match server_path with
  | None => Ret false
  | Some path =>
      regular <- ext (is_regular_file path);;
      if negb regular then
        ext (SDL_free server_path);;
        Ret false
      else
        process' <- ext (adb_push serial' path DEVICE_SERVER_PATH);;
        ext (SDL_free server_path);;
        ext (process_check_success process' "adb push")
  end.

Definition enable_tunnel_reverse (serial' : option string) (local_port' : Z)
    : prog bool :=
  process' <- ext (adb_reverse serial' SOCKET_NAME local_port');;
  ext (process_check_success process' "adb reverse").

Definition disable_tunnel_reverse (serial' : option string) : prog bool :=
  process' <- ext (adb_reverse_remove serial' SOCKET_NAME);;
  ext (process_check_success process' "adb reverse --remove").

Definition enable_tunnel_forward (serial' : option string) (local_port' : Z)
    : prog bool :=
  process' <- ext (adb_forward serial' local_port' SOCKET_NAME);;
  ext (process_check_success process' "adb forward").

Definition disable_tunnel_forward (serial' : option string) (local_port' : Z)
    : prog bool :=
  process' <- ext (adb_forward_remove serial' local_port');;
  ext (process_check_success process' "adb forward --remove").

Definition disable_tunnel : prog bool :=
  forward <- get tunnel_forward;;
  if forward then
    serial' <- get serial;;
    port <- get local_port;;
    disable_tunnel_forward serial' port
  else
    serial' <- get serial;;
    disable_tunnel_reverse serial'.

Definition listen_on_port (port : Z) : prog socket_t :=
  ext (net_listen IPV4_LOCALHOST port 1).

(** The [for (;;)] of [enable_tunnel_reverse_any_port]; [port] is the
    [uint16_t] counter, [port++] wraps modulo 2^16.  [fuel] bounds the
    number of iterations of the model. *)
Fixpoint enable_tunnel_reverse_loop (fuel : nat) (range : sc_port_range)
    (port : Z) : prog bool :=
  match fuel with
  | O => Diverge
  | S fuel' =>
      serial' <- get serial;;
      enabled <- enable_tunnel_reverse serial' port;;
      if negb enabled then
        Ret false
      else
        sock <- listen_on_port port;;
        put (set_server_socket sock);;
        server_socket' <- get server_socket;;
        if is_valid_socket server_socket' then
          put (set_local_port port);;
          Ret true
        else
          serial' <- get serial;;
          disable_tunnel_reverse serial';;
          if port <? last range then
            enable_tunnel_reverse_loop fuel' range ((port + 1) mod UINT16_MODULUS)
          else
            Ret false
  end.

(** A [uint16_t] has 2^16 values. *)
Definition PORT_FUEL : nat := Z.to_nat UINT16_MODULUS.

Definition enable_tunnel_reverse_any_port (range : sc_port_range) : prog bool :=
  enable_tunnel_reverse_loop PORT_FUEL range (first range).

Fixpoint enable_tunnel_forward_loop (fuel : nat) (range : sc_port_range)
    (port : Z) : prog bool :=
  match fuel with
  | O => Diverge
  | S fuel' =>
      serial' <- get serial;;
      enabled <- enable_tunnel_forward serial' port;;
      if enabled then
        put (set_local_port port);;
        Ret true
      else if port <? last range then
        enable_tunnel_forward_loop fuel' range ((port + 1) mod UINT16_MODULUS)
      else
        Ret false
  end.

Definition enable_tunnel_forward_any_port (range : sc_port_range) : prog bool :=
  put (set_tunnel_forward true);;
  enable_tunnel_forward_loop PORT_FUEL range (first range).

Definition enable_tunnel_any_port (range : sc_port_range)
    (force_adb_forward : bool) : prog bool :=
  if negb force_adb_forward then
    reversed <- enable_tunnel_reverse_any_port range;;
    if reversed then
      Ret true
    else
      enable_tunnel_forward_any_port range
  else
    enable_tunnel_forward_any_port range.

Definition log_level_to_server_string (level : sc_log_level) : string :=
  match level with
  | SC_LOG_LEVEL_DEBUG => "debug"
  | SC_LOG_LEVEL_INFO => "info"
  | SC_LOG_LEVEL_WARN => "warn"
  | SC_LOG_LEVEL_ERROR => "error"
  end.

Definition execute_server_adb (params : server_params) : prog process_t :=
  forward <- get tunnel_forward;;
  serial' <- get serial;;
  ext (adb_execute serial'
    [ "shell";
      "CLASSPATH=" ++ DEVICE_SERVER_PATH;
      "app_process";
      "/";
      "com.genymobile.scrcpy.Server";
      SCRCPY_VERSION;
      log_level_to_server_string (log_level params);
      decimal (max_size params);
      decimal (bit_rate params);
      decimal (max_fps params);
      decimal (lock_video_orientation params);
      bool_string forward;
      or_dash (crop params);
      "true";
      bool_string (control params);
      decimal (display_id params);
      bool_string (show_touches params);
      bool_string (stay_awake params);
      or_dash (codec_options params);
      or_dash (encoder_name params) ])%string.

(** What both curl helpers do with the answer: [ret] is what [curl_get]
    returned and [buffer] the bytes of the 1024-byte buffer after the
    call.  Both searches read the buffer as a C string; the second one
    comes after the zero byte written at [ret], or at 1023 when [ret] is
    larger. *)
Definition curl_response_ok (ret : Z) (buffer : string) : bool :=
  if (ret >? 0) && strstr buffer "success" then
    let terminated :=
      if ret >=? 1024 then substring 0 1023 buffer
      else substring 0 (Z.to_nat ret) buffer in
    (ret >? 0) && strstr terminated "success"
  else
    false.

(** [snprintf(url, sizeof(url), ...)] keeps at most 1023 characters. *)
Definition snprintf_1024 (s : string) : string :=
  substring 0 1023 s.

(** [true] stands for [PROCESS_SUCCESS], [false] for
    [PROCESS_ERROR_GENERIC]. *)
Definition start_url (base : option string) (params : server_params) : string :=
  snprintf_1024
    (percent_s base ++ "/startScrcpy/" ++
     SCRCPY_VERSION ++ "/" ++
     log_level_to_server_string (log_level params) ++ "/" ++
     decimal (max_size params) ++ "/" ++
     decimal (bit_rate params) ++ "/" ++
     decimal (max_fps params) ++ "/" ++
     decimal (lock_video_orientation params) ++ "/" ++
     "true" ++ "/" ++
     or_dash (crop params) ++ "/" ++
     "true" ++ "/" ++
     bool_string (control params) ++ "/" ++
     decimal (display_id params) ++ "/" ++
     bool_string (show_touches params) ++ "/" ++
     bool_string (stay_awake params) ++ "/" ++
     or_dash (codec_options params) ++ "/" ++
     or_dash (encoder_name params))%string.

Definition execute_server_curl (params : server_params) : prog bool :=
  base <- get url;;
  answer <- ext (curl_get (start_url base params) 1024);;
  Ret (curl_response_ok (fst answer) (snd answer)).

Definition stop_url (base : option string) : string :=
  snprintf_1024 (percent_s base ++ "/stopScrcpy/")%string.

Definition stop_server_curl : prog bool :=
  base <- get url;;
  answer <- ext (curl_get (stop_url base) 1024);;
  Ret (curl_response_ok (fst answer) (snd answer)).

Definition connect_and_read_byte (addr' port : Z) : prog socket_t :=
  socket <- ext (net_connect addr' port);;
  if negb (is_valid_socket socket) then
    Ret INVALID_SOCKET
  else
    received <- ext (net_recv socket 1);;
    if negb (received =? 1) then
      ext (net_close socket);;
      Ret INVALID_SOCKET
    else
      Ret socket.

(** The [do ... while (--attempts > 0)] of [connect_to_server];
    [attempts] is a [uint32_t], [--attempts] wraps modulo 2^32. *)
Fixpoint connect_to_server_loop (fuel : nat) (addr' port attempts delay : Z)
    : prog socket_t :=
  match fuel with
  | O => Diverge
  | S fuel' =>
      socket <- connect_and_read_byte addr' port;;
      if is_valid_socket socket then
        Ret socket
      else
        when (negb (attempts =? 0)) (ext (SDL_Delay delay));;
        let attempts' := (attempts - 1) mod UINT32_MODULUS in
        if attempts' >? 0 then
          connect_to_server_loop fuel' addr' port attempts' delay
        else
          Ret INVALID_SOCKET
  end.

(** The number of times the body of the loop can run when it starts
    with [attempts]; the fuel of the model. *)
Definition connect_iterations (attempts : Z) : Z :=
  if attempts =? 0 then UINT32_MODULUS else attempts.

Definition connect_to_server (addr' port attempts delay : Z) : prog socket_t :=
  connect_to_server_loop (Z.to_nat (connect_iterations attempts))
    addr' port attempts delay.

Definition close_socket (socket : socket_t) : prog unit :=
  assert (is_valid_socket socket) "socket != INVALID_SOCKET";;
  ext (net_shutdown socket);;
  ext (net_close socket);;
  Ret tt.

Definition server_init : prog bool :=
  put (set_serial None);;
  put (set_url None);;
  put (set_addr 0);;
  put (set_process PROCESS_NONE);;
  put (set_wait_server_thread None);;
  put (set_server_socket_closed false);;
  m <- ext SDL_CreateMutex;;
  put (set_mutex m);;
  mutex' <- get mutex;;
  match mutex' with
  | None => Ret false
  | Some _ =>
      c <- ext SDL_CreateCond;;
      put (set_process_terminated_cond c);;
      cond <- get process_terminated_cond;;
      match cond with
      | None =>
          mutex' <- get mutex;;
          ext (SDL_DestroyMutex mutex');;
          Ret false
      | Some _ =>
          put (set_process_terminated false);;
          put (set_server_socket INVALID_SOCKET);;
          put (set_video_socket INVALID_SOCKET);;
          put (set_control_socket INVALID_SOCKET);;
          put (set_port_range (mk_port_range 0 0));;
          put (set_local_port 0);;
          put (set_tunnel_enabled false);;
          put (set_tunnel_forward false);;
          put (set_direct false);;
          Ret true
      end
  end.

Definition run_wait_server : prog Z :=
  process' <- get process;;
  ext (cmd_simple_wait process');;
  mutex' <- get mutex;;
  ext (mutex_lock mutex');;
  put (set_process_terminated true);;
  cond <- get process_terminated_cond;;
  ext (cond_signal cond);;
  mutex' <- get mutex;;
  ext (mutex_unlock mutex');;
  server_socket' <- get server_socket;;
  (if is_valid_socket server_socket' then
     was_closed <- atomic_flag_test_and_set;;
     when (negb was_closed)
       (server_socket' <- get server_socket;;
        close_socket server_socket')
   else
     Ret tt);;
  Ret 0.

(** The code from the label [error1] of [server_start]. *)
Definition server_start_error1 : prog bool :=
  serial' <- get serial;;
  ext (SDL_free serial');;
  Ret false.

(** The code from the label [error2] of [server_start]. *)
Definition server_start_error2 : prog bool :=
  forward <- get tunnel_forward;;
  when (negb forward)
    (was_closed <- atomic_flag_test_and_set;;
     assert (negb was_closed) "!was_closed";;
     server_socket' <- get server_socket;;
     close_socket server_socket');;
  direct' <- get direct;;
  (if direct' then
     stop_server_curl;;
     Ret tt
   else
     disable_tunnel;;
     Ret tt);;
  server_start_error1.

(** The end of [server_start], from the creation of the thread. *)
Definition server_start_thread : prog bool :=
  thread <- ext (SDL_CreateThread RUN_WAIT_SERVER "wait-server");;
  put (set_wait_server_thread thread);;
  wait_server_thread' <- get wait_server_thread;;
  match wait_server_thread' with
  | None =>
      process' <- get process;;
      ext (cmd_terminate process');;
      process' <- get process;;
      ext (cmd_simple_wait process');;
      server_start_error2
  | Some _ =>
      put (set_tunnel_enabled true);;
      Ret true
  end.

Definition server_start (serial' : option string) (params : server_params)
    : prog bool :=
  put (set_port_range (params_port_range params));;
  duplicated <-
    match serial' with
    | Some text =>
        copy <- ext (SDL_strdup text);;
        put (set_serial copy);;
        own <- get serial;;
        Ret (match own with Some _ => true | None => false end)
    | None => Ret true
    end;;
  if negb duplicated then
    Ret false
  else
    direct' <- get direct;;
    if direct' then
      started <- execute_server_curl params;;
      if negb started then
        server_start_error2
      else
        server_start_thread
    else
      pushed <- push_server serial';;
      if negb pushed then
        server_start_error1
      else
        tunnel <- enable_tunnel_any_port (params_port_range params)
                    (force_adb_forward params);;
        if negb tunnel then
          server_start_error1
        else
          process' <- execute_server_adb params;;
          put (set_process process');;
          own <- get process;;
          if process_eqb own PROCESS_NONE then
            server_start_error2
          else
            server_start_thread.

Definition server_connect_to : prog bool :=
  direct' <- get direct;;
  if direct' then
    addr' <- get addr;;
    range <- get port_range;;
    socket <- connect_to_server addr' (first range) 12 1000;;
    put (set_video_socket socket);;
    video_socket' <- get video_socket;;
    if negb (is_valid_socket video_socket') then
      Ret false
    else
      addr' <- get addr;;
      range <- get port_range;;
      socket <- ext (net_connect addr' (first range));;
      put (set_control_socket socket);;
      control_socket' <- get control_socket;;
      if negb (is_valid_socket control_socket') then
        Ret false
      else
        Ret true
  else
    forward <- get tunnel_forward;;
    if forward then
      port <- get local_port;;
      socket <- connect_to_server IPV4_LOCALHOST port 100 100;;
      put (set_video_socket socket);;
      video_socket' <- get video_socket;;
      if negb (is_valid_socket video_socket') then
        Ret false
      else
        port <- get local_port;;
        socket <- ext (net_connect IPV4_LOCALHOST port);;
        put (set_control_socket socket);;
        control_socket' <- get control_socket;;
        if negb (is_valid_socket control_socket') then
          Ret false
        else
          disable_tunnel;;
          put (set_tunnel_enabled false);;
          Ret true
    else
      server_socket' <- get server_socket;;
      socket <- ext (net_accept server_socket');;
      put (set_video_socket socket);;
      video_socket' <- get video_socket;;
      if negb (is_valid_socket video_socket') then
        Ret false
      else
        server_socket' <- get server_socket;;
        socket <- ext (net_accept server_socket');;
        put (set_control_socket socket);;
        control_socket' <- get control_socket;;
        if negb (is_valid_socket control_socket') then
          Ret false
        else
          was_closed <- atomic_flag_test_and_set;;
          when (negb was_closed)
            (server_socket' <- get server_socket;;
             close_socket server_socket');;
          Ret true.

Definition server_stop : prog unit :=
  server_socket' <- get server_socket;;
  (if is_valid_socket server_socket' then
     was_closed <- atomic_flag_test_and_set;;
     when (negb was_closed)
       (server_socket' <- get server_socket;;
        close_socket server_socket')
   else
     Ret tt);;
  video_socket' <- get video_socket;;
  when (is_valid_socket video_socket')
    (video_socket' <- get video_socket;;
     close_socket video_socket');;
  control_socket' <- get control_socket;;
  when (is_valid_socket control_socket')
    (control_socket' <- get control_socket;;
     close_socket control_socket');;
  process' <- get process;;
  assert (negb (process_eqb process' PROCESS_NONE))
    "server->process != PROCESS_NONE";;
  enabled <- get tunnel_enabled;;
  (if enabled then
     direct' <- get direct;;
     when (negb direct') (disable_tunnel;; Ret tt)
   else
     Ret tt);;
  direct' <- get direct;;
  when direct' (stop_server_curl;; Ret tt);;
  mutex' <- get mutex;;
  ext (mutex_lock mutex');;
  terminated <- get process_terminated;;
  r <- (if negb terminated then
          cond <- get process_terminated_cond;;
          mutex' <- get mutex;;
          ext (cond_wait_timeout cond mutex' WATCHDOG_DELAY_MS)
        else
          Ret 0);;
  mutex' <- get mutex;;
  ext (mutex_unlock mutex');;
  when (r =? SDL_MUTEX_TIMEDOUT)
    (process' <- get process;;
     ext (cmd_terminate process');;
     Ret tt);;
  thread <- get wait_server_thread;;
  ext (SDL_WaitThread thread);;
  Ret tt.

Definition server_destroy : prog unit :=
  serial' <- get serial;;
  ext (SDL_free serial');;
  url' <- get url;;
  ext (SDL_free url');;
  cond <- get process_terminated_cond;;
  ext (SDL_DestroyCond cond);;
  mutex' <- get mutex;;
  ext (SDL_DestroyMutex mutex');;
  Ret tt.

End ServerC.

(** ** Reading a history of calls *)

(** The socket a successful [net_connect] or [net_accept] returned. *)
Definition acquired_socket (e : event) : option socket_t :=
  match e with
  | Ev c r =>
      match c in call R return R -> option socket_t with
      | net_connect _ _ => fun sock => if is_valid_socket sock then Some sock else None
      | net_accept _ => fun sock => if is_valid_socket sock then Some sock else None
      | _ => fun _ => None
      end r
  end.

Definition is_net_connect (e : event) : bool :=
  match e with
  | Ev c _ => match c with net_connect _ _ => true | _ => false end
  end.

Definition is_net_accept (e : event) : bool :=
  match e with
  | Ev c _ => match c with net_accept _ => true | _ => false end
  end.

Definition is_SDL_Delay (e : event) : bool :=
  match e with
  | Ev c _ => match c with SDL_Delay _ => true | _ => false end
  end.

(** The socket a [net_close] was called on. *)
Definition closed_socket (e : event) : option socket_t :=
  match e with
  | Ev c _ => match c with net_close sock => Some sock | _ => None end
  end.

(** The port of an [adb reverse] command. *)
Definition reverse_port (e : event) : option Z :=
  match e with
  | Ev c _ => match c with adb_reverse _ _ port => Some port | _ => None end
  end.

(** The port of an [adb forward] command. *)
Definition forward_port (e : event) : option Z :=
  match e with
  | Ev c _ => match c with adb_forward _ port _ => Some port | _ => None end
  end.

Definition is_adb_reverse_remove (e : event) : bool :=
  match e with
  | Ev c _ => match c with adb_reverse_remove _ _ => true | _ => false end
  end.

(** The bytes [net_recv] took from socket [sock] in one call. *)
Definition received_bytes (sock : socket_t) (e : event) : Z :=
  match e with
  | Ev c r =>
      match c in call R return R -> Z with
      | net_recv from _ => fun n => if socket_eqb from sock then Z.max 0 n else 0
      | _ => fun _ => 0
      end r
  end.

Fixpoint filter_map {A B : Type} (f : A -> option B) (l : list A) : list B :=
  match l with
  | [] => []
  | x :: l' =>
      match f x with
      | Some y => y :: filter_map f l'
      | None => filter_map f l'
      end
  end.

(** How many events of a history satisfy [p]. *)
Definition count_events (p : event -> bool) (t : list event) : Z :=
  Z.of_nat (List.length (filter p t)).

(** How many bytes the calls of a history took from [sock]. *)
Definition bytes_taken (sock : socket_t) (t : list event) : Z :=
  fold_right (fun e n => received_bytes sock e + n) 0 t.

(** What is left for the next reader of [sock] when the peer sent
    [stream] and the calls of [t] were made. *)
Definition unread {A : Type} (stream : list A) (sock : socket_t)
    (t : list event) : list A :=
  skipn (Z.to_nat (bytes_taken sock t)) stream.

(** [a; a+1; ...; a+n-1] *)
Definition consecutive_ports (a : Z) (n : nat) : list Z :=
  map (fun i => a + Z.of_nat i) (seq 0 n).

(** The readiness probe of [connect_and_read_byte] started after [h]
    gets a socket and reads exactly one byte from it. *)
Definition probe_ok (env : oracle) (addr' port : Z) (h : list event) : bool :=
  let sock := env h _ (net_connect addr' port) in
  is_valid_socket sock
  && (env (h ++ [Ev (net_connect addr' port) sock]) _ (net_recv sock 1) =? 1).

(** ** Specifications of histories *)

(** Every socket [t] obtained was closed again in [t]. *)
Definition discarded (t : list event) : Prop :=
  forall sock, In sock (filter_map acquired_socket t) ->
               In sock (filter_map closed_socket t).

Definition uint16 (x : Z) : Prop := 0 <= x < UINT16_MODULUS.

(** The five calls of one round of the reverse sweep that could not
    listen on [port]. *)
Definition reverse_round (ser : option string) (port : Z)
    (pr rm : process_t) (removed : bool) : list event :=
  [ Ev (adb_reverse ser SOCKET_NAME port) pr;
    Ev (process_check_success pr "adb reverse") true;
    Ev (net_listen IPV4_LOCALHOST port 1) INVALID_SOCKET;
    Ev (adb_reverse_remove ser SOCKET_NAME) rm;
    Ev (process_check_success rm "adb reverse --remove") removed ].

(** [reverse_sweep ser range port s t b s']: the calls [t], the result
    [b] and the final state [s'] of the reverse sweep that starts at
    [port] in state [s]. *)
Inductive reverse_sweep (ser : option string) (range : sc_port_range)
    : Z -> server -> list event -> bool -> server -> Prop :=
| sweep_command_failed (port : Z) (s : server) (pr : process_t) :
    reverse_sweep ser range port s
      [ Ev (adb_reverse ser SOCKET_NAME port) pr;
        Ev (process_check_success pr "adb reverse") false ]
      false s
| sweep_listening (port : Z) (s : server) (pr : process_t) (sock : socket_t) :
    is_valid_socket sock = true ->
    reverse_sweep ser range port s
      [ Ev (adb_reverse ser SOCKET_NAME port) pr;
        Ev (process_check_success pr "adb reverse") true;
        Ev (net_listen IPV4_LOCALHOST port 1) sock ]
      true (set_local_port port (set_server_socket sock s))
| sweep_exhausted (port : Z) (s : server) (pr rm : process_t) (removed : bool) :
    last range <= port ->
    reverse_sweep ser range port s
      (reverse_round ser port pr rm removed)
      false (set_server_socket INVALID_SOCKET s)
| sweep_retry (port : Z) (s : server) (pr rm : process_t) (removed : bool)
    (t : list event) (b : bool) (s' : server) :
    port < last range ->
    reverse_sweep ser range ((port + 1) mod UINT16_MODULUS)
      (set_server_socket INVALID_SOCKET s) t b s' ->
    reverse_sweep ser range port s
      (reverse_round ser port pr rm removed ++ t) b s'.

(** The same for the forward sweep. *)
Inductive forward_sweep (ser : option string) (range : sc_port_range)
    : Z -> server -> list event -> bool -> server -> Prop :=
| forward_done (port : Z) (s : server) (pr : process_t) :
    forward_sweep ser range port s
      [ Ev (adb_forward ser port SOCKET_NAME) pr;
        Ev (process_check_success pr "adb forward") true ]
      true (set_local_port port s)
| forward_exhausted (port : Z) (s : server) (pr : process_t) :
    last range <= port ->
    forward_sweep ser range port s
      [ Ev (adb_forward ser port SOCKET_NAME) pr;
        Ev (process_check_success pr "adb forward") false ]
      false s
| forward_retry (port : Z) (s : server) (pr : process_t)
    (t : list event) (b : bool) (s' : server) :
    port < last range ->
    forward_sweep ser range ((port + 1) mod UINT16_MODULUS) s t b s' ->
    forward_sweep ser range port s
      ([ Ev (adb_forward ser port SOCKET_NAME) pr;
         Ev (process_check_success pr "adb forward") false ] ++ t) b s'.

(** Every [adb reverse --remove] of [t] comes straight after an
    [adb reverse] that succeeded and a [net_listen] on the same port
    that failed. *)
Definition removal_after_failed_listen (ser : option string) (t : list event)
    : Prop :=
  forall pre e post,
    t = pre ++ e :: post ->
    is_adb_reverse_remove e = true ->
    exists pre' port pr,
      pre = pre' ++ [ Ev (adb_reverse ser SOCKET_NAME port) pr;
                      Ev (process_check_success pr "adb reverse") true;
                      Ev (net_listen IPV4_LOCALHOST port 1) INVALID_SOCKET ].

(** ** Environments and states to run the programs on *)

(** Every collaborator fails. *)
Definition refuse_all : oracle :=
  fun _ R c =>
    match c in call R return R with
    | getenv _ => None
    | SDL_strdup _ => None
    | SDL_free _ => tt
    | is_regular_file _ => false
    | adb_push _ _ _ => PROCESS_NONE
    | adb_reverse _ _ _ => PROCESS_NONE
    | adb_reverse_remove _ _ => PROCESS_NONE
    | adb_forward _ _ _ => PROCESS_NONE
    | adb_forward_remove _ _ => PROCESS_NONE
    | adb_execute _ _ => PROCESS_NONE
    | process_check_success _ _ => false
    | cmd_terminate _ => false
    | cmd_simple_wait _ => false
    | curl_get _ _ => (-1, EmptyString)
    | net_listen _ _ _ => INVALID_SOCKET
    | net_connect _ _ => INVALID_SOCKET
    | net_accept _ => INVALID_SOCKET
    | net_recv _ _ => -1
    | net_shutdown _ => false
    | net_close _ => false
    | SDL_Delay _ => tt
    | SDL_CreateMutex => None
    | SDL_CreateCond => None
    | SDL_DestroyMutex _ => tt
    | SDL_DestroyCond _ => tt
    | SDL_CreateThread _ _ => None
    | SDL_WaitThread _ => tt
    | mutex_lock _ => tt
    | mutex_unlock _ => tt
    | cond_signal _ => tt
    | cond_wait_timeout _ _ _ => SDL_MUTEX_TIMEDOUT
    end.

(** Every collaborator succeeds; a new socket gets a descriptor that no
    earlier call returned. *)
Definition accept_all : oracle :=
  fun h R c =>
    match c in call R return R with
    | getenv _ => None
    | SDL_strdup s => Some s
    | SDL_free _ => tt
    | is_regular_file _ => true
    | adb_push _ _ _ => Process 100
    | adb_reverse _ _ _ => Process 101
    | adb_reverse_remove _ _ => Process 102
    | adb_forward _ _ _ => Process 103
    | adb_forward_remove _ _ => Process 104
    | adb_execute _ _ => Process 105
    | process_check_success _ _ => true
    | cmd_terminate _ => true
    | cmd_simple_wait _ => true
    | curl_get _ _ => (7, "success"%string)
    | net_listen _ _ _ => Socket (4 + Z.of_nat (List.length h))
    | net_connect _ _ => Socket (4 + Z.of_nat (List.length h))
    | net_accept _ => Socket (4 + Z.of_nat (List.length h))
    | net_recv _ _ => 1
    | net_shutdown _ => true
    | net_close _ => true
    | SDL_Delay _ => tt
    | SDL_CreateMutex => Some 1
    | SDL_CreateCond => Some 2
    | SDL_DestroyMutex _ => tt
    | SDL_DestroyCond _ => tt
    | SDL_CreateThread _ _ => Some 3
    | SDL_WaitThread _ => tt
    | mutex_lock _ => tt
    | mutex_unlock _ => tt
    | cond_signal _ => tt
    | cond_wait_timeout _ _ _ => 0
    end.

(** [adb reverse] is not supported (a device reached over
    [adb connect]); everything else succeeds. *)
Definition reverse_unsupported : oracle :=
  fun h R c =>
    match c in call R return R -> R with
    | process_check_success _ name =>
        fun answer => if String.eqb name "adb reverse" then false else answer
    | _ => fun answer => answer
    end (accept_all h R c).

(** The local ports are all in use: [net_listen] fails; everything else
    succeeds. *)
Definition ports_busy : oracle :=
  fun h R c =>
    match c in call R return R -> R with
    | net_listen _ _ _ => fun _ => INVALID_SOCKET
    | _ => fun answer => answer
    end (accept_all h R c).

(** The adb commands run but no port can be listened on or forwarded. *)
Definition no_tunnel : oracle :=
  fun h R c =>
    match c in call R return R -> R with
    | net_listen _ _ _ => fun _ => INVALID_SOCKET
    | process_check_success _ name =>
        fun answer => if String.eqb name "adb forward" then false else answer
    | _ => fun answer => answer
    end (accept_all h R c).

(** The agent never answers: sockets connect, nothing can be read. *)
Definition agent_silent : oracle :=
  fun h R c =>
    match c in call R return R -> R with
    | net_recv _ _ => fun _ => 0
    | _ => fun answer => answer
    end (accept_all h R c).

(** The agent is not ready when the first probe comes: the first
    socket connects but nothing can be read from it; later ones answer. *)
Definition agent_late : oracle :=
  fun h R c =>
    match c in call R return R -> R with
    | net_recv _ _ =>
        fun answer => if (List.length h <=? 1)%nat then 0 else answer
    | _ => fun answer => answer
    end (accept_all h R c).

(** The HTTP endpoint of the direct mode answers with an error. *)
Definition http_down : oracle :=
  fun h R c =>
    match c in call R return R -> R with
    | curl_get _ _ => fun _ => (-1, EmptyString)
    | _ => fun answer => answer
    end (accept_all h R c).

(** The state [server_init] leaves when SDL gives it a mutex and a
    condition variable. *)
Definition initialized : server :=
  mk_server None None 0 PROCESS_NONE None false (Some 1) (Some 2) false
    INVALID_SOCKET INVALID_SOCKET INVALID_SOCKET (mk_port_range 0 0) 0
    false false false.

(** The same once the caller has selected the direct mode. *)
Definition initialized_direct : server :=
  set_addr 0x0A000002
    (set_url (Some "http://10.0.0.2:8080"%string) (set_direct true initialized)).

(** The server of an agent that was started over [adb forward] on port
    27183, process 105, and is not connected yet. *)
Definition started_forward : server :=
  mk_server None None 0 (Process 105) (Some 3) false (Some 1) (Some 2) false
    INVALID_SOCKET INVALID_SOCKET INVALID_SOCKET (mk_port_range 27183 27199)
    27183 true true false.

Definition default_params : server_params :=
  mk_server_params SC_LOG_LEVEL_INFO None None None
    (mk_port_range 27183 27199) 0 8000000 0 (-1) true 0 false false false.

(** Every [net_connect] of [t] is followed at once by an [SDL_Delay]. *)
Definition each_connect_followed_by_delay (t : list event) : Prop :=
  forall pre e post,
    t = pre ++ e :: post ->
    is_net_connect e = true ->
    exists e' post', post = e' :: post' /\ is_SDL_Delay e' = true.

(** ** Two threads: the interleaving semantics *)

Definition thread_body (fn : thread_fn) : prog Z :=
  match fn with
  | RUN_WAIT_SERVER => run_wait_server
  end.

(** The caller of the lifecycle functions, the threads it has created
    (each under the handle [SDL_CreateThread] returned), and what they
    share: the [struct server] and the history of calls. *)
Record config : Type := mk_config {
  memory : server;
  history : list event;
  caller : prog unit;
  threads : list (handle * prog Z)
}.

(** One atomic step of one thread: an access to the shared structure,
    the test-and-set, or a call with any answer. *)
Inductive thread_step {A : Type}
    : server -> prog A -> list event -> server -> prog A -> Prop :=
| step_fetch (m : server) (k : server -> prog A) :
    thread_step m (Fetch k) [] m (k m)
| step_store (m : server) (f : server -> server) (k : prog A) :
    thread_step m (Store f k) [] (f m) k
| step_test_and_set (m : server) (k : bool -> prog A) :
    thread_step m (FlagTestAndSet k) []
      (set_server_socket_closed true m) (k (server_socket_closed m))
| step_ext (m : server) (R : Type) (c : call R) (k : R -> prog A) (r : R) :
    thread_step m (Ext c k) [Ev c r] m (k r).

Definition finished {A : Type} (p : prog A) : Prop :=
  exists a, p = Ret a.

Definition aborted {A : Type} (p : prog A) : Prop :=
  exists msg, p = Abort msg.

(** The thread an [SDL_WaitThread] waits for. *)
Definition joined_thread (e : event) : option handle :=
  match e with
  | Ev c _ => match c with SDL_WaitThread t => t | _ => None end
  end.

(** The thread a successful [SDL_CreateThread] starts. *)
Definition created_thread (e : event) : option (handle * prog Z) :=
  match e with
  | Ev c r =>
      match c in call R return R -> option (handle * prog Z) with
      | SDL_CreateThread fn _ =>
          fun r =>
            match r with
            | Some th => Some (th, thread_body fn)
            | None => None
            end
      | _ => fun _ => None
      end r
  end.

(** [SDL_WaitThread] returns only when the thread has returned. *)
Definition may_return (ts : list (handle * prog Z)) (label : list event) : Prop :=
  forall e th q,
    In e label -> joined_thread e = Some th -> In (th, q) ts -> finished q.

(** A failed [assert] stops the whole process. *)
Definition alive (c : config) : Prop :=
  ~ aborted (caller c) /\ forall th q, In (th, q) (threads c) -> ~ aborted q.

Inductive step : config -> config -> Prop :=
| step_caller (m : server) (h : list event) (p : prog unit)
    (ts : list (handle * prog Z)) (label : list event) (m' : server)
    (p' : prog unit) :
    alive (mk_config m h p ts) ->
    thread_step m p label m' p' ->
    may_return ts label ->
    step (mk_config m h p ts)
         (mk_config m' (h ++ label) p' (ts ++ filter_map created_thread label))
| step_thread (m : server) (h : list event) (p : prog unit)
    (ts1 ts2 : list (handle * prog Z)) (th : handle) (q : prog Z)
    (label : list event) (m' : server) (q' : prog Z) :
    alive (mk_config m h p (ts1 ++ (th, q) :: ts2)) ->
    thread_step m q label m' q' ->
    may_return (ts1 ++ (th, q) :: ts2) label ->
    step (mk_config m h p (ts1 ++ (th, q) :: ts2))
         (mk_config m' (h ++ label) p
            ((ts1 ++ (th, q') :: ts2) ++ filter_map created_thread label)).

(** Any number of steps. *)
Inductive steps : config -> config -> Prop :=
| steps_refl (c : config) : steps c c
| steps_then (c1 c2 c3 : config) : steps c1 c2 -> step c2 c3 -> steps c1 c3.

Definition closes (l : socket_t) (e : event) : bool :=
  match closed_socket e with
  | Some sock => socket_eqb sock l
  | None => false
  end.

(** A [net_listen] returned [l]. *)
Definition listens (l : socket_t) (e : event) : bool :=
  match e with
  | Ev c r =>
      match c in call R return R -> bool with
      | net_listen _ _ _ => fun sock => socket_eqb sock l
      | _ => fun _ => false
      end r
  end.

(** A [net_connect] or a [net_accept] returned [l]. *)
Definition reuses (l : socket_t) (e : event) : bool :=
  match acquired_socket e with
  | Some sock => socket_eqb sock l
  | None => false
  end.

Section Session.

Variables (PREFIX SCRCPY_VERSION : string).

(** What the caller does with a server: it starts it and, when that
    succeeded, connects to it or not and then stops it. *)
Definition session (serial' : option string) (params : server_params)
    (connect : bool) : prog unit :=
  started <- server_start PREFIX SCRCPY_VERSION serial' params;;
  if started then
    when connect (server_connect_to;; Ret tt);;
    server_stop
  else
    Ret tt.

End Session.

(** An executable scheduler: [schedule] tells at each step which thread
    moves, [None] for the caller and [Some th] for a created thread; the
    answers come from [env].  A thread that cannot move leaves the
    configuration as it is. *)
Definition thread_next {A : Type} (env : oracle) (m : server) (h : list event)
    (p : prog A) : option (list event * server * prog A) :=
  match p with
  | Ret _ => None
  | Abort _ => None
  | Diverge => None
  | Fetch k => Some ([], m, k m)
  | Store f k => Some ([], f m, k)
  | FlagTestAndSet k =>
      Some ([], set_server_socket_closed true m, k (server_socket_closed m))
  | Ext c k => Some ([Ev c (env h _ c)], m, k (env h _ c))
  end.

Definition is_finished {A : Type} (p : prog A) : bool :=
  match p with
  | Ret _ => true
  | _ => false
  end.

Definition is_aborted {A : Type} (p : prog A) : bool :=
  match p with
  | Abort _ => true
  | _ => false
  end.

Definition is_alive (c : config) : bool :=
  negb (is_aborted (caller c))
  && forallb (fun t => negb (is_aborted (snd t))) (threads c).

Definition can_return (ts : list (handle * prog Z)) (label : list event) : bool :=
  forallb
    (fun e =>
       match joined_thread e with
       | Some th =>
           forallb (fun t => negb (fst t =? th) || is_finished (snd t)) ts
       | None => true
       end)
    label.

(** The first thread of the list with handle [th] moves. *)
Fixpoint move_thread (env : oracle) (m : server) (h : list event) (th : handle)
    (all ts : list (handle * prog Z))
    : option (list event * server * list (handle * prog Z)) :=
  match ts with
  | [] => None
  | (th', q) :: ts' =>
      if th' =? th then
        match thread_next env m h q with
        | Some (label, m', q') =>
            if can_return all label then Some (label, m', (th', q') :: ts')
            else None
        | None => None
        end
      else
        match move_thread env m h th all ts' with
        | Some (label, m', ts'') => Some (label, m', (th', q) :: ts'')
        | None => None
        end
  end.

Definition schedule_step (env : oracle) (who : option handle) (c : config)
    : config :=
  if is_alive c then
    match who with
    | None =>
        match thread_next env (memory c) (history c) (caller c) with
        | Some (label, m', p') =>
            if can_return (threads c) label then
              mk_config m' (history c ++ label) p'
                (threads c ++ filter_map created_thread label)
            else c
        | None => c
        end
    | Some th =>
        match move_thread env (memory c) (history c) th (threads c) (threads c) with
        | Some (label, m', ts') =>
            mk_config m' (history c ++ label) (caller c)
              (ts' ++ filter_map created_thread label)
        | None => c
        end
    end
  else c.

Fixpoint schedule_run (env : oracle) (schedule : list (option handle))
    (c : config) : config :=
  match schedule with
  | [] => c
  | who :: schedule' => schedule_run env schedule' (schedule_step env who c)
  end.

(** ** The close authority over the listening socket

    A discipline for the two threads, checked thread by thread: the
    right to close the listening socket goes to the thread that finds
    the flag clear in the test-and-set, and is spent by the one
    [net_close] that follows.  [l] is the socket under watch. *)

Inductive thread_state : Type :=
| NotCreated
| Running (th : handle)
| Joined.

(** What the caller keeps track of. *)
Record ghost : Type := mk_ghost {
  g_sock : socket_t;          (* the value of [server_socket] *)
  g_handle : option handle;   (* the value of [wait_server_thread] *)
  g_forward : bool;           (* the value of [tunnel_forward] *)
  g_own : bool;               (* won the test-and-set, close still due *)
  g_flag : bool;              (* has done a test-and-set: the flag is set *)
  g_thread : thread_state;
  g_opened : bool             (* a [net_listen] returned [l] *)
}.

Definition with_fields (sock : socket_t) (th : option handle) (forward : bool)
    (g : ghost) : ghost :=
  mk_ghost sock th forward (g_own g) (g_flag g) (g_thread g) (g_opened g).

Definition with_own (own : bool) (g : ghost) : ghost :=
  mk_ghost (g_sock g) (g_handle g) (g_forward g) own (g_flag g) (g_thread g) (g_opened g).

Definition with_thread (t : thread_state) (g : ghost) : ghost :=
  mk_ghost (g_sock g) (g_handle g) (g_forward g) (g_own g) (g_flag g) t (g_opened g).

Definition with_opened (opened : bool) (g : ghost) : ghost :=
  mk_ghost (g_sock g) (g_handle g) (g_forward g) (g_own g) (g_flag g) (g_thread g) opened.

(** After a test-and-set that returned [old]. *)
Definition after_test_and_set (old : bool) (g : ghost) : ghost :=
  mk_ghost (g_sock g) (g_handle g) (g_forward g) (g_own g || negb old) true
    (g_thread g) (g_opened g).

(** A store of the created thread leaves alone what the caller relies
    on, and the flag. *)
Definition keeps_caller_fields (f : server -> server) : Prop :=
  forall m,
    server_socket (f m) = server_socket m
    /\ video_socket (f m) = video_socket m
    /\ control_socket (f m) = control_socket m
    /\ wait_server_thread (f m) = wait_server_thread m
    /\ tunnel_forward (f m) = tunnel_forward m
    /\ server_socket_closed (f m) = server_socket_closed m.

(** Calls that touch neither a socket nor a thread. *)
Definition quiet_call {R : Type} (c : call R) : Prop :=
  match c with
  | net_listen _ _ _ => False
  | net_connect _ _ => False
  | net_accept _ => False
  | net_close _ => False
  | SDL_CreateThread _ _ => False
  | SDL_WaitThread _ => False
  | _ => True
  end.

(** Programs that leave alone all the discipline is about. *)
Fixpoint quiet {A : Type} (p : prog A) : Prop :=
  match p with
  | Ret _ => True
  | Abort _ => True
  | Diverge => True
  | Fetch k => forall m, quiet (k m)
  | Store f k => keeps_caller_fields f /\ quiet k
  | FlagTestAndSet _ => False
  | Ext c k => quiet_call c /\ forall r, quiet (k r)
  end.

Section CloseAuthority.

Variable l : socket_t.

(** What the caller knows of the shared structure. *)
Definition caller_view (g : ghost) (m : server) : Prop :=
  server_socket m = g_sock g
  /\ wait_server_thread m = g_handle g
  /\ tunnel_forward m = g_forward g
  /\ video_socket m <> l
  /\ control_socket m <> l.

(** The calls of the created thread: it closes the server socket when
    it holds the authority and nothing that could be [l] otherwise; it
    opens no socket and handles no thread. *)
Definition thread_call_ok (lsock : socket_t) (own : bool) {R : Type}
    (c : call R) : Prop :=
  match c with
  | net_close sock => if own then sock = lsock else sock <> l
  | net_listen _ _ _ => False
  | net_accept _ => False
  | net_connect _ _ => False
  | SDL_CreateThread _ _ => False
  | SDL_WaitThread _ => False
  | _ => True
  end.

Definition own_after {R : Type} (own : bool) (c : call R) : bool :=
  match c with
  | net_close _ => false
  | _ => own
  end.

Fixpoint thread_safe (lsock : socket_t) (q : prog Z) (own : bool) : Prop :=
  match q with
  | Ret _ => own = false
  | Abort _ => True
  | Diverge => True
  | Fetch k => forall m, server_socket m = lsock -> thread_safe lsock (k m) own
  | Store f k => keeps_caller_fields f /\ thread_safe lsock k own
  | FlagTestAndSet k => forall old, thread_safe lsock (k old) (own || negb old)
  | Ext c k =>
      thread_call_ok lsock own c
      /\ forall r, thread_safe lsock (k r) (own_after own c)
  end.

(** The calls of the caller. *)
Definition caller_call_ok (g : ghost) {R : Type} (c : call R) : Prop :=
  match c with
  | net_close sock => if g_own g then sock = g_sock g else sock <> l
  | SDL_CreateThread fn _ =>
      g_thread g = NotCreated /\ thread_safe (g_sock g) (thread_body fn) false
  | SDL_WaitThread t => forall th, g_thread g = Running th -> t = Some th
  | _ => True
  end.

(** A new descriptor is not one that is already open. *)
Definition answer_ok {R : Type} (c : call R) : R -> Prop :=
  match c in call R return R -> Prop with
  | net_accept _ => fun sock => sock <> l
  | net_connect _ _ => fun sock => sock <> l
  | _ => fun _ => True
  end.

Definition caller_after (g : ghost) {R : Type} (c : call R) : R -> ghost :=
  match c in call R return R -> ghost with
  | net_close _ => fun _ => with_own false g
  | net_listen _ _ _ => fun sock => with_opened (g_opened g || socket_eqb sock l) g
  | SDL_CreateThread _ _ =>
      fun r =>
        match r with
        | Some th => with_thread (Running th) g
        | None => g
        end
  | SDL_WaitThread _ =>
      fun _ =>
        match g_thread g with
        | Running _ => with_thread Joined g
        | _ => g
        end
  | _ => fun _ => g
  end.

(** A store of the caller: it leaves the flag alone; it changes
    [server_socket] only before the thread exists, never once it is [l],
    and to [l] only while the flag is still clear. *)
Definition store_ok (g : ghost) (f : server -> server) (sock : socket_t)
    (th : option handle) (forward : bool) : Prop :=
  (forall m, caller_view g m -> caller_view (with_fields sock th forward g) (f m))
  /\ (forall m, server_socket_closed (f m) = server_socket_closed m)
  /\ (sock <> g_sock g ->
      g_thread g = NotCreated /\ g_sock g <> l /\ (sock = l -> g_flag g = false)).

Fixpoint caller_safe {A : Type} (p : prog A) (g : ghost)
    (post : A -> ghost -> Prop) : Prop :=
  match p with
  | Ret a => post a g
  | Abort _ => True
  | Diverge => True
  | Fetch k => forall m, caller_view g m -> caller_safe (k m) g post
  | Store f k =>
      exists sock th forward,
        store_ok g f sock th forward
        /\ caller_safe k (with_fields sock th forward g) post
  | FlagTestAndSet k =>
      forall old, caller_safe (k old) (after_test_and_set old g) post
  | Ext c k =>
      caller_call_ok g c
      /\ forall r, answer_ok c r -> caller_safe (k r) (caller_after g c r) post
  end.

(** Where the caller must stand when it is done: if [l] was opened, it
    is the server socket, the flag is set, no close is due and no
    thread is left running. *)
Definition settled (g : ghost) : Prop :=
  g_opened g = true ->
  g_sock g = l /\ g_flag g = true /\ g_own g = false
  /\ forall th, g_thread g <> Running th.

(** The created threads and the authority they hold. *)
Inductive threads_ok (g : ghost) : list (handle * prog Z) -> bool -> Prop :=
| threads_none :
    g_thread g = NotCreated -> threads_ok g [] false
| threads_running (th : handle) (q : prog Z) (own : bool) :
    g_thread g = Running th ->
    thread_safe (g_sock g) q own ->
    threads_ok g [(th, q)] own
| threads_joined (th : handle) (a : Z) :
    g_thread g = Joined -> threads_ok g [(th, Ret a)] false.

(** The invariant of the interleaved executions. *)
Definition close_once (c : config) : Prop :=
  exists g own,
    caller_safe (caller c) g (fun _ g' => settled g')
    /\ caller_view g (memory c)
    /\ threads_ok g (threads c) own
    /\ count_events (closes l) (history c) + Z.b2z (g_own g) + Z.b2z own
       <= Z.b2z (server_socket_closed (memory c))
    /\ (g_sock g = l ->
        count_events (closes l) (history c) + Z.b2z (g_own g) + Z.b2z own
        = Z.b2z (server_socket_closed (memory c)))
    /\ (g_flag g = true -> server_socket_closed (memory c) = true)
    /\ (g_flag g = false -> g_thread g = NotCreated ->
        server_socket_closed (memory c) = false)
    /\ (existsb (listens l) (history c) = true -> g_opened g = true).

End CloseAuthority.

(** A session in the reverse mode where every call succeeds: the caller
    starts the server, accepts the two sockets and goes into
    [server_stop] until it waits for the thread; the thread then runs to
    its end; the caller finishes. *)
Definition reverse_session : config :=
  schedule_run accept_all
    (repeat None 120 ++ repeat (Some 3) 40 ++ repeat None 120)
    (mk_config initialized []
       (session "/usr/local" "1.17" None default_params true) []).

(** ** Postconditions of the sequential semantics *)

(** [ensures p Q s t]: whatever the collaborators answer, [p], started
    in state [s] when the calls [t] have been made, returns, and its
    result, the state and the calls made by then satisfy [Q]; no
    assertion fails and no loop runs out of fuel. *)
Fixpoint ensures {A : Type} (p : prog A)
    (Q : A -> server -> list event -> Prop) (s : server) (t : list event)
    : Prop :=
  match p with
  | Ret a => Q a s t
  | Abort _ => False
  | Diverge => False
  | Fetch k => ensures (k s) Q s t
  | Store f k => ensures k Q (f s) t
  | FlagTestAndSet k =>
      ensures (k (server_socket_closed s)) Q (set_server_socket_closed true s) t
  | Ext c k => forall r, ensures (k r) Q s (t ++ [Ev c r])
  end.

(** ** More readers of a history *)

(** An [SDL_strdup] that returned a copy. *)
Definition allocated (e : event) : bool :=
  match e with
  | Ev c r =>
      match c in call R return R -> bool with
      | SDL_strdup _ => fun copy => match copy with Some _ => true | None => false end
      | _ => fun _ => false
      end r
  end.

(** An [SDL_free] of a pointer that is not [NULL]. *)
Definition released (e : event) : bool :=
  match e with
  | Ev c _ =>
      match c with
      | SDL_free (Some _) => true
      | _ => false
      end
  end.

Definition is_adb_push (e : event) : bool :=
  match e with
  | Ev c _ => match c with adb_push _ _ _ => true | _ => false end
  end.

Definition is_cmd_terminate (e : event) : bool :=
  match e with
  | Ev c _ => match c with cmd_terminate _ => true | _ => false end
  end.

Definition is_cond_wait_timeout (e : event) : bool :=
  match e with
  | Ev c _ => match c with cond_wait_timeout _ _ _ => true | _ => false end
  end.

(** A [cond_wait_timeout] that returned [SDL_MUTEX_TIMEDOUT]. *)
Definition timed_out (e : event) : bool :=
  match e with
  | Ev c r =>
      match c in call R return R -> bool with
      | cond_wait_timeout _ _ _ => fun code => code =? SDL_MUTEX_TIMEDOUT
      | _ => fun _ => false
      end r
  end.

(** An [adb forward --remove] or an [adb reverse --remove]. *)
Definition is_tunnel_removal (e : event) : bool :=
  match e with
  | Ev c _ =>
      match c with
      | adb_forward_remove _ _ => true
      | adb_reverse_remove _ _ => true
      | _ => false
      end
  end.

Definition is_curl_get (e : event) : bool :=
  match e with
  | Ev c _ => match c with curl_get _ _ => true | _ => false end
  end.

(** The valid socket a [net_listen] returned. *)
Definition listening_socket (e : event) : option socket_t :=
  match e with
  | Ev c r =>
      match c in call R return R -> option socket_t with
      | net_listen _ _ _ => fun sock => if is_valid_socket sock then Some sock else None
      | _ => fun _ => None
      end r
  end.

(** [if (cond) then [x] else []]. *)
Definition only_if {A : Type} (cond : bool) (x : A) : list A :=
  if cond then [x] else [].

(** An [adb reverse] or an [adb forward] that [process_check_success]
    reported as done: a tunnel exists on the device. *)
Definition established (e : event) : bool :=
  match e with
  | Ev c r =>
      match c in call R return R -> bool with
      | process_check_success _ name =>
          fun ok => ok && (String.eqb name "adb reverse"
                           || String.eqb name "adb forward")
      | _ => fun _ => false
      end r
  end.

(** What [server_stop] has done when it returns, from state [s]. *)
Definition server_stop_post (s s' : server) (t : list event) : Prop :=
  s' = (if is_valid_socket (server_socket s)
        then set_server_socket_closed true s else s)
  /\ (exists pre, t = pre ++ [Ev (SDL_WaitThread (wait_server_thread s)) tt])
  /\ filter_map closed_socket t
     = only_if (is_valid_socket (server_socket s)
                && negb (server_socket_closed s)) (server_socket s)
       ++ only_if (is_valid_socket (video_socket s)) (video_socket s)
       ++ only_if (is_valid_socket (control_socket s)) (control_socket s)
  /\ count_events is_cmd_terminate t = count_events timed_out t
  /\ count_events is_cond_wait_timeout t
     = Z.b2z (negb (process_terminated s))
  /\ count_events is_tunnel_removal t
     = Z.b2z (tunnel_enabled s && negb (direct s))
  /\ count_events is_curl_get t = Z.b2z (direct s)
  /\ filter_map listening_socket t = []
  /\ filter_map acquired_socket t = []
  /\ count_events established t = 0.


(** The server of an agent that was started over [adb reverse] on port
    27183, process 105, and connected: the listener, descriptor 12, is
    closed, the video socket is 15 and the control socket 16. *)
Definition connected_reverse : server :=
  mk_server None None 0 (Process 105) (Some 3) true (Some 1) (Some 2) false
    (Socket 12) (Socket 15) (Socket 16) (mk_port_range 27183 27199) 27183
    true false false.

(** The file an [adb push] was asked to send. *)
Definition pushed_file (e : event) : option string :=
  match e with
  | Ev c _ => match c with adb_push _ file _ => Some file | _ => None end
  end.

(** The file [is_regular_file] accepted. *)
Definition regular_file (e : event) : option string :=
  match e with
  | Ev c r =>
      match c in call R return R -> option string with
      | is_regular_file file => fun regular => if regular then Some file else None
      | _ => fun _ => None
      end r
  end.

(** Where an [adb push] was asked to put the file. *)
Definition push_destination (e : event) : option string :=
  match e with
  | Ev c _ => match c with adb_push _ _ to => Some to | _ => None end
  end.

(** What an [adb_execute] that starts the agent says of the tunnel:
    the argument that follows the orientation lock in the command line
    of [execute_server_adb]. *)
Definition agent_tunnel_flag (e : event) : option string :=
  match e with
  | Ev c _ =>
      match c with
      | adb_execute _ cmd => Some (nth 11 cmd EmptyString)
      | _ => None
      end
  end.

(** What a sweep over the ports leaves, for the resources of the
    session: no socket closed, no memory taken or given back, the
    listener that is open, a tunnel more than were removed when the
    sweep succeeded, and no agent started. *)
Definition sweep_resources (t : list event) (b : bool) (listener : list socket_t)
    : Prop :=
  filter_map closed_socket t = []
  /\ count_events allocated t = 0
  /\ count_events released t = 0
  /\ filter_map listening_socket t = listener
  /\ count_events established t = count_events is_tunnel_removal t + Z.b2z b
  /\ filter_map agent_tunnel_flag t = []
  /\ filter_map acquired_socket t = [].

(** [emits P p]: every call [p] can make satisfies [P], whatever the
    state is and whatever the collaborators answer. *)
Fixpoint emits {A : Type} (P : event -> bool) (p : prog A) : Prop :=
  match p with
  | Ret _ => True
  | Abort _ => True
  | Diverge => True
  | Fetch k => forall s, emits P (k s)
  | Store _ k => emits P k
  | FlagTestAndSet k => forall b, emits P (k b)
  | Ext c k => forall r, P (Ev c r) = true /\ emits P (k r)
  end.

(** The calls of a readiness probe and of the sleep between two. *)
Definition is_probe_call (e : event) : bool :=
  match e with
  | Ev c _ =>
      match c with
      | net_connect _ _ => true
      | net_recv _ _ => true
      | net_close _ => true
      | SDL_Delay _ => true
      | _ => false
      end
  end.

(** [default_params] with [--force-adb-forward]. *)
Definition forward_params : server_params :=
  mk_server_params SC_LOG_LEVEL_INFO None None None
    (mk_port_range 27183 27199) 0 8000000 0 (-1) true 0 false false true.

(** ** The account of the sockets *)

(** How many sockets the calls of [t] obtained: the listeners and the
    sockets connected or accepted. *)
Definition sockets_opened (t : list event) : Z :=
  Z.of_nat (List.length (filter_map listening_socket t))
  + Z.of_nat (List.length (filter_map acquired_socket t)).

(** How many times the calls of [t] closed a socket. *)
Definition sockets_closed (t : list event) : Z :=
  Z.of_nat (List.length (filter_map closed_socket t)).

(** How many sockets a server holds that are still to be closed: the
    server socket while the flag is clear, the video socket and the
    control socket. *)
Definition held (s : server) : Z :=
  Z.b2z (is_valid_socket (server_socket s) && negb (server_socket_closed s))
  + Z.b2z (is_valid_socket (video_socket s))
  + Z.b2z (is_valid_socket (control_socket s)).

(** ** One thread, step by step *)

(** What a thread does in one atomic step: it reads the shared
    structure, writes it, tests and sets the flag, or makes a call. *)
Inductive action : Type :=
| Read
| Wrote (f : server -> server)
| TestedAndSet
| Called (e : event).

(** [thread_trace p0 a p]: started as [p0], a thread can have done the
    steps [a] and be left with [p] to run.  What it reads and what it is
    answered is arbitrary: the other thread may run between any two
    steps. *)
Inductive thread_trace {A : Type} (p0 : prog A) : list action -> prog A -> Prop :=
| trace_start : thread_trace p0 [] p0
| trace_fetch (a : list action) (k : server -> prog A) (m : server) :
    thread_trace p0 a (Fetch k) -> thread_trace p0 (a ++ [Read]) (k m)
| trace_store (a : list action) (f : server -> server) (k : prog A) :
    thread_trace p0 a (Store f k) -> thread_trace p0 (a ++ [Wrote f]) k
| trace_test_and_set (a : list action) (k : bool -> prog A) (old : bool) :
    thread_trace p0 a (FlagTestAndSet k) ->
    thread_trace p0 (a ++ [TestedAndSet]) (k old)
| trace_ext (a : list action) (R : Type) (c : call R) (k : R -> prog A) (r : R) :
    thread_trace p0 a (Ext c k) -> thread_trace p0 (a ++ [Called (Ev c r)]) (k r).

(** [always P p a]: [P] holds of [a] and of every sequence of steps
    that extends [a] by steps of [p]. *)
Fixpoint always {A : Type} (P : list action -> Prop) (p : prog A)
    (a : list action) : Prop :=
  P a
  /\ match p with
     | Fetch k => forall m, always P (k m) (a ++ [Read])
     | Store f k => always P k (a ++ [Wrote f])
     | FlagTestAndSet k => forall old, always P (k old) (a ++ [TestedAndSet])
     | Ext c k => forall r, always P (k r) (a ++ [Called (Ev c r)])
     | _ => True
     end.

(** Where a thread stands with respect to the mutex and to the end of
    the process it reports. *)
Inductive lock_stage : Type :=
| Outside
| Holding
| Written
| Signalled
| Released.

(** The steps [a], made from stage [st], keep the discipline of the
    mutex: the lock is taken once, from outside; the only write is the
    one that sets [process_terminated], made while the lock is held and
    before the signal; the signal comes after that write and before the
    unlock; the unlock comes after the signal. *)
Fixpoint lock_discipline (st : lock_stage) (a : list action) : Prop :=
  match a with
  | [] => True
  | Wrote f :: a' =>
      st = Holding
      /\ (forall m, f m = set_process_terminated true m)
      /\ lock_discipline Written a'
  | Called (Ev c _) :: a' =>
      match c with
      | mutex_lock _ => st = Outside /\ lock_discipline Holding a'
      | cond_signal _ => st = Written /\ lock_discipline Signalled a'
      | mutex_unlock _ => st = Signalled /\ lock_discipline Released a'
      | _ => lock_discipline st a'
      end
  | _ :: a' => lock_discipline st a'
  end.

(** The step of the interleaving semantics as an action. *)
Definition step_action {A : Type} (p : prog A) (label : list event) : action :=
  match p, label with
  | Store f _, _ => Wrote f
  | FlagTestAndSet _, _ => TestedAndSet
  | Ext _ _, e :: _ => Called e
  | _, _ => Read
  end.

(** ** The sequential semantics: general facts *)

Lemma run_bind {A B : Type} (env : oracle) (p : prog A) (f : A -> prog B) :
  forall s h,
    run env (bind p f) s h =
    match run env p s h with
    | (Done a, s', h') => run env (f a) s' h'
    | (Aborted msg, s', h') => (Aborted msg, s', h')
    | (OutOfFuel, s', h') => (OutOfFuel, s', h')
    end.
Proof.
  induction p as [a|msg| |k IH|g k IH|k IH|R c k IH]; intros s h; simpl;
    auto.
Qed.

Lemma run_put_bind {B : Type} (env : oracle) (f : server -> server)
    (p : prog B) (s : server) (h : list event) :
  run env (put f;; p) s h = run env p (f s) h.
Proof.
  reflexivity.
Qed.

Lemma run_get_bind {T B : Type} (env : oracle) (proj : server -> T)
    (k : T -> prog B) (s : server) (h : list event) :
  run env (x <- get proj;; k x) s h = run env (k (proj s)) s h.
Proof.
  reflexivity.
Qed.

Lemma run_ext_bind {R B : Type} (env : oracle) (c : call R)
    (k : R -> prog B) (s : server) (h : list event) :
  run env (x <- ext c;; k x) s h
  = run env (k (env h _ c)) s (h ++ [Ev c (env h _ c)]).
Proof.
  reflexivity.
Qed.

(** Run the accesses to the state and the calls at the head of a
    program; the loops stay folded. *)
Ltac run_head :=
  cbn [run bind get put ext when assert atomic_flag_test_and_set negb
       serial url addr process wait_server_thread server_socket_closed mutex
       process_terminated_cond process_terminated server_socket video_socket
       control_socket port_range local_port tunnel_enabled tunnel_forward direct
       set_serial set_url set_addr set_process set_wait_server_thread
       set_server_socket_closed set_mutex set_process_terminated_cond
       set_process_terminated set_server_socket set_video_socket
       set_control_socket set_port_range set_local_port set_tunnel_enabled
       set_tunnel_forward set_direct].

Ltac run_head_in H :=
  cbn [run bind get put ext when assert atomic_flag_test_and_set negb
       serial url addr process wait_server_thread server_socket_closed mutex
       process_terminated_cond process_terminated server_socket video_socket
       control_socket port_range local_port tunnel_enabled tunnel_forward direct
       set_serial set_url set_addr set_process set_wait_server_thread
       set_server_socket_closed set_mutex set_process_terminated_cond
       set_process_terminated set_server_socket set_video_socket
       set_control_socket set_port_range set_local_port set_tunnel_enabled
       set_tunnel_forward set_direct] in H.

(** A run only ever appends to the history. *)
Lemma run_extends {A : Type} (env : oracle) (p : prog A) :
  forall s h, exists t, snd (run env p s h) = h ++ t.
Proof.
  induction p as [a|msg| |k IH|g k IH|k IH|R c k IH]; intros s h; simpl;
    try (exists []; now rewrite app_nil_r); auto.
  destruct (IH (env h R c) s (h ++ [Ev c (env h R c)])) as [t Ht].
  exists (Ev c (env h R c) :: t). now rewrite Ht, <- app_assoc.
Qed.

Lemma is_valid_socket_true (sock : socket_t) :
  is_valid_socket sock = true <-> sock <> INVALID_SOCKET.
Proof.
  unfold is_valid_socket. destruct sock; simpl; split; intros H; congruence.
Qed.

Lemma is_valid_socket_false (sock : socket_t) :
  is_valid_socket sock = false <-> sock = INVALID_SOCKET.
Proof.
  unfold is_valid_socket. destruct sock; simpl; split; intros H; congruence.
Qed.

Lemma socket_eqb_refl (sock : socket_t) : socket_eqb sock sock = true.
Proof.
  destruct sock; simpl; auto using Z.eqb_refl.
Qed.

Lemma socket_eqb_eq (a b : socket_t) : socket_eqb a b = true <-> a = b.
Proof.
  destruct a, b; simpl; split; intros H; try congruence.
  - apply Z.eqb_eq in H. now subst.
  - injection H as ->. apply Z.eqb_refl.
Qed.

Lemma count_events_app (p : event -> bool) (t u : list event) :
  count_events p (t ++ u) = count_events p t + count_events p u.
Proof.
  unfold count_events. rewrite filter_app, length_app. lia.
Qed.

Lemma filter_map_app {A B : Type} (f : A -> option B) (l m : list A) :
  filter_map f (l ++ m) = filter_map f l ++ filter_map f m.
Proof.
  induction l as [|x l IH]; simpl; auto.
  destruct (f x); simpl; now rewrite IH.
Qed.

(** ** connect_and_read_byte *)

(** The run of one probe, by the answers of the two calls. *)
Lemma run_connect_and_read_byte (env : oracle) (addr' port : Z) (s : server)
    (h : list event) :
  let sock := env h _ (net_connect addr' port) in
  let h1 := h ++ [Ev (net_connect addr' port) sock] in
  let n := env h1 _ (net_recv sock 1) in
  let h2 := h1 ++ [Ev (net_recv sock 1) n] in
  run env (connect_and_read_byte addr' port) s h =
    (if is_valid_socket sock then
       if n =? 1 then (Done sock, s, h2)
       else (Done INVALID_SOCKET, s,
             h2 ++ [Ev (net_close sock) (env h2 _ (net_close sock))])
     else (Done INVALID_SOCKET, s, h1)).
Proof.
  intros sock h1 n h2.
  unfold connect_and_read_byte. simpl. fold sock. fold h1.
  destruct (is_valid_socket sock) eqn:Hvalid; simpl; auto.
  fold n. fold h2. destruct (n =? 1); simpl; auto.
Qed.

(** C8.  [connect_and_read_byte] connects and then reads exactly one
    byte.  When the connect fails it returns [INVALID_SOCKET] after that
    single call; when the one-byte read returns anything but 1 it closes
    the socket and returns [INVALID_SOCKET]; otherwise it returns the
    socket, and of a stream [b :: rest] sent by the peer only [rest] is
    left for later readers of the socket: the readiness byte is gone. *)
Theorem connect_and_read_byte_probe :
  forall (env : oracle) (addr' port : Z) (s : server) (h : list event),
    let sock := env h _ (net_connect addr' port) in
    let h1 := h ++ [Ev (net_connect addr' port) sock] in
    let n := env h1 _ (net_recv sock 1) in
    let h2 := h1 ++ [Ev (net_recv sock 1) n] in
    run env (connect_and_read_byte addr' port) s h =
      (if is_valid_socket sock then
         if n =? 1 then (Done sock, s, h2)
         else (Done INVALID_SOCKET, s,
               h2 ++ [Ev (net_close sock) (env h2 _ (net_close sock))])
       else (Done INVALID_SOCKET, s, h1))
    /\ forall (A : Type) (b : A) (rest : list A),
         unread (b :: rest) sock
           [Ev (net_connect addr' port) sock; Ev (net_recv sock 1) 1] = rest.
Proof.
  intros env addr' port s h sock h1 n h2. split.
  - apply run_connect_and_read_byte.
  - intros A b rest. unfold unread, bytes_taken. simpl.
    now rewrite socket_eqb_refl.
Qed.

(** ** connect_to_server *)

Lemma discarded_nil : discarded [].
Proof.
  intros sock [].
Qed.

Lemma discarded_app (t u : list event) :
  discarded t -> discarded u -> discarded (t ++ u).
Proof.
  unfold discarded. intros Ht Hu sock. rewrite !filter_map_app, !in_app_iff.
  intros [H|H]; auto.
Qed.

Lemma uint32_pred (attempts : Z) :
  1 <= attempts < UINT32_MODULUS ->
  (attempts - 1) mod UINT32_MODULUS = attempts - 1.
Proof.
  intros H. apply Z.mod_small. lia.
Qed.

Lemma uint32_pred_zero : (0 - 1) mod UINT32_MODULUS = UINT32_MODULUS - 1.
Proof.
  reflexivity.
Qed.

(** A probe that fails leaves the state alone, calls [net_connect] once,
    never sleeps, and keeps no socket. *)
Lemma failed_probe (env : oracle) (addr' port : Z) (s : server) (h : list event) :
  probe_ok env addr' port h = false ->
  exists t,
    run env (connect_and_read_byte addr' port) s h
      = (Done INVALID_SOCKET, s, h ++ Ev (net_connect addr' port)
                                        (env h _ (net_connect addr' port)) :: t)
    /\ count_events is_net_connect t = 0
    /\ count_events is_SDL_Delay t = 0
    /\ Forall (fun e => is_net_accept e = false) t
    /\ discarded (Ev (net_connect addr' port) (env h _ (net_connect addr' port)) :: t).
Proof.
  intros Hfail.
  pose proof (run_connect_and_read_byte env addr' port s h) as Hrun.
  cbv zeta in Hrun. unfold probe_ok in Hfail. rewrite Hrun. clear Hrun.
  set (sock := env h _ (net_connect addr' port)) in *.
  destruct (is_valid_socket sock) eqn:Hvalid; simpl in Hfail.
  - rewrite Hfail. eexists. split.
    + repeat rewrite <- app_assoc. simpl. reflexivity.
    + repeat split; auto.
      intros x. simpl. rewrite Hvalid. simpl. tauto.
  - exists []. repeat split; auto.
    intros x. simpl. rewrite Hvalid. auto.
Qed.

(** A probe that succeeds returns its socket after one [net_connect]
    and one [net_recv] that returned 1. *)
Lemma successful_probe (env : oracle) (addr' port : Z) (s : server) (h : list event) :
  probe_ok env addr' port h = true ->
  exists sock,
    is_valid_socket sock = true
    /\ run env (connect_and_read_byte addr' port) s h
         = (Done sock, s,
            h ++ [Ev (net_connect addr' port) sock; Ev (net_recv sock 1) 1]).
Proof.
  intros Hok.
  pose proof (run_connect_and_read_byte env addr' port s h) as Hrun.
  cbv zeta in Hrun. unfold probe_ok in Hok. rewrite Hrun. clear Hrun.
  set (sock := env h _ (net_connect addr' port)) in *.
  apply andb_prop in Hok. destruct Hok as [Hvalid Hone].
  exists sock. rewrite Hvalid, Hone. split; auto.
  apply Z.eqb_eq in Hone. rewrite Hone, <- app_assoc. reflexivity.
Qed.

Lemma unit_is_tt (u : unit) : u = tt.
Proof.
  now destruct u.
Qed.

(** The loop when every probe fails and at least one attempt is left:
    [attempts] probes, and a sleep after each of them, the last probe
    included. *)
Lemma connect_to_server_loop_refused (env : oracle) (addr' port delay : Z) :
  (forall h, probe_ok env addr' port h = false) ->
  forall (fuel : nat) (attempts : Z) (s : server) (h : list event),
    1 <= attempts < UINT32_MODULUS ->
    attempts <= Z.of_nat fuel ->
    exists t,
      run env (connect_to_server_loop fuel addr' port attempts delay) s h
        = (Done INVALID_SOCKET, s, h ++ t ++ [Ev (SDL_Delay delay) tt])
      /\ count_events is_net_connect (t ++ [Ev (SDL_Delay delay) tt]) = attempts
      /\ count_events is_SDL_Delay (t ++ [Ev (SDL_Delay delay) tt]) = attempts.
Proof.
  intros Hrefused fuel.
  induction fuel as [|fuel IH]; intros attempts s h Hrange Hfuel; [lia|].
  destruct (failed_probe env addr' port s h (Hrefused h))
    as (tp & Hprobe & Hconnects & Hdelays & _).
  cbn [connect_to_server_loop]. rewrite run_bind, Hprobe.
  cbn [is_valid_socket socket_eqb negb].
  assert (Hnz : (attempts =? 0) = false) by (apply Z.eqb_neq; lia).
  rewrite Hnz. cbn [negb when]. rewrite run_bind. cbn [ext run].
  rewrite uint32_pred by assumption.
  set (probe := Ev (net_connect addr' port) (env h _ (net_connect addr' port))) in *.
  set (h1 := (h ++ probe :: tp) ++ _).
  assert (Hh1 : h1 = h ++ (probe :: tp) ++ [Ev (SDL_Delay delay) tt]).
  { unfold h1. rewrite (unit_is_tt (env _ unit _)), <- app_assoc. reflexivity. }
  clearbody h1. subst h1.
  assert (Hone : count_events is_net_connect (probe :: tp) = 1).
  { change (probe :: tp) with ([probe] ++ tp).
    rewrite count_events_app, Hconnects. reflexivity. }
  assert (Hnone : count_events is_SDL_Delay (probe :: tp) = 0).
  { change (probe :: tp) with ([probe] ++ tp).
    rewrite count_events_app, Hdelays. reflexivity. }
  destruct (attempts - 1 >? 0) eqn:Hmore.
  - apply Z.gtb_lt in Hmore.
    destruct (IH (attempts - 1) s (h ++ (probe :: tp) ++ [Ev (SDL_Delay delay) tt]))
      as (t & Hrun & Hc & Hd); [lia|lia|].
    exists (((probe :: tp) ++ [Ev (SDL_Delay delay) tt]) ++ t).
    rewrite Hrun, <- !app_assoc. split; [reflexivity|].
    rewrite !app_assoc, <- (app_assoc _ t), !(count_events_app _ (_ ++ _) (t ++ _)).
    rewrite Hc, Hd, !count_events_app, Hone, Hnone.
    change (count_events is_net_connect [Ev (SDL_Delay delay) tt]) with 0.
    change (count_events is_SDL_Delay [Ev (SDL_Delay delay) tt]) with 1.
    split; lia.
  - assert (attempts = 1) by (rewrite Z.gtb_ltb in Hmore; apply Z.ltb_ge in Hmore; lia).
    exists (probe :: tp). cbn [run]. split; [reflexivity|].
    rewrite !count_events_app, Hone, Hnone.
    change (count_events is_net_connect [Ev (SDL_Delay delay) tt]) with 0.
    change (count_events is_SDL_Delay [Ev (SDL_Delay delay) tt]) with 1.
    split; lia.
Qed.

Lemma connect_to_server_loop_unfold (fuel : nat) (addr' port attempts delay : Z) :
  connect_to_server_loop (S fuel) addr' port attempts delay =
  (socket <- connect_and_read_byte addr' port;;
   if is_valid_socket socket then
     Ret socket
   else
     when (negb (attempts =? 0)) (ext (SDL_Delay delay));;
     if (attempts - 1) mod UINT32_MODULUS >? 0 then
       connect_to_server_loop fuel addr' port
         ((attempts - 1) mod UINT32_MODULUS) delay
     else
       Ret INVALID_SOCKET).
Proof.
  reflexivity.
Qed.

(** Called with [attempts = 0] when every probe fails: the first probe
    is followed at once by the second one, and the loop goes on for the
    2^32 - 1 attempts the wrapped counter allows. *)
Lemma connect_to_server_zero_refused (env : oracle) (addr' port delay : Z)
    (s : server) (h : list event) :
  (forall h', probe_ok env addr' port h' = false) ->
  exists first_probe next rest,
    run env (connect_to_server addr' port 0 delay) s h
      = (Done INVALID_SOCKET, s, h ++ first_probe ++ next :: rest)
    /\ (exists sock tp, first_probe = Ev (net_connect addr' port) sock :: tp)
    /\ count_events is_net_connect first_probe = 1
    /\ count_events is_SDL_Delay first_probe = 0
    /\ is_net_connect next = true
    /\ count_events is_net_connect (first_probe ++ next :: rest) = UINT32_MODULUS
    /\ count_events is_SDL_Delay (first_probe ++ next :: rest) = UINT32_MODULUS - 1.
Proof.
  intros Hrefused. unfold connect_to_server.
  change (connect_iterations 0) with UINT32_MODULUS.
  assert (Hfuel : Z.to_nat UINT32_MODULUS = S (Z.to_nat (UINT32_MODULUS - 1))).
  { change UINT32_MODULUS with 4294967296. lia. }
  rewrite Hfuel, connect_to_server_loop_unfold, run_bind.
  destruct (failed_probe env addr' port s h (Hrefused h))
    as (tp & Hprobe & Hconnects & Hdelays & _).
  rewrite Hprobe. cbn [is_valid_socket socket_eqb negb Z.eqb when bind].
  rewrite uint32_pred_zero.
  change (UINT32_MODULUS - 1 >? 0) with true. cbv iota.
  set (probe := Ev (net_connect addr' port) (env h _ (net_connect addr' port))) in *.
  destruct (connect_to_server_loop_refused env addr' port delay Hrefused
              (Z.to_nat (UINT32_MODULUS - 1)) (UINT32_MODULUS - 1) s
              (h ++ probe :: tp)) as (t & Hrun & Hc & Hd).
  { change UINT32_MODULUS with 4294967296. lia. }
  { change UINT32_MODULUS with 4294967296. lia. }
  assert (Hhead : exists next rest,
             t ++ [Ev (SDL_Delay delay) tt] = next :: rest
             /\ is_net_connect next = true).
  { destruct (S (Z.to_nat (UINT32_MODULUS - 2))) as [|n] eqn:Hn; [discriminate|].
    assert (Hfuel2 : Z.to_nat (UINT32_MODULUS - 1) = S n).
    { rewrite <- Hn. change UINT32_MODULUS with 4294967296. lia. }
    rewrite Hfuel2, connect_to_server_loop_unfold, run_bind in Hrun.
    destruct (failed_probe env addr' port s (h ++ probe :: tp)
                (Hrefused (h ++ probe :: tp))) as (tp2 & Hprobe2 & _).
    rewrite Hprobe2 in Hrun.
    match type of Hrun with run env ?p ?s1 ?h1 = _ =>
      destruct (run_extends env p s1 h1) as [u Hu]; rewrite Hrun in Hu
    end.
    simpl in Hu. rewrite <- !app_assoc in Hu.
    apply app_inv_head in Hu. apply app_inv_head in Hu.
    rewrite Hu. simpl. eauto. }
  destruct Hhead as (next & rest & Hsplit & Hnext).
  exists (probe :: tp), next, rest. rewrite Hrun, <- Hsplit, <- app_assoc.
  assert (Hone : count_events is_net_connect (probe :: tp) = 1).
  { change (probe :: tp) with ([probe] ++ tp).
    rewrite count_events_app, Hconnects. reflexivity. }
  assert (Hnone : count_events is_SDL_Delay (probe :: tp) = 0).
  { change (probe :: tp) with ([probe] ++ tp).
    rewrite count_events_app, Hdelays. reflexivity. }
  split; [reflexivity|]. split; [now exists (env h _ (net_connect addr' port)), tp|].
  split; [exact Hone|]. split; [exact Hnone|]. split; [exact Hnext|].
  rewrite !(count_events_app _ (probe :: tp)), Hone, Hnone, Hc, Hd.
  split; lia.
Qed.

(** What a run of the loop leaves: the state is untouched, and a valid
    socket comes from the last two calls, a [net_connect] and a
    [net_recv] of one byte, after probes that kept nothing. *)
Lemma connect_to_server_loop_result (env : oracle) (addr' port delay : Z) :
  forall (fuel : nat) (attempts : Z) (s : server) (h : list event),
  exists o t,
    run env (connect_to_server_loop fuel addr' port attempts delay) s h
      = (o, s, h ++ t)
    /\ match o with
       | Done sock =>
           if is_valid_socket sock then
             exists pre,
               t = pre ++ [Ev (net_connect addr' port) sock; Ev (net_recv sock 1) 1]
               /\ discarded pre
               /\ Forall (fun e => is_net_accept e = false) pre
           else
             discarded t /\ Forall (fun e => is_net_accept e = false) t
       | Aborted _ => False
       | OutOfFuel => True
       end.
Proof.
  induction fuel as [|fuel IH]; intros attempts s h.
  - exists OutOfFuel, []. simpl. now rewrite app_nil_r.
  - rewrite connect_to_server_loop_unfold, run_bind.
    destruct (probe_ok env addr' port h) eqn:Hprobe.
    + destruct (successful_probe env addr' port s h Hprobe) as (sock & Hvalid & Hrun).
      rewrite Hrun, Hvalid. cbn [run].
      eexists (Done sock), _. split; [reflexivity|]. rewrite Hvalid.
      exists []. split; [reflexivity|]. split; [apply discarded_nil|constructor].
    + destruct (failed_probe env addr' port s h Hprobe)
        as (tp & Hrun & _ & _ & Haccepts & Hdiscarded).
      rewrite Hrun. cbn [is_valid_socket socket_eqb negb].
      set (probe := Ev (net_connect addr' port) (env h _ (net_connect addr' port))) in *.
      rewrite run_bind.
      assert (Hsleep : exists u,
                 run env (when (negb (attempts =? 0)) (ext (SDL_Delay delay))) s
                   (h ++ probe :: tp) = (Done tt, s, h ++ (probe :: tp) ++ u)
                 /\ discarded u /\ Forall (fun e => is_net_accept e = false) u).
      { destruct (attempts =? 0); cbn [negb when ext run].
        - exists []. rewrite app_nil_r. split; [reflexivity|].
          split; [apply discarded_nil|constructor].
        - eexists [_]. rewrite <- app_assoc, (unit_is_tt (env _ unit _)).
          split; [reflexivity|].
          split; [intros x []|repeat constructor]. }
      destruct Hsleep as (u & Hsleep & Hu & Hau). rewrite Hsleep.
      assert (Hfailed : discarded ((probe :: tp) ++ u)
                        /\ Forall (fun e => is_net_accept e = false) ((probe :: tp) ++ u)).
      { split; [now apply discarded_app|].
        apply Forall_app. split; [constructor; auto|assumption]. }
      destruct Hfailed as [Hd Ha].
      set (failed := (probe :: tp) ++ u) in *. clearbody failed.
      destruct ((attempts - 1) mod UINT32_MODULUS >? 0).
      * destruct (IH ((attempts - 1) mod UINT32_MODULUS) s (h ++ failed))
          as (o & t & Hloop & Ho).
        exists o, (failed ++ t).
        rewrite Hloop, <- app_assoc. split; [reflexivity|].
        destruct o as [sock|msg|]; auto.
        destruct (is_valid_socket sock).
        -- destruct Ho as (pre & -> & Hpre & Hapre).
           exists (failed ++ pre). rewrite <- app_assoc.
           split; [reflexivity|].
           split; [apply discarded_app; auto|]. apply Forall_app. auto.
        -- destruct Ho as [Ht Hat].
           split; [apply discarded_app; auto|]. apply Forall_app. auto.
      * exists (Done INVALID_SOCKET), failed. cbn [run].
        split; [reflexivity|]. simpl. auto.
Qed.

(** ** The port sweeps *)

Lemma PORT_FUEL_value : Z.of_nat PORT_FUEL = UINT16_MODULUS.
Proof.
  reflexivity.
Qed.

Lemma uint16_succ (port bound : Z) :
  0 <= port -> port < bound -> uint16 bound ->
  (port + 1) mod UINT16_MODULUS = port + 1.
Proof.
  unfold uint16. intros H0 Hlt Hb. apply Z.mod_small. lia.
Qed.

(** The reverse loop terminates within its fuel and runs a sweep. *)
Lemma enable_tunnel_reverse_loop_sweep (env : oracle) (range : sc_port_range) :
  uint16 (last range) ->
  forall (fuel : nat) (port : Z) (s : server) (h : list event),
    0 <= port ->
    Z.max 0 (last range - port) < Z.of_nat fuel ->
    exists t b s',
      run env (enable_tunnel_reverse_loop fuel range port) s h = (Done b, s', h ++ t)
      /\ reverse_sweep (serial s) range port s t b s'.
Proof.
  intros Hlast fuel.
  induction fuel as [|fuel IH]; intros port s h Hport Hfuel; [lia|].
  cbn [enable_tunnel_reverse_loop enable_tunnel_reverse disable_tunnel_reverse
       listen_on_port get put ext bind run negb].
  set (pr := env h _ (adb_reverse (serial s) SOCKET_NAME port)).
  set (h1 := h ++ [Ev (adb_reverse (serial s) SOCKET_NAME port) pr]).
  destruct (env h1 _ (process_check_success pr "adb reverse")) eqn:Hcheck;
    cbn [negb bind run].
  - set (h2 := h1 ++ [Ev (process_check_success pr "adb reverse") true]).
    set (sock := env h2 _ (net_listen IPV4_LOCALHOST port 1)).
    cbn [server_socket set_server_socket serial].
    destruct (is_valid_socket sock) eqn:Hvalid; cbn [bind run].
    + eexists _, true, _. split.
      * unfold h2, h1. rewrite <- !app_assoc. reflexivity.
      * now apply sweep_listening.
    + apply is_valid_socket_false in Hvalid. cbn [serial set_server_socket].
      set (h3 := h2 ++ [Ev (net_listen IPV4_LOCALHOST port 1) sock]).
      set (rm := env h3 _ (adb_reverse_remove (serial s) SOCKET_NAME)).
      set (h4 := h3 ++ [Ev (adb_reverse_remove (serial s) SOCKET_NAME) rm]).
      set (removed := env h4 _ (process_check_success rm "adb reverse --remove")).
      set (h5 := h4 ++ [Ev (process_check_success rm "adb reverse --remove") removed]).
      assert (Hh5 : h5 = h ++ reverse_round (serial s) port pr rm removed).
      { unfold h5, h4, h3, h2, h1, reverse_round. rewrite Hvalid, <- !app_assoc.
        reflexivity. }
      rewrite Hvalid in *. clearbody h5. subst h5.
      destruct (port <? last range) eqn:Hlt.
      * apply Z.ltb_lt in Hlt.
        rewrite (uint16_succ port (last range) Hport Hlt Hlast).
        destruct (IH (port + 1) (set_server_socket INVALID_SOCKET s)
                    (h ++ reverse_round (serial s) port pr rm removed))
          as (t & b & s' & Hrun & Hsweep); [lia|lia|].
        exists (reverse_round (serial s) port pr rm removed ++ t), b, s'.
        rewrite Hrun, <- app_assoc. split; [reflexivity|].
        apply sweep_retry; [assumption|].
        rewrite (uint16_succ port (last range) Hport Hlt Hlast). exact Hsweep.
      * apply Z.ltb_ge in Hlt. cbn [run].
        eexists _, false, _. split; [reflexivity|].
        now apply sweep_exhausted.
  - eexists _, false, _. split.
    + unfold h1. rewrite <- !app_assoc. reflexivity.
    + apply sweep_command_failed.
Qed.

(** The forward loop terminates within its fuel and runs a sweep. *)
Lemma enable_tunnel_forward_loop_sweep (env : oracle) (range : sc_port_range) :
  uint16 (last range) ->
  forall (fuel : nat) (port : Z) (s : server) (h : list event),
    0 <= port ->
    Z.max 0 (last range - port) < Z.of_nat fuel ->
    exists t b s',
      run env (enable_tunnel_forward_loop fuel range port) s h = (Done b, s', h ++ t)
      /\ forward_sweep (serial s) range port s t b s'.
Proof.
  intros Hlast fuel.
  induction fuel as [|fuel IH]; intros port s h Hport Hfuel; [lia|].
  cbn [enable_tunnel_forward_loop enable_tunnel_forward get put ext bind run].
  set (pr := env h _ (adb_forward (serial s) port SOCKET_NAME)).
  set (h1 := h ++ [Ev (adb_forward (serial s) port SOCKET_NAME) pr]).
  destruct (env h1 _ (process_check_success pr "adb forward")) eqn:Hcheck;
    cbn [bind run].
  - eexists _, true, _. split.
    + unfold h1. rewrite <- !app_assoc. reflexivity.
    + apply forward_done.
  - set (h2 := h1 ++ [Ev (process_check_success pr "adb forward") false]).
    assert (Hh2 : h2 = h ++ [ Ev (adb_forward (serial s) port SOCKET_NAME) pr;
                              Ev (process_check_success pr "adb forward") false ]).
    { unfold h2, h1. rewrite <- !app_assoc. reflexivity. }
    clearbody h2. subst h2.
    destruct (port <? last range) eqn:Hlt.
    + apply Z.ltb_lt in Hlt.
      rewrite (uint16_succ port (last range) Hport Hlt Hlast).
      destruct (IH (port + 1) s
                  (h ++ [ Ev (adb_forward (serial s) port SOCKET_NAME) pr;
                          Ev (process_check_success pr "adb forward") false ]))
        as (t & b & s' & Hrun & Hsweep); [lia|lia|].
      eexists (_ ++ t), b, s'.
      rewrite Hrun, <- app_assoc. split; [reflexivity|].
      apply forward_retry; [assumption|].
      rewrite (uint16_succ port (last range) Hport Hlt Hlast). exact Hsweep.
    + apply Z.ltb_ge in Hlt. cbn [run].
      eexists _, false, _. split; [reflexivity|].
      now apply forward_exhausted.
Qed.

Lemma consecutive_ports_cons (a : Z) (n : nat) :
  consecutive_ports a (S n) = a :: consecutive_ports (a + 1) n.
Proof.
  unfold consecutive_ports. cbn [seq map]. f_equal; [lia|].
  rewrite <- seq_shift, map_map. apply map_ext. intros i. lia.
Qed.

Lemma consecutive_ports_one (a : Z) : consecutive_ports a 1 = [a].
Proof.
  unfold consecutive_ports. simpl. f_equal. lia.
Qed.

(** A sweep that stopped after its first port. *)
Ltac single_port :=
  exists 1%nat; rewrite consecutive_ports_one; repeat split; auto; lia.

Lemma consecutive_ports_bounds (a : Z) (n : nat) :
  Forall (fun p => a <= p < a + Z.of_nat n) (consecutive_ports a n).
Proof.
  unfold consecutive_ports. apply Forall_forall. intros p Hin.
  apply in_map_iff in Hin. destruct Hin as (i & <- & Hi).
  apply in_seq in Hi. lia.
Qed.

(** The ports a reverse sweep tries are [port], [port + 1], ... without
    a wrap, and there are at most [last - port + 1] of them. *)
Lemma reverse_sweep_ports (ser : option string) (range : sc_port_range)
    (port : Z) (s : server) (t : list event) (b : bool) (s' : server) :
  reverse_sweep ser range port s t b s' ->
  uint16 (last range) -> 0 <= port ->
  exists n : nat,
    filter_map reverse_port t = consecutive_ports port n
    /\ filter_map forward_port t = []
    /\ (1 <= n)%nat
    /\ Z.of_nat n <= Z.max 1 (last range - port + 1).
Proof.
  intros Hsweep Hlast.
  induction Hsweep as [port s pr|port s pr sock Hvalid|port s pr rm removed Hge
                       |port s pr rm removed t b s' Hlt Hsweep IH]; intros Hport.
  - single_port.
  - single_port.
  - single_port.
  - rewrite (uint16_succ port (last range) Hport Hlt Hlast) in IH.
    destruct IH as (n & Hports & Hnone & Hn & Hbound); [lia|].
    exists (S n). rewrite !filter_map_app, Hports, Hnone, consecutive_ports_cons.
    repeat split; auto; lia.
Qed.

Lemma forward_sweep_ports (ser : option string) (range : sc_port_range)
    (port : Z) (s : server) (t : list event) (b : bool) (s' : server) :
  forward_sweep ser range port s t b s' ->
  uint16 (last range) -> 0 <= port ->
  exists n : nat,
    filter_map forward_port t = consecutive_ports port n
    /\ (1 <= n)%nat
    /\ Z.of_nat n <= Z.max 1 (last range - port + 1).
Proof.
  intros Hsweep Hlast.
  induction Hsweep as [port s pr|port s pr Hge|port s pr t b s' Hlt Hsweep IH];
    intros Hport.
  - single_port.
  - single_port.
  - rewrite (uint16_succ port (last range) Hport Hlt Hlast) in IH.
    destruct IH as (n & Hports & Hn & Hbound); [lia|].
    exists (S n). rewrite !filter_map_app, Hports, consecutive_ports_cons.
    repeat split; auto; lia.
Qed.

(** What a reverse sweep does to the state: it never touches
    [tunnel_forward], and it writes [local_port] only when it ends
    listening. *)
Lemma reverse_sweep_state (ser : option string) (range : sc_port_range)
    (port : Z) (s : server) (t : list event) (b : bool) (s' : server) :
  reverse_sweep ser range port s t b s' ->
  tunnel_forward s' = tunnel_forward s
  /\ serial s' = serial s
  /\ (b = false -> local_port s' = local_port s)
  /\ (b = true -> In (local_port s') (filter_map reverse_port t)).
Proof.
  induction 1 as [port s pr|port s pr sock Hvalid|port s pr rm removed Hge
                  |port s pr rm removed t b s' Hlt Hsweep IH].
  - repeat split; auto. discriminate.
  - repeat split; auto; [discriminate|]. intros _. simpl. auto.
  - repeat split; auto. discriminate.
  - destruct IH as (Hforward & Hserial & Hfalse & Htrue).
    repeat split; auto. intros Hb. simpl. right. auto.
Qed.

(** A forward sweep writes nothing but [local_port], and only when a
    forward command succeeds. *)
Lemma forward_sweep_state (ser : option string) (range : sc_port_range)
    (port : Z) (s : server) (t : list event) (b : bool) (s' : server) :
  forward_sweep ser range port s t b s' ->
  tunnel_forward s' = tunnel_forward s
  /\ serial s' = serial s
  /\ (b = false -> s' = s)
  /\ (b = true -> In (local_port s') (filter_map forward_port t)).
Proof.
  induction 1 as [port s pr|port s pr Hge|port s pr t b s' Hlt Hsweep IH].
  - repeat split; auto; [discriminate|]. intros _. simpl. auto.
  - repeat split; auto. discriminate.
  - destruct IH as (Hforward & Hserial & Hfalse & Htrue).
    repeat split; auto. intros Hb. simpl. right. auto.
Qed.

(** Where an event of a list that starts with a known prefix sits. *)
Lemma split_after_prefix (A : Type) (round t pre post : list A) (e : A) :
  round ++ t = pre ++ e :: post ->
  (exists k, (k < List.length round)%nat /\ pre = firstn k round
             /\ nth_error round k = Some e)
  \/ (exists pre', pre = round ++ pre' /\ t = pre' ++ e :: post).
Proof.
  revert pre. induction round as [|x round IH]; intros pre Heq.
  - right. exists pre. auto.
  - destruct pre as [|y pre]; simpl in Heq; injection Heq as Hx Heq.
    + left. exists 0%nat. subst. simpl. repeat split; auto. lia.
    + subst y. destruct (IH pre Heq) as [(k & Hk & Hpre & Hnth)|(pre' & Hpre & Ht)].
      * left. exists (S k). simpl. repeat split; auto; [lia|]. now rewrite Hpre.
      * right. exists pre'. split; auto. now rewrite Hpre.
Qed.

Lemma removal_after_round (ser : option string) (port : Z)
    (pr rm : process_t) (removed : bool) (t : list event) :
  removal_after_failed_listen ser t ->
  removal_after_failed_listen ser (reverse_round ser port pr rm removed ++ t).
Proof.
  intros Ht pre e post Heq He.
  apply split_after_prefix in Heq.
  destruct Heq as [(k & Hk & Hpre & Hnth)|(pre' & Hpre & Heq)].
  - destruct k as [|[|[|[|[|k]]]]]; simpl in Hnth;
      try (injection Hnth as <-; discriminate He).
    + exists [], port, pr. now subst pre.
    + simpl in Hk. lia.
  - destruct (Ht pre' e post Heq He) as (pre'' & port1 & pr1 & Hpre').
    exists (reverse_round ser port pr rm removed ++ pre''), port1, pr1.
    now rewrite Hpre, Hpre', app_assoc.
Qed.

Lemma reverse_sweep_removals (ser : option string) (range : sc_port_range) :
  forall port s t b s',
    reverse_sweep ser range port s t b s' ->
    removal_after_failed_listen ser t.
Proof.
  induction 1 as [port s pr|port s pr sock Hvalid|port s pr rm removed Hge
                  |port s pr rm removed t b s' Hlt Hsweep IH].
  - intros pre e post Heq He.
    destruct pre as [|x [|y pre]]; simpl in Heq; injection Heq; intros; subst;
      try discriminate He.
    destruct pre; discriminate.
  - intros pre e post Heq He.
    destruct pre as [|x [|y [|z pre]]]; simpl in Heq; injection Heq; intros;
      subst; try discriminate He.
    destruct pre; discriminate.
  - rewrite <- (app_nil_r (reverse_round _ _ _ _ _)). apply removal_after_round.
    intros pre e post Heq. destruct pre; discriminate.
  - now apply removal_after_round.
Qed.

(** ** The port sweeps: the claims *)

(** C4.  For a port range [first <= last] of [uint16_t], the reverse
    loop and the forward loop both terminate with a result, and the
    ports they try are [first], [first + 1], ... in this order, at most
    [last - first + 1] of them, none above [last]: the counter is never
    incremented from 0xFFFF.  When [first = last = 65535] exactly this
    one port is tried. *)
Theorem port_sweep_bounded :
  forall (env : oracle) (range : sc_port_range) (s : server) (h : list event),
    0 <= first range ->
    first range <= last range ->
    last range < UINT16_MODULUS ->
    (exists t b s' n,
        run env (enable_tunnel_reverse_any_port range) s h = (Done b, s', h ++ t)
        /\ filter_map reverse_port t = consecutive_ports (first range) n
        /\ (1 <= n)%nat
        /\ Z.of_nat n <= last range - first range + 1
        /\ Forall (fun p => first range <= p <= last range)
             (filter_map reverse_port t)
        /\ (first range = 65535 -> filter_map reverse_port t = [65535]))
    /\ (exists t b s' n,
        run env (enable_tunnel_forward_any_port range) s h = (Done b, s', h ++ t)
        /\ filter_map forward_port t = consecutive_ports (first range) n
        /\ (1 <= n)%nat
        /\ Z.of_nat n <= last range - first range + 1
        /\ Forall (fun p => first range <= p <= last range)
             (filter_map forward_port t)
        /\ (first range = 65535 -> filter_map forward_port t = [65535])).
Proof.
  intros env range s h Hfirst Horder Hlast.
  assert (Hu : uint16 (last range)) by (unfold uint16; lia).
  assert (Hfuel : Z.max 0 (last range - first range) < Z.of_nat PORT_FUEL).
  { rewrite PORT_FUEL_value. lia. }
  assert (Hin : forall n ports,
             ports = consecutive_ports (first range) n ->
             Z.of_nat n <= Z.max 1 (last range - first range + 1) ->
             (1 <= n)%nat ->
             Z.of_nat n <= last range - first range + 1
             /\ Forall (fun p => first range <= p <= last range) ports
             /\ (first range = 65535 -> ports = [65535])).
  { intros n ports -> Hn Hpos. split; [lia|]. split.
    - eapply Forall_impl; [|apply consecutive_ports_bounds].
      intros p Hp. simpl in Hp. lia.
    - intros H65535. unfold UINT16_MODULUS in Hlast. simpl in Hlast.
      assert (n = 1%nat) as -> by lia.
      now rewrite consecutive_ports_one, H65535. }
  split.
  - unfold enable_tunnel_reverse_any_port.
    destruct (enable_tunnel_reverse_loop_sweep env range Hu PORT_FUEL
                (first range) s h Hfirst Hfuel) as (t & b & s' & Hrun & Hsweep).
    destruct (reverse_sweep_ports _ _ _ _ _ _ _ Hsweep Hu Hfirst)
      as (n & Hports & _ & Hpos & Hn).
    exists t, b, s', n. split; [exact Hrun|]. split; [exact Hports|].
    split; [exact Hpos|]. now apply Hin.
  - unfold enable_tunnel_forward_any_port. rewrite run_put_bind.
    destruct (enable_tunnel_forward_loop_sweep env range Hu PORT_FUEL
                (first range) (set_tunnel_forward true s) h Hfirst Hfuel)
      as (t & b & s' & Hrun & Hsweep).
    destruct (forward_sweep_ports _ _ _ _ _ _ _ Hsweep Hu Hfirst)
      as (n & Hports & Hpos & Hn).
    exists t, b, s', n. split; [exact Hrun|]. split; [exact Hports|].
    split; [exact Hpos|]. now apply Hin.
Qed.

(** The sweep of the single port 65535 against local ports that are all
    in use. *)
Lemma port_sweep_bounded_at_65535 :
  0 <= first (mk_port_range 65535 65535)
  /\ first (mk_port_range 65535 65535) <= last (mk_port_range 65535 65535)
  /\ last (mk_port_range 65535 65535) < UINT16_MODULUS
  /\ exists t b s' n,
       run ports_busy (enable_tunnel_reverse_any_port (mk_port_range 65535 65535))
         initialized [] = (Done b, s', [] ++ t)
       /\ filter_map reverse_port t = consecutive_ports 65535 n
       /\ (1 <= n)%nat.
Proof.
  assert (H0 : 0 <= first (mk_port_range 65535 65535)) by (simpl; lia).
  assert (H1 : first (mk_port_range 65535 65535) <= last (mk_port_range 65535 65535))
    by (simpl; lia).
  assert (H2 : last (mk_port_range 65535 65535) < UINT16_MODULUS) by reflexivity.
  split; [exact H0|]. split; [exact H1|]. split; [exact H2|].
  destruct (port_sweep_bounded ports_busy (mk_port_range 65535 65535)
              initialized [] H0 H1 H2) as [(t & b & s' & n & Hrun & Hports & Hn & _) _].
  exists t, b, s', n. auto.
Defined.

Lemma PORT_FUEL_succ : exists fuel, PORT_FUEL = S fuel.
Proof.
  pose proof PORT_FUEL_value as Hvalue.
  destruct PORT_FUEL as [|fuel]; [discriminate Hvalue|eauto].
Qed.

(** One round of the reverse loop whose [adb reverse] fails. *)
Lemma enable_tunnel_reverse_loop_command_failed (env : oracle) (fuel : nat)
    (range : sc_port_range) (port : Z) (s : server) (h : list event) :
  let pr := env h _ (adb_reverse (serial s) SOCKET_NAME port) in
  let h1 := h ++ [Ev (adb_reverse (serial s) SOCKET_NAME port) pr] in
  env h1 _ (process_check_success pr "adb reverse") = false ->
  run env (enable_tunnel_reverse_loop (S fuel) range port) s h
  = (Done false, s, h1 ++ [Ev (process_check_success pr "adb reverse") false]).
Proof.
  intros pr h1 Hcheck.
  cbn [enable_tunnel_reverse_loop enable_tunnel_reverse get put ext bind run negb].
  fold pr. fold h1. rewrite Hcheck. reflexivity.
Qed.

(** The forward loop starts with an [adb forward] of its first port. *)
Lemma enable_tunnel_forward_loop_first_call (env : oracle) (fuel : nat)
    (range : sc_port_range) (port : Z) (s : server) (h : list event) :
  exists t,
    snd (run env (enable_tunnel_forward_loop (S fuel) range port) s h)
    = h ++ Ev (adb_forward (serial s) port SOCKET_NAME)
              (env h _ (adb_forward (serial s) port SOCKET_NAME)) :: t.
Proof.
  cbn [enable_tunnel_forward_loop enable_tunnel_forward get put ext bind run].
  match goal with |- exists t, snd (run env ?p ?s1 ?h1) = _ =>
    destruct (run_extends env p s1 h1) as [t Ht]
  end.
  eexists. rewrite Ht, <- !app_assoc. reflexivity.
Qed.

(** C5.  When the [adb reverse] command fails for the first port of the
    range, [enable_tunnel_reverse_any_port] returns [false] after that
    one command, and [enable_tunnel_any_port] without [force_adb_forward]
    goes on with the forward strategy, whose first command forwards the
    first port of the range again.  In every reverse sweep, an
    [adb reverse --remove] is only issued straight after an [adb reverse]
    that succeeded and a [net_listen] on the same port that failed. *)
Theorem reverse_command_failure_falls_back :
  forall (env : oracle) (range : sc_port_range) (s : server) (h : list event),
    let ser := serial s in
    let pr := env h _ (adb_reverse ser SOCKET_NAME (first range)) in
    let h1 := h ++ [Ev (adb_reverse ser SOCKET_NAME (first range)) pr] in
    let h2 := h1 ++ [Ev (process_check_success pr "adb reverse") false] in
    (env h1 _ (process_check_success pr "adb reverse") = false ->
       run env (enable_tunnel_reverse_any_port range) s h = (Done false, s, h2)
       /\ run env (enable_tunnel_any_port range false) s h
          = run env (enable_tunnel_forward_any_port range) s h2
       /\ exists t,
            snd (run env (enable_tunnel_any_port range false) s h)
            = h2 ++ Ev (adb_forward ser (first range) SOCKET_NAME)
                       (env h2 _ (adb_forward ser (first range) SOCKET_NAME)) :: t)
    /\ (0 <= first range -> uint16 (last range) ->
        exists t b s',
          run env (enable_tunnel_reverse_any_port range) s h = (Done b, s', h ++ t)
          /\ removal_after_failed_listen ser t).
Proof.
  intros env range s h ser pr h1 h2. split.
  - intros Hcheck.
    assert (Hreverse : run env (enable_tunnel_reverse_any_port range) s h
                       = (Done false, s, h2)).
    { unfold enable_tunnel_reverse_any_port.
      destruct PORT_FUEL_succ as [fuel ->].
      now apply enable_tunnel_reverse_loop_command_failed. }
    assert (Hcascade : run env (enable_tunnel_any_port range false) s h
                       = run env (enable_tunnel_forward_any_port range) s h2).
    { unfold enable_tunnel_any_port. cbn [negb]. now rewrite run_bind, Hreverse. }
    split; [exact Hreverse|]. split; [exact Hcascade|].
    rewrite Hcascade. unfold enable_tunnel_forward_any_port.
    rewrite run_put_bind. destruct PORT_FUEL_succ as [fuel ->].
    apply enable_tunnel_forward_loop_first_call.
  - intros Hfirst Hlast.
    assert (Hfuel : Z.max 0 (last range - first range) < Z.of_nat PORT_FUEL).
    { rewrite PORT_FUEL_value. unfold uint16 in Hlast. lia. }
    destruct (enable_tunnel_reverse_loop_sweep env range Hlast PORT_FUEL
                (first range) s h Hfirst Hfuel) as (t & b & s' & Hrun & Hsweep).
    exists t, b, s'. split; [exact Hrun|].
    eapply reverse_sweep_removals. exact Hsweep.
Qed.

(** A device that does not support [adb reverse], with the default
    range of ports. *)
Lemma reverse_command_failure_falls_back_witness :
  reverse_unsupported
    ([] ++ [Ev (adb_reverse None SOCKET_NAME 27183) (Process 101)]) _
    (process_check_success (Process 101) "adb reverse") = false
  /\ run reverse_unsupported
       (enable_tunnel_reverse_any_port (mk_port_range 27183 27199)) initialized []
     = (Done false, initialized,
        [ Ev (adb_reverse None SOCKET_NAME 27183) (Process 101);
          Ev (process_check_success (Process 101) "adb reverse") false ]).
Proof.
  assert (Hcheck : reverse_unsupported
            ([] ++ [Ev (adb_reverse None SOCKET_NAME 27183) (Process 101)]) _
            (process_check_success (Process 101) "adb reverse") = false)
    by reflexivity.
  split; [exact Hcheck|].
  destruct (reverse_command_failure_falls_back reverse_unsupported
              (mk_port_range 27183 27199) initialized []) as [Hfirst _].
  destruct (Hfirst Hcheck) as [Hrun _]. exact Hrun.
Defined.

Lemma consecutive_ports_not_nil (a : Z) (n : nat) :
  (1 <= n)%nat -> consecutive_ports a n <> [].
Proof.
  destruct n as [|n]; [lia|]. rewrite consecutive_ports_cons. discriminate.
Qed.

(** What the forward strategy does to the state. *)
Lemma enable_tunnel_forward_any_port_state (env : oracle) (range : sc_port_range)
    (s : server) (h : list event) :
  0 <= first range -> uint16 (last range) ->
  exists t b s',
    run env (enable_tunnel_forward_any_port range) s h = (Done b, s', h ++ t)
    /\ tunnel_forward s' = true
    /\ filter_map forward_port t <> []
    /\ (b = false -> local_port s' = local_port s)
    /\ (b = true -> In (local_port s') (filter_map forward_port t)).
Proof.
  intros Hfirst Hlast.
  assert (Hfuel : Z.max 0 (last range - first range) < Z.of_nat PORT_FUEL).
  { rewrite PORT_FUEL_value. unfold uint16 in Hlast. lia. }
  unfold enable_tunnel_forward_any_port. rewrite run_put_bind.
  destruct (enable_tunnel_forward_loop_sweep env range Hlast PORT_FUEL
              (first range) (set_tunnel_forward true s) h Hfirst Hfuel)
    as (t & b & s' & Hrun & Hsweep).
  destruct (forward_sweep_ports _ _ _ _ _ _ _ Hsweep Hlast Hfirst)
    as (n & Hports & Hpos & _).
  destruct (forward_sweep_state _ _ _ _ _ _ _ Hsweep)
    as (Hforward & _ & Hfalse & Htrue).
  exists t, b, s'. split; [exact Hrun|]. split; [now rewrite Hforward|].
  split; [rewrite Hports; now apply consecutive_ports_not_nil|].
  split; [|exact Htrue].
  intros Hb. now rewrite (Hfalse Hb).
Qed.

(** C6, as the code has it.  [enable_tunnel_any_port] writes
    [local_port] only when one of the two strategies succeeds, with a
    port that strategy tried.  [tunnel_forward] is set as soon as the
    forward strategy is entered, before its first command: it is [true]
    whenever an [adb forward] was issued, whatever the result, and is
    left alone otherwise.  So when the function returns [false],
    [local_port] is unchanged and [tunnel_forward] is [true]. *)
Theorem enable_tunnel_any_port_state :
  forall (env : oracle) (range : sc_port_range) (force : bool)
         (s : server) (h : list event),
    0 <= first range ->
    uint16 (last range) ->
    exists t b s',
      run env (enable_tunnel_any_port range force) s h = (Done b, s', h ++ t)
      /\ (b = false -> local_port s' = local_port s /\ tunnel_forward s' = true)
      /\ (filter_map forward_port t <> [] -> tunnel_forward s' = true)
      /\ (filter_map forward_port t = [] ->
          b = true /\ tunnel_forward s' = tunnel_forward s)
      /\ (b = true ->
          In (local_port s')
             (filter_map reverse_port t ++ filter_map forward_port t)).
Proof.
  intros env range force s h Hfirst Hlast.
  assert (Hfuel : Z.max 0 (last range - first range) < Z.of_nat PORT_FUEL).
  { rewrite PORT_FUEL_value. unfold uint16 in Hlast. lia. }
  unfold enable_tunnel_any_port. destruct force; cbn [negb].
  - destruct (enable_tunnel_forward_any_port_state env range s h Hfirst Hlast)
      as (t & b & s' & Hrun & Hforward & Hports & Hfalse & Htrue).
    exists t, b, s'. split; [exact Hrun|]. split; [auto|]. split; [auto|].
    split; [intros Hnone; contradiction|].
    intros Hb. apply in_or_app. auto.
  - rewrite run_bind. unfold enable_tunnel_reverse_any_port.
    destruct (enable_tunnel_reverse_loop_sweep env range Hlast PORT_FUEL
                (first range) s h Hfirst Hfuel) as (t1 & b1 & s1 & Hrun1 & Hsweep).
    rewrite Hrun1.
    destruct (reverse_sweep_ports _ _ _ _ _ _ _ Hsweep Hlast Hfirst)
      as (n & _ & Hnone & _).
    destruct (reverse_sweep_state _ _ _ _ _ _ _ Hsweep)
      as (Hforward1 & _ & Hfalse1 & Htrue1).
    destruct b1.
    + exists t1, true, s1. cbn [run]. split; [reflexivity|].
      split; [discriminate|]. split; [intros Hsome; contradiction|].
      split; [auto|]. intros _. apply in_or_app. auto.
    + destruct (enable_tunnel_forward_any_port_state env range s1 (h ++ t1)
                  Hfirst Hlast)
        as (t2 & b & s' & Hrun2 & Hforward & Hports & Hfalse & Htrue).
      exists (t1 ++ t2), b, s'. rewrite Hrun2, <- app_assoc.
      split; [reflexivity|]. rewrite !filter_map_app, Hnone. cbn [app].
      split; [intros Hb; split; [rewrite (Hfalse Hb); auto|exact Hforward]|].
      split; [auto|]. split; [intros Hnil; contradiction|].
      intros Hb. apply in_or_app. right. auto.
Qed.

(** No port of the range 27183:27184 can be listened on or forwarded. *)
Lemma enable_tunnel_any_port_state_witness :
  0 <= first (mk_port_range 27183 27184)
  /\ uint16 (last (mk_port_range 27183 27184))
  /\ exists t b s',
       run no_tunnel (enable_tunnel_any_port (mk_port_range 27183 27184) false)
         initialized [] = (Done b, s', [] ++ t)
       /\ (b = false ->
           local_port s' = local_port initialized /\ tunnel_forward s' = true).
Proof.
  assert (H0 : 0 <= first (mk_port_range 27183 27184)) by (simpl; lia).
  assert (H1 : uint16 (last (mk_port_range 27183 27184)))
    by (unfold uint16; simpl; split; [lia|reflexivity]).
  split; [exact H0|]. split; [exact H1|].
  destruct (enable_tunnel_any_port_state no_tunnel (mk_port_range 27183 27184)
              false initialized [] H0 H1) as (t & b & s' & Hrun & Hfalse & _).
  exists t, b, s'. auto.
Defined.

(** C6, as the spec has it, fails: with no port of 27183:27184 that can
    be listened on or forwarded, [enable_tunnel_any_port] returns
    [false] and [tunnel_forward], [false] before the call, is [true]
    after it. *)
Lemma enable_tunnel_any_port_failure_sets_tunnel_forward :
  fst (fst (run no_tunnel
              (enable_tunnel_any_port (mk_port_range 27183 27184) false)
              initialized [])) = Done false
  /\ tunnel_forward
       (snd (fst (run no_tunnel
                    (enable_tunnel_any_port (mk_port_range 27183 27184) false)
                    initialized [])))
     <> tunnel_forward initialized.
Proof.
  vm_compute. split; [reflexivity|discriminate].
Qed.

(** ** connect_to_server: the claims *)

Lemma connect_iterations_positive (attempts : Z) :
  1 <= attempts -> connect_iterations attempts = attempts.
Proof.
  intros H. unfold connect_iterations.
  destruct (attempts =? 0) eqn:E; [apply Z.eqb_eq in E; lia|reflexivity].
Qed.

(** C9, what the code does.  With [attempts >= 1] and probes that all
    fail, [connect_to_server] makes [attempts] probes, returns
    [INVALID_SOCKET], and has slept as many times as it has probed: the
    last call it makes is the [SDL_Delay] that follows the final
    failure. *)
Theorem connect_to_server_sleeps_after_last_failure :
  forall (env : oracle) (addr' port attempts delay : Z) (s : server)
         (h : list event),
    1 <= attempts < UINT32_MODULUS ->
    (forall h', probe_ok env addr' port h' = false) ->
    exists t,
      run env (connect_to_server addr' port attempts delay) s h
        = (Done INVALID_SOCKET, s, h ++ t ++ [Ev (SDL_Delay delay) tt])
      /\ count_events is_net_connect (t ++ [Ev (SDL_Delay delay) tt]) = attempts
      /\ count_events is_SDL_Delay (t ++ [Ev (SDL_Delay delay) tt]) = attempts.
Proof.
  intros env addr' port attempts delay s h Hrange Hrefused.
  unfold connect_to_server.
  rewrite connect_iterations_positive by lia.
  apply connect_to_server_loop_refused; [assumption|assumption|lia].
Qed.

(** A single attempt that is refused: one probe, then one sleep. *)
Lemma connect_to_server_sleeps_after_last_failure_witness :
  1 <= 1 < UINT32_MODULUS
  /\ (forall h', probe_ok refuse_all IPV4_LOCALHOST 27183 h' = false)
  /\ exists t,
       run refuse_all (connect_to_server IPV4_LOCALHOST 27183 1 100) initialized []
         = (Done INVALID_SOCKET, initialized, [] ++ t ++ [Ev (SDL_Delay 100) tt])
       /\ count_events is_net_connect (t ++ [Ev (SDL_Delay 100) tt]) = 1
       /\ count_events is_SDL_Delay (t ++ [Ev (SDL_Delay 100) tt]) = 1.
Proof.
  assert (Hrange : 1 <= 1 < UINT32_MODULUS) by (split; [lia|reflexivity]).
  assert (Hrefused : forall h', probe_ok refuse_all IPV4_LOCALHOST 27183 h' = false)
    by (intros h'; reflexivity).
  split; [exact Hrange|]. split; [exact Hrefused|].
  exact (connect_to_server_sleeps_after_last_failure refuse_all IPV4_LOCALHOST
           27183 1 100 initialized [] Hrange Hrefused).
Defined.

(** C10, as the code has it.  Called with [attempts = 0] and probes that
    all fail, [connect_to_server] does not return at once: the body runs,
    [--attempts] wraps to 2^32 - 1, and the function returns
    [INVALID_SOCKET] after 2^32 probes and 2^32 - 1 sleeps.  The first
    probe, made while [attempts] is 0, is not followed by a sleep: the
    next [net_connect] comes straight after it. *)
Theorem connect_to_server_zero_attempts :
  forall (env : oracle) (addr' port delay : Z) (s : server) (h : list event),
    (forall h', probe_ok env addr' port h' = false) ->
    exists first_probe next rest,
      run env (connect_to_server addr' port 0 delay) s h
        = (Done INVALID_SOCKET, s, h ++ first_probe ++ next :: rest)
      /\ (exists sock tp, first_probe = Ev (net_connect addr' port) sock :: tp)
      /\ count_events is_net_connect first_probe = 1
      /\ count_events is_SDL_Delay first_probe = 0
      /\ is_net_connect next = true
      /\ count_events is_net_connect (first_probe ++ next :: rest) = UINT32_MODULUS
      /\ count_events is_SDL_Delay (first_probe ++ next :: rest) = UINT32_MODULUS - 1.
Proof.
  intros env addr' port delay s h Hrefused.
  now apply connect_to_server_zero_refused.
Qed.

(** Zero attempts against a port where nothing listens. *)
Lemma connect_to_server_zero_attempts_witness :
  (forall h', probe_ok refuse_all IPV4_LOCALHOST 27183 h' = false)
  /\ exists t,
       run refuse_all (connect_to_server IPV4_LOCALHOST 27183 0 100) initialized []
         = (Done INVALID_SOCKET, initialized, t)
       /\ count_events is_net_connect t = UINT32_MODULUS
       /\ count_events is_SDL_Delay t = UINT32_MODULUS - 1.
Proof.
  assert (Hrefused : forall h', probe_ok refuse_all IPV4_LOCALHOST 27183 h' = false)
    by (intros h'; reflexivity).
  split; [exact Hrefused|].
  destruct (connect_to_server_zero_attempts refuse_all IPV4_LOCALHOST 27183 100
              initialized [] Hrefused)
    as (first_probe & next & rest & Hrun & _ & _ & _ & _ & Hconnects & Hdelays).
  exists (first_probe ++ next :: rest). auto.
Defined.

Lemma count_events_zero (p : event -> bool) (t : list event) :
  count_events p t = 0 -> Forall (fun e => p e = false) t.
Proof.
  unfold count_events. induction t as [|e t IH]; simpl; intros H; [constructor|].
  destruct (p e) eqn:He; simpl in H; [lia|]. constructor; auto.
Qed.

Lemma net_connect_is_no_delay (e : event) :
  is_net_connect e = true -> is_SDL_Delay e = false.
Proof.
  destruct e as [R c r]. destruct c; simpl; congruence.
Qed.

(** C10, as the spec has it, fails: with [attempts = 0] and a port
    where nothing listens, not every probe is followed by a delay. *)
Lemma connect_to_server_zero_attempts_first_probe_not_delayed :
  ~ each_connect_followed_by_delay
      (snd (run refuse_all (connect_to_server IPV4_LOCALHOST 27183 0 100)
              initialized [])).
Proof.
  assert (Hrefused : forall h', probe_ok refuse_all IPV4_LOCALHOST 27183 h' = false)
    by (intros h'; reflexivity).
  destruct (connect_to_server_zero_refused refuse_all IPV4_LOCALHOST 27183 100
              initialized [] Hrefused)
    as (first_probe & next & rest & Hrun & (sock & tp & Hprobe) & _ & Hnone & Hnext & _).
  rewrite Hrun. cbn [snd app]. subst first_probe. intros Hall.
  destruct (Hall [] (Ev (net_connect IPV4_LOCALHOST 27183) sock)
              (tp ++ next :: rest) eq_refl eq_refl) as (e' & post' & Hpost & Hdelay).
  apply count_events_zero in Hnone. inversion Hnone as [|x l _ Htp]; subst.
  destruct tp as [|x tp]; simpl in Hpost; injection Hpost as <- _.
  - apply net_connect_is_no_delay in Hnext. congruence.
  - inversion Htp; subst. congruence.
Qed.

(** ** server_connect_to *)

Lemma connect_to_server_result (env : oracle) (addr' port attempts delay : Z)
    (s : server) (h : list event) :
  exists o t,
    run env (connect_to_server addr' port attempts delay) s h = (o, s, h ++ t)
    /\ match o with
       | Done sock =>
           if is_valid_socket sock then
             exists pre,
               t = pre ++ [Ev (net_connect addr' port) sock; Ev (net_recv sock 1) 1]
               /\ discarded pre
               /\ Forall (fun e => is_net_accept e = false) pre
           else
             discarded t /\ Forall (fun e => is_net_accept e = false) t
       | Aborted _ => False
       | OutOfFuel => True
       end.
Proof.
  unfold connect_to_server. apply connect_to_server_loop_result.
Qed.

(** A caller of [connect_to_server] that ends well got a valid socket
    or went on with [INVALID_SOCKET]. *)
Lemma run_connect_to_server_bind (env : oracle) (addr' port attempts delay : Z)
    (k : socket_t -> prog bool) (s : server) (h : list event) (s' : server)
    (h' : list event) :
  run env (socket <- connect_to_server addr' port attempts delay;; k socket) s h
    = (Done true, s', h') ->
  exists sock t,
    run env (k sock) s (h ++ t) = (Done true, s', h')
    /\ if is_valid_socket sock then
         exists pre,
           t = pre ++ [Ev (net_connect addr' port) sock; Ev (net_recv sock 1) 1]
           /\ discarded pre
       else True.
Proof.
  intros Hrun. rewrite run_bind in Hrun.
  destruct (connect_to_server_result env addr' port attempts delay s h)
    as (o & t & Hconnect & Ho).
  rewrite Hconnect in Hrun. destruct o as [sock|msg|]; try discriminate Hrun.
  exists sock, t. split; [exact Hrun|].
  destruct (is_valid_socket sock); [|exact I].
  destruct Ho as (pre & Ht & Hpre & _). eauto.
Qed.

(** [disable_tunnel] runs one adb command and waits for it; it leaves
    the state alone. *)
Lemma run_disable_tunnel (env : oracle) (s : server) (h : list event) :
  exists e1 e2 b,
    run env disable_tunnel s h = (Done b, s, h ++ [e1; e2])
    /\ is_net_connect e1 = false /\ is_net_accept e1 = false
    /\ is_net_connect e2 = false /\ is_net_accept e2 = false.
Proof.
  unfold disable_tunnel, disable_tunnel_forward, disable_tunnel_reverse.
  cbn [get ext bind run]. destruct (tunnel_forward s); cbn [get ext bind run];
    rewrite <- app_assoc; do 3 eexists; (split; [reflexivity|]); auto.
Qed.

(** C7, as the code has it.  In every call of [server_connect_to] that
    returns [true], in the three modes, the call that produced
    [video_socket] comes before the call that produced [control_socket],
    and no other [net_connect] or [net_accept] is made between them or
    after them: they are the last two sockets the function obtains.
    What comes before are the probes of [connect_to_server] that failed,
    whose sockets were closed again; in the reverse mode there is
    nothing before: the first call of the function is the [net_accept]
    of the video socket and the second the [net_accept] of the control
    socket. *)
Theorem server_connect_to_video_first :
  forall (env : oracle) (s : server) (h : list event) (s' : server)
         (h' : list event),
    run env server_connect_to s h = (Done true, s', h') ->
    exists pre video_event mid control_event post,
      h' = h ++ pre ++ [video_event] ++ mid ++ [control_event] ++ post
      /\ acquired_socket video_event = Some (video_socket s')
      /\ acquired_socket control_event = Some (control_socket s')
      /\ discarded pre
      /\ Forall (fun e => is_net_connect e = false /\ is_net_accept e = false)
           (mid ++ post)
      /\ (direct s = false -> tunnel_forward s = false -> pre = [] /\ mid = []).
Proof.
  intros env s h s' h' Hrun. unfold server_connect_to in Hrun.
  rewrite run_get_bind in Hrun. destruct (direct s) eqn:Hdirect.
  - rewrite !run_get_bind in Hrun.
    apply run_connect_to_server_bind in Hrun.
    destruct Hrun as (video & t & Hrun & Ht).
    cbn [put get bind run video_socket set_video_socket] in Hrun.
    destruct (is_valid_socket video) eqn:Hvideo; cbn [negb run] in Hrun;
      [|discriminate Hrun].
    destruct Ht as (pre & -> & Hpre).
    run_head_in Hrun.
    set (control := env _ _ (net_connect (addr s) (first (port_range s)))) in Hrun.
    destruct (is_valid_socket control) eqn:Hcontrol; cbn [negb run] in Hrun;
      [|discriminate Hrun].
    injection Hrun as <- <-.
    exists pre, (Ev (net_connect (addr s) (first (port_range s))) video),
      [Ev (net_recv video 1) 1],
      (Ev (net_connect (addr s) (first (port_range s))) control), [].
    cbn [acquired_socket video_socket control_socket set_control_socket
         set_video_socket]. rewrite Hvideo, Hcontrol.
    split; [now rewrite <- !app_assoc|].
    repeat split; auto; try discriminate. repeat constructor.
  - rewrite run_get_bind in Hrun. destruct (tunnel_forward s) eqn:Hforward.
    + rewrite !run_get_bind in Hrun.
      apply run_connect_to_server_bind in Hrun.
      destruct Hrun as (video & t & Hrun & Ht).
      cbn [put get bind run video_socket set_video_socket] in Hrun.
      destruct (is_valid_socket video) eqn:Hvideo; cbn [negb run] in Hrun;
        [|discriminate Hrun].
      destruct Ht as (pre & -> & Hpre).
      run_head_in Hrun.
      set (control := env _ _ (net_connect IPV4_LOCALHOST (local_port s))) in Hrun.
      destruct (is_valid_socket control) eqn:Hcontrol; cbn [negb] in Hrun;
        [|discriminate Hrun].
      rewrite run_bind in Hrun.
      match type of Hrun with context [run env disable_tunnel ?s1 ?h1] =>
        destruct (run_disable_tunnel env s1 h1)
          as (e1 & e2 & b & Hdisable & Hc1 & Ha1 & Hc2 & Ha2)
      end.
      rewrite Hdisable in Hrun. cbn [put bind run] in Hrun.
      injection Hrun as <- <-.
      exists pre, (Ev (net_connect IPV4_LOCALHOST (local_port s)) video),
        [Ev (net_recv video 1) 1],
        (Ev (net_connect IPV4_LOCALHOST (local_port s)) control), [e1; e2].
      cbn [acquired_socket video_socket control_socket set_control_socket
           set_video_socket set_tunnel_enabled]. rewrite Hvideo, Hcontrol.
      split; [now rewrite <- !app_assoc|].
      repeat split; auto; try discriminate. repeat constructor; auto.
    + unfold close_socket in Hrun. run_head_in Hrun.
      set (video := env h _ (net_accept (server_socket s))) in Hrun.
      destruct (is_valid_socket video) eqn:Hvideo; run_head_in Hrun;
        [|discriminate Hrun].
      set (h1 := h ++ [Ev (net_accept (server_socket s)) video]) in Hrun.
      set (control := env h1 _ (net_accept (server_socket s))) in Hrun.
      destruct (is_valid_socket control) eqn:Hcontrol; run_head_in Hrun;
        [|discriminate Hrun].
      exists [], (Ev (net_accept (server_socket s)) video), [],
        (Ev (net_accept (server_socket s)) control).
      destruct (server_socket_closed s); run_head_in Hrun.
      * injection Hrun as <- <-. exists [].
        cbn [acquired_socket video_socket control_socket set_control_socket
             set_video_socket set_server_socket_closed].
        rewrite Hvideo, Hcontrol. unfold h1.
        split; [now rewrite <- !app_assoc|].
        repeat split; auto using discarded_nil.
      * destruct (is_valid_socket (server_socket s)); run_head_in Hrun;
          [|discriminate Hrun].
        injection Hrun as <- <-. eexists [_; _].
        cbn [acquired_socket video_socket control_socket set_control_socket
             set_video_socket set_server_socket_closed].
        rewrite Hvideo, Hcontrol. unfold h1.
        split; [now rewrite <- !app_assoc|].
        repeat split; auto using discarded_nil. repeat constructor.
Qed.

(** The agent connects twice to the listening socket of the reverse
    mode; in the forward mode, with an agent that is not ready at the
    first probe, the first socket is closed again and the video socket
    is the one of the second probe. *)
Lemma server_connect_to_video_first_witness :
  (run accept_all server_connect_to (set_server_socket (Socket 3) initialized) []
   = (Done true,
      set_server_socket_closed true
        (set_control_socket (Socket 5)
           (set_video_socket (Socket 4)
              (set_server_socket (Socket 3) initialized))),
      [ Ev (net_accept (Socket 3)) (Socket 4);
        Ev (net_accept (Socket 3)) (Socket 5);
        Ev (net_shutdown (Socket 3)) true;
        Ev (net_close (Socket 3)) true ])
   /\ exists pre video_event mid control_event post,
        [ Ev (net_accept (Socket 3)) (Socket 4);
          Ev (net_accept (Socket 3)) (Socket 5);
          Ev (net_shutdown (Socket 3)) true;
          Ev (net_close (Socket 3)) true ]
        = [] ++ pre ++ [video_event] ++ mid ++ [control_event] ++ post
        /\ acquired_socket video_event = Some (Socket 4)
        /\ acquired_socket control_event = Some (Socket 5))
  /\ (fst (fst (run agent_late server_connect_to started_forward [])) = Done true
      /\ exists pre video_event mid control_event post,
           snd (run agent_late server_connect_to started_forward [])
           = [] ++ pre ++ [video_event] ++ mid ++ [control_event] ++ post
           /\ acquired_socket video_event = Some (Socket 8)
           /\ acquired_socket control_event = Some (Socket 10)
           /\ discarded pre).
Proof.
  split.
  - assert (Hrun : run accept_all server_connect_to
                     (set_server_socket (Socket 3) initialized) []
                   = (Done true,
                      set_server_socket_closed true
                        (set_control_socket (Socket 5)
                           (set_video_socket (Socket 4)
                              (set_server_socket (Socket 3) initialized))),
                      [ Ev (net_accept (Socket 3)) (Socket 4);
                        Ev (net_accept (Socket 3)) (Socket 5);
                        Ev (net_shutdown (Socket 3)) true;
                        Ev (net_close (Socket 3)) true ]))
      by reflexivity.
    split; [exact Hrun|].
    destruct (server_connect_to_video_first accept_all _ _ _ _ Hrun)
      as (pre & v & mid & c & post & Hsplit & Hv & Hc & _).
    exists pre, v, mid, c, post. auto.
  - assert (Hrun : run agent_late server_connect_to started_forward []
                   = (Done true,
                      snd (fst (run agent_late server_connect_to started_forward [])),
                      snd (run agent_late server_connect_to started_forward [])))
      by (vm_compute; reflexivity).
    split; [vm_compute; reflexivity|].
    destruct (server_connect_to_video_first agent_late _ _ _ _ Hrun)
      as (pre & v & mid & c & post & Hsplit & Hv & Hc & Hpre & _).
    exists pre, v, mid, c, post.
    assert (Hvideo : video_socket
                       (snd (fst (run agent_late server_connect_to
                                    started_forward []))) = Socket 8)
      by (vm_compute; reflexivity).
    assert (Hcontrol : control_socket
                         (snd (fst (run agent_late server_connect_to
                                      started_forward []))) = Socket 10)
      by (vm_compute; reflexivity).
    rewrite Hvideo in Hv. rewrite Hcontrol in Hc. auto.
Defined.

(** C7, as the spec has it, fails in the forward mode: with an agent
    that is not ready at the first probe, [server_connect_to] returns
    [true] and the first socket it obtained, descriptor 4, is not the
    video socket: that probe read nothing, its socket was closed, and the
    video socket is the one of the second probe. *)
Lemma server_connect_to_first_socket_is_not_video :
  fst (fst (run agent_late server_connect_to started_forward [])) = Done true
  /\ hd_error (filter_map acquired_socket
                 (snd (run agent_late server_connect_to started_forward [])))
     = Some (Socket 4)
  /\ In (Socket 4)
        (filter_map closed_socket
           (snd (run agent_late server_connect_to started_forward [])))
  /\ hd_error (filter_map acquired_socket
                 (snd (run agent_late server_connect_to started_forward [])))
     <> Some (video_socket
                (snd (fst (run agent_late server_connect_to started_forward [])))).
Proof.
  vm_compute. split; [reflexivity|]. split; [reflexivity|].
  split; [now left|discriminate].
Qed.

(** ** The close authority: soundness of the discipline *)

Lemma count_events_snoc (p : event -> bool) (h : list event) (e : event) :
  count_events p (h ++ [e]) = count_events p h + Z.b2z (p e).
Proof.
  rewrite count_events_app. unfold count_events. simpl.
  destruct (p e); reflexivity.
Qed.

Lemma count_events_nonneg (p : event -> bool) (h : list event) :
  0 <= count_events p h.
Proof.
  unfold count_events. lia.
Qed.

Lemma existsb_snoc (p : event -> bool) (h : list event) (e : event) :
  existsb p (h ++ [e]) = existsb p h || p e.
Proof.
  rewrite existsb_app. simpl. now rewrite orb_false_r.
Qed.

Lemma with_fields_same (g : ghost) :
  with_fields (g_sock g) (g_handle g) (g_forward g) g = g.
Proof.
  now destruct g.
Qed.

Lemma reuses_false_answer_ok (l : socket_t) {R : Type} (c : call R) (r : R) :
  is_valid_socket l = true ->
  reuses l (Ev c r) = false -> answer_ok l c r.
Proof.
  intros Hl. unfold reuses. destruct c; simpl; auto; intros H Heq; subst r;
    rewrite Hl, socket_eqb_refl in H; discriminate.
Qed.

Lemma closes_spec (l : socket_t) {R : Type} (c : call R) (r : R) :
  closes l (Ev c r) = true ->
  exists (Heq : R = bool), True /\ closed_socket (Ev c r) = Some l.
Proof.
  unfold closes. destruct c; simpl; try discriminate.
  intros H. apply socket_eqb_eq in H. subst. now exists eq_refl.
Qed.

Lemma caller_after_opened (l : socket_t) (g : ghost) {R : Type} (c : call R)
    (r : R) :
  g_opened g = true -> g_opened (caller_after l g c r) = true.
Proof.
  intros H. destruct c; cbn [caller_after]; auto.
  - cbn [with_opened g_opened]. now rewrite H.
  - destruct r; auto.
  - destruct (g_thread g); auto.
Qed.

(** Split a conjunction and close the easy parts. *)
Ltac conjuncts :=
  repeat match goal with |- _ /\ _ => split end;
  auto; try discriminate; try (intros; lia).

Section Soundness.

Variable l : socket_t.
Hypothesis l_valid : is_valid_socket l = true.

(** The caller moves. *)
Lemma close_once_caller_step (m : server) (h : list event) (p : prog unit)
    (ts : list (handle * prog Z)) (label : list event) (m' : server)
    (p' : prog unit) :
  close_once l (mk_config m h p ts) ->
  thread_step m p label m' p' ->
  may_return ts label ->
  existsb (reuses l) label = false ->
  close_once l (mk_config m' (h ++ label) p'
                  (ts ++ filter_map created_thread label)).
Proof.
  intros (g & own & Hsafe & Hview & Hthreads & Hle & Heq & Hflag & Hclear & Hopen)
         Hstep Hreturn Hfresh.
  cbn [caller memory threads history] in *.
  destruct Hstep as [m k|m f k|m k|m R c k r]; cbn [caller_safe] in Hsafe;
    rewrite ?app_nil_r; cbn [filter_map].
  - (* a read *)
    exists g, own. cbn [caller memory threads history]. conjuncts.
  - (* a write *)
    destruct Hsafe as (sock & th & fwd & (Hkeep & Hsame & Hchange) & Hsafe).
    exists (with_fields sock th fwd g), own. cbn [caller memory threads history].
    split; [exact Hsafe|]. split; [auto|].
    assert (Hthreads' : threads_ok l (with_fields sock th fwd g) ts own).
    { destruct (Hthreads) as [Hnone|th0 q own0 Hrun Hq|th0 a Hjoined].
      - now constructor.
      - constructor; auto. cbn [with_fields g_sock].
        destruct Hview as (Hsock & _).
        destruct (socket_eqb sock (g_sock g)) eqn:E.
        + apply socket_eqb_eq in E. now rewrite E.
        + assert (Hne : sock <> g_sock g).
          { intros Habs. apply socket_eqb_eq in Habs. congruence. }
          destruct (Hchange Hne) as (Hnot & _). congruence.
      - now constructor. }
    split; [exact Hthreads'|]. rewrite Hsame.
    cbn [with_fields g_sock g_own g_flag g_thread g_opened].
    split; [exact Hle|]. split; [|auto].
    intros Hl. destruct (socket_eqb sock (g_sock g)) eqn:E.
    + apply socket_eqb_eq in E. apply Heq. congruence.
    + assert (Hne : sock <> g_sock g).
      { intros Habs. apply socket_eqb_eq in Habs. congruence. }
      destruct (Hchange Hne) as (Hnot & _ & Hpristine).
      rewrite (Hclear (Hpristine Hl) Hnot) in *.
      pose proof (count_events_nonneg (closes l) h).
      destruct (g_own g), own; cbn [Z.b2z] in *; lia.
  - (* the test-and-set *)
    specialize (Hsafe (server_socket_closed m)).
    exists (after_test_and_set (server_socket_closed m) g), own.
    cbn [caller memory threads history after_test_and_set g_sock g_own g_flag
         g_thread g_opened server_socket_closed set_server_socket_closed].
    split; [exact Hsafe|]. split; [exact Hview|].
    split.
    { destruct Hthreads; now constructor. }
    destruct (server_socket_closed m) eqn:Hold; cbn [negb Z.b2z] in *.
    + rewrite orb_false_r. conjuncts.
    + rewrite orb_true_r. cbn [Z.b2z].
      assert (Hzero : count_events (closes l) h = 0 /\ g_own g = false /\ own = false).
      { pose proof (count_events_nonneg (closes l) h).
        destruct (g_own g), own; cbn [Z.b2z] in Hle; repeat split; lia. }
      destruct Hzero as (Hcount & _ & Hown). rewrite Hcount, Hown. cbn [Z.b2z].
      conjuncts.
  - (* a call *)
    destruct Hsafe as (Hcall & Hsafe).
    cbn [existsb] in Hfresh. rewrite orb_false_r in Hfresh.
    specialize (Hsafe r (reuses_false_answer_ok l c r l_valid Hfresh)).
    assert (Hopen' : existsb (listens l) (h ++ [Ev c r]) = true ->
                     g_opened (caller_after l g c r) = true).
    { rewrite existsb_snoc. intros H. apply orb_prop in H.
      destruct H as [H|H].
      - apply caller_after_opened. auto.
      - destruct c; try discriminate H. cbn [listens] in H.
        cbn [caller_after with_opened g_opened]. rewrite H. apply orb_true_r. }
    pose proof (count_events_snoc (closes l) h (Ev c r)) as Hcount.
    destruct c;
      try (exists g, own; cbn [caller memory threads history filter_map
                               created_thread];
           cbn [closes closed_socket Z.b2z] in Hcount;
           rewrite ?app_nil_r, Hcount, ?Z.add_0_r; solve [conjuncts]).
    + (* net_listen *)
      exists (with_opened (g_opened g || socket_eqb r l) g), own.
      cbn [caller memory threads history filter_map created_thread caller_after
           with_opened g_sock g_own g_flag g_thread g_opened] in *.
      cbn [closes closed_socket Z.b2z] in Hcount.
      rewrite app_nil_r, Hcount, Z.add_0_r.
      split; [exact Hsafe|]. split; [exact Hview|].
      split; [destruct Hthreads; now constructor|]. conjuncts.
    + (* net_close *)
      cbn [caller_call_ok] in Hcall.
      exists (with_own false g), (own).
      cbn [caller memory threads history filter_map created_thread caller_after
           with_own g_sock g_own g_flag g_thread g_opened] in *.
      rewrite app_nil_r, Hcount. split; [exact Hsafe|]. split; [exact Hview|].
      split.
      { destruct Hthreads; now constructor. }
      cbn [closes closed_socket].
      destruct (g_own g) eqn:Hown; cbn [Z.b2z] in *.
      * subst s. destruct (socket_eqb (g_sock g) l) eqn:E; cbn [Z.b2z].
        -- split; [lia|]. split; [|auto]. intros Hl. specialize (Heq Hl). lia.
        -- split; [lia|]. split; [|auto]. intros Hl.
           rewrite Hl, socket_eqb_refl in E. discriminate.
      * assert (E : socket_eqb s l = false).
        { destruct (socket_eqb s l) eqn:E; auto.
          apply socket_eqb_eq in E. contradiction. }
        rewrite E. cbn [Z.b2z]. split; [lia|]. split; [|auto].
        intros Hl. specialize (Heq Hl). lia.
    + (* SDL_CreateThread *)
      cbn [caller_call_ok] in Hcall. destruct Hcall as (Hnot & Hbody).
      assert (Hnone : ts = [] /\ own = false).
      { destruct Hthreads; auto; congruence. }
      destruct Hnone as (-> & ->).
      cbn [closes closed_socket Z.b2z] in Hcount.
      rewrite Z.add_0_r in Hcount.
      destruct r as [th|];
        cbn [caller memory threads history filter_map created_thread caller_after
             app] in *.
      * exists (with_thread (Running th) g), false.
        cbn [caller memory threads history with_thread g_sock g_own g_flag
             g_thread g_opened]. rewrite Hcount.
        split; [exact Hsafe|]. split; [exact Hview|].
        split; [now constructor|].
        split; [exact Hle|]. split; [exact Heq|]. split; [exact Hflag|].
        split; [discriminate|exact Hopen'].
      * exists g, false. cbn [caller memory threads history]. rewrite Hcount.
        split; [exact Hsafe|]. split; [exact Hview|].
        split; [now constructor|]. auto.
    + (* SDL_WaitThread *)
      cbn [caller_call_ok] in Hcall.
      cbn [closes closed_socket Z.b2z] in Hcount.
      rewrite Z.add_0_r in Hcount.
      cbn [caller memory threads history filter_map created_thread caller_after
           app] in *. rewrite app_nil_r.
      destruct Hthreads as [Hnone|th q own Hrun Hq|th a Hjoined].
      * exists g, false. rewrite Hnone in *. cbn [caller memory threads history].
        rewrite Hcount.
        split; [exact Hsafe|]. split; [exact Hview|].
        split; [now constructor|]. conjuncts.
      * rewrite Hrun in *. specialize (Hcall th eq_refl). subst t.
        destruct (Hreturn (Ev (SDL_WaitThread (Some th)) r) th q) as [a ->];
          [now left|reflexivity|now left|].
        cbn [thread_safe] in Hq. subst own.
        exists (with_thread Joined g), false.
        cbn [caller memory threads history with_thread g_sock g_own g_flag
             g_thread g_opened]. rewrite Hcount.
        split; [exact Hsafe|]. split; [exact Hview|].
        split; [now constructor|].
        split; [exact Hle|]. split; [exact Heq|]. split; [exact Hflag|].
        split; [discriminate|exact Hopen'].
      * exists g, false. rewrite Hjoined in *. cbn [caller memory threads history].
        rewrite Hcount.
        split; [exact Hsafe|]. split; [exact Hview|].
        split; [now constructor|]. conjuncts.
Qed.

Lemma singleton_split {A : Type} (l1 l2 : list A) (x y : A) :
  l1 ++ x :: l2 = [y] -> l1 = [] /\ x = y /\ l2 = [].
Proof.
  destruct l1 as [|z l1]; simpl; intros H.
  - injection H as -> ->. auto.
  - injection H as _ H. destruct l1; discriminate.
Qed.

(** A created thread moves. *)
Lemma close_once_thread_step (m : server) (h : list event) (p : prog unit)
    (ts1 ts2 : list (handle * prog Z)) (th : handle) (q : prog Z)
    (label : list event) (m' : server) (q' : prog Z) :
  close_once l (mk_config m h p (ts1 ++ (th, q) :: ts2)) ->
  thread_step m q label m' q' ->
  close_once l (mk_config m' (h ++ label) p
                  ((ts1 ++ (th, q') :: ts2) ++ filter_map created_thread label)).
Proof.
  intros (g & own & Hsafe & Hview & Hthreads & Hle & Heq & Hflag & Hclear & Hopen)
         Hstep.
  cbn [caller memory threads history] in *.
  inversion Hthreads as [Hnone Hnil|th0 q0 own0 Hrun Hq Hlist|th0 a Hjoined Hlist].
  { destruct ts1; discriminate. }
  2: { symmetry in Hlist. apply singleton_split in Hlist.
       destruct Hlist as (_ & Hpair & _). injection Hpair as _ ->.
       inversion Hstep. }
  symmetry in Hlist. apply singleton_split in Hlist.
  destruct Hlist as (-> & Hpair & ->). injection Hpair as <- <-. subst own0.
  clear Hthreads. cbn [app].
  destruct Hstep as [m k|m f k|m k|m R c k r]; cbn [thread_safe] in Hq;
    rewrite ?app_nil_r; cbn [filter_map app].
  - (* a read *)
    destruct Hview as (Hsock & Hrest).
    exists g, own. cbn [caller memory threads history].
    split; [exact Hsafe|]. split; [split; assumption|].
    split; [constructor; auto|]. conjuncts.
  - (* a write *)
    destruct Hq as (Hkeep & Hq).
    destruct (Hkeep m) as (Hs & Hv & Hc & Hw & Ht & Hf).
    exists g, own. cbn [caller memory threads history]. rewrite Hf.
    split; [exact Hsafe|].
    split; [unfold caller_view in *; rewrite Hs, Hv, Hc, Hw, Ht; exact Hview|].
    split; [constructor; auto|]. conjuncts.
  - (* the test-and-set *)
    specialize (Hq (server_socket_closed m)).
    exists g, (own || negb (server_socket_closed m)).
    cbn [caller memory threads history server_socket_closed
         set_server_socket_closed].
    split; [exact Hsafe|]. split; [exact Hview|].
    split; [constructor; auto|].
    destruct (server_socket_closed m) eqn:Hold; cbn [negb Z.b2z] in *.
    + rewrite orb_false_r. conjuncts.
    + rewrite orb_true_r. cbn [Z.b2z].
      assert (Hzero : count_events (closes l) h = 0 /\ g_own g = false).
      { pose proof (count_events_nonneg (closes l) h).
        destruct (g_own g), own; cbn [Z.b2z] in Hle; repeat split; lia. }
      destruct Hzero as (Hcount & Hown). rewrite Hcount, Hown. cbn [Z.b2z].
      conjuncts. intros Hnot Hnone. congruence.
  - (* a call *)
    destruct Hq as (Hcall & Hq). specialize (Hq r).
    pose proof (count_events_snoc (closes l) h (Ev c r)) as Hcount.
    assert (Hopen' : existsb (listens l) (h ++ [Ev c r]) = true ->
                     g_opened g = true).
    { rewrite existsb_snoc. intros H. apply orb_prop in H.
      destruct H as [H|H]; [auto|].
      destruct c; try discriminate H. destruct Hcall. }
    destruct c; cbn [thread_call_ok] in Hcall; try contradiction;
      try (exists g, own; cbn [caller memory threads history filter_map
                               created_thread own_after app] in *;
           cbn [closes closed_socket Z.b2z] in Hcount;
           rewrite Hcount, ?Z.add_0_r;
           split; [exact Hsafe|]; split; [exact Hview|];
           split; [constructor; auto|]; solve [conjuncts]).
    (* net_close *)
    exists g, false.
    cbn [caller memory threads history filter_map created_thread own_after app]
      in *.
    rewrite Hcount. split; [exact Hsafe|]. split; [exact Hview|].
    split; [constructor; auto|].
    cbn [closes closed_socket].
    destruct own; cbn [Z.b2z] in *.
    + subst s. destruct (socket_eqb (g_sock g) l) eqn:E; cbn [Z.b2z].
      * split; [lia|]. split; [|auto]. intros Hl. specialize (Heq Hl). lia.
      * split; [lia|]. split; [|auto]. intros Hl.
        rewrite Hl, socket_eqb_refl in E. discriminate.
    + assert (E : socket_eqb s l = false).
      { destruct (socket_eqb s l) eqn:E; auto.
        apply socket_eqb_eq in E. contradiction. }
      rewrite E. cbn [Z.b2z]. split; [lia|]. split; [|auto].
      intros Hl. specialize (Heq Hl). lia.
Qed.

(** *** Rules of the discipline *)

Lemma caller_safe_bind {A B : Type} (p : prog A) (f : A -> prog B) :
  forall (g : ghost) (post : B -> ghost -> Prop),
    caller_safe l p g (fun a g' => caller_safe l (f a) g' post) ->
    caller_safe l (bind p f) g post.
Proof.
  induction p as [a|msg| |k IH|s k IH|k IH|R c k IH]; intros g post H;
    cbn [bind caller_safe] in *; auto.
  - destruct H as (sock & th & fwd & Hstore & H). eauto 6.
  - destruct H as (Hcall & H). split; auto.
Qed.

Lemma caller_safe_bind_assoc {A B C : Type} (p : prog A) (f : A -> prog B)
    (k : B -> prog C) :
  forall (g : ghost) (post : C -> ghost -> Prop),
    caller_safe l (bind p (fun a => bind (f a) k)) g post ->
    caller_safe l (bind (bind p f) k) g post.
Proof.
  induction p as [a|msg| |k' IH|s k' IH|k' IH|R c k' IH]; intros g post H;
    cbn [bind caller_safe] in *; auto.
  - destruct H as (sock & th & fwd & Hstore & H). eauto 6.
  - destruct H as (Hcall & H). split; auto.
Qed.

Lemma caller_safe_mono {A : Type} (p : prog A) :
  forall (g : ghost) (post post' : A -> ghost -> Prop),
    (forall a g', post a g' -> post' a g') ->
    caller_safe l p g post -> caller_safe l p g post'.
Proof.
  induction p as [a|msg| |k IH|s k IH|k IH|R c k IH]; intros g post post' Himp H;
    cbn [caller_safe] in *; eauto.
  - destruct H as (sock & th & fwd & Hstore & H). eauto 7.
  - destruct H as (Hcall & H). split; eauto.
Qed.

Lemma quiet_bind {A B : Type} (p : prog A) (f : A -> prog B) :
  quiet p -> (forall a, quiet (f a)) -> quiet (bind p f).
Proof.
  induction p as [a|msg| |k IH|s k IH|k IH|R c k IH]; intros Hp Hf;
    cbn [bind quiet] in *; auto.
  - destruct Hp. auto.
  - destruct Hp. auto.
Qed.

Lemma quiet_store_ok (g : ghost) (f : server -> server) :
  keeps_caller_fields f ->
  store_ok l g f (g_sock g) (g_handle g) (g_forward g).
Proof.
  intros Hkeep. split; [|split].
  - intros m. destruct (Hkeep m) as (Hs & Hv & Hc & Hw & Ht & _).
    rewrite with_fields_same. unfold caller_view.
    rewrite Hs, Hv, Hc, Hw, Ht. auto.
  - intros m. apply Hkeep.
  - intros H. contradiction.
Qed.

(** A quiet program keeps the discipline and changes nothing of what
    the caller tracks. *)
Lemma quiet_safe {A : Type} (p : prog A) :
  quiet p ->
  forall (g : ghost) (post : A -> ghost -> Prop),
    (forall a, post a g) -> caller_safe l p g post.
Proof.
  induction p as [a|msg| |k IH|s k IH|k IH|R c k IH]; intros Hq g post Hpost;
    cbn [quiet caller_safe] in *; auto.
  - destruct Hq as (Hkeep & Hq).
    exists (g_sock g), (g_handle g), (g_forward g).
    split; [now apply quiet_store_ok|]. rewrite with_fields_same. auto.
  - contradiction.
  - destruct Hq as (Hcall & Hq).
    assert (Hsame : forall r, caller_after l g c r = g)
      by (intros r; destruct c; try contradiction; reflexivity).
    split; [destruct c; try contradiction; exact I|].
    intros r _. rewrite Hsame. auto.
Qed.

(** *** Quiet functions *)

Ltac keeps_fields := intros ?; repeat split; reflexivity.

Ltac quiet_steps :=
  repeat first
    [ progress cbn [quiet quiet_call bind get put ext when assert]
    | progress intros
    | exact I
    | split
    | solve [keeps_fields]
    | match goal with
      | |- quiet (if ?b then _ else _) => destruct b
      | |- quiet (match ?x with _ => _ end) => destruct x
      | |- quiet (bind (if ?b then _ else _) _) => destruct b
      | |- quiet (bind (match ?x with _ => _ end) _) => destruct x
      end ].

Lemma quiet_disable_tunnel : quiet disable_tunnel.
Proof.
  unfold disable_tunnel, disable_tunnel_forward, disable_tunnel_reverse.
  quiet_steps.
Qed.

Lemma quiet_stop_server_curl : quiet stop_server_curl.
Proof.
  unfold stop_server_curl. quiet_steps.
Qed.

Lemma quiet_execute_server_curl (version : string) (params : server_params) :
  quiet (execute_server_curl version params).
Proof.
  unfold execute_server_curl. quiet_steps.
Qed.

Lemma quiet_execute_server_adb (version : string) (params : server_params) :
  quiet (execute_server_adb version params).
Proof.
  unfold execute_server_adb. quiet_steps.
Qed.

Lemma quiet_push_server (prefix : string) (ser : option string) :
  quiet (push_server prefix ser).
Proof.
  unfold push_server, get_server_path. quiet_steps.
Qed.

Lemma quiet_server_start_error1 : quiet server_start_error1.
Proof.
  unfold server_start_error1. quiet_steps.
Qed.

Lemma quiet_enable_tunnel_forward_loop (range : sc_port_range) :
  forall (fuel : nat) (port : Z), quiet (enable_tunnel_forward_loop fuel range port).
Proof.
  induction fuel as [|fuel IH]; intros port;
    cbn [enable_tunnel_forward_loop enable_tunnel_forward]; quiet_steps.
  apply IH.
Qed.

(** *** The functions keep the discipline *)

Lemma invalid_is_not_l : INVALID_SOCKET <> l.
Proof.
  intros H. rewrite <- H in l_valid. discriminate.
Qed.

Lemma not_valid_is_not_l (sock : socket_t) :
  is_valid_socket sock = false -> sock <> l.
Proof.
  intros H Heq. rewrite Heq, l_valid in H. discriminate.
Qed.

(** [run_wait_server] closes the server socket only after it has won
    the test-and-set, and then once. *)
Lemma run_wait_server_safe (lsock : socket_t) :
  thread_safe l lsock run_wait_server false.
Proof.
  unfold run_wait_server, close_socket.
  cbn [thread_safe bind get put ext when assert atomic_flag_test_and_set
       thread_call_ok own_after].
  intros m _. split; [exact I|]. intros _ m1 _. split; [exact I|]. intros _.
  split; [keeps_fields|]. intros m2 _. split; [exact I|]. intros _ m3 _.
  split; [exact I|]. intros _ m4 Hsock.
  destruct (is_valid_socket (server_socket m4));
    cbn [thread_safe bind orb negb]; [|reflexivity].
  intros [|]; cbn [thread_safe bind when negb orb]; [reflexivity|].
  intros m5 Hsock5.
  destruct (is_valid_socket (server_socket m5));
    cbn [thread_safe bind thread_call_ok own_after]; [|exact I].
  split; [exact I|]. intros _. split; [exact Hsock5|]. intros _. reflexivity.
Qed.

(** One step of a program under the discipline of the caller. *)
Ltac ghost_cbn :=
  cbn [caller_safe bind get put ext atomic_flag_test_and_set
       caller_call_ok answer_ok caller_after];
  try unfold with_fields; try unfold with_own; try unfold with_thread;
  try unfold with_opened; try unfold after_test_and_set;
  cbn [g_sock g_handle g_forward g_own g_flag g_thread g_opened orb negb].

Ltac quiet_call_step lem :=
  apply caller_safe_bind; apply quiet_safe; [apply lem|intros ?].

(** A store to [video_socket] or [control_socket] of a socket that is
    not [l]. *)
Lemma data_store_ok (g : ghost) (f : server -> server) :
  (forall m,
      server_socket (f m) = server_socket m
      /\ wait_server_thread (f m) = wait_server_thread m
      /\ tunnel_forward (f m) = tunnel_forward m
      /\ server_socket_closed (f m) = server_socket_closed m
      /\ (video_socket m <> l -> video_socket (f m) <> l)
      /\ (control_socket m <> l -> control_socket (f m) <> l)) ->
  store_ok l g f (g_sock g) (g_handle g) (g_forward g).
Proof.
  intros Hkeep. split; [|split].
  - intros m (Hs & Hw & Ht & Hv & Hc).
    destruct (Hkeep m) as (Hs' & Hw' & Ht' & _ & Hv' & Hc').
    rewrite with_fields_same. unfold caller_view.
    rewrite Hs', Hw', Ht'. repeat split; auto.
  - intros m. apply Hkeep.
  - intros H. contradiction.
Qed.

Ltac data_fields :=
  intros ?; repeat split;
  cbn [server_socket wait_server_thread tunnel_forward server_socket_closed
       video_socket control_socket set_video_socket set_control_socket];
  auto.

Ltac safe_steps_with extra :=
  repeat first
    [ extra
    | progress ghost_cbn
    | progress unfold when, assert
    | match goal with
      | |- caller_safe _ (bind disable_tunnel _) _ _ =>
          quiet_call_step quiet_disable_tunnel
      | |- caller_safe _ (bind stop_server_curl _) _ _ =>
          quiet_call_step quiet_stop_server_curl
      | |- caller_safe _ (bind (bind _ _) _) _ _ => apply caller_safe_bind_assoc
      | |- caller_safe _ (bind (if ?b then _ else _) _) _ _ => destruct b eqn:?
      | |- caller_safe _ (if ?b then _ else _) _ _ => destruct b eqn:?
      | |- caller_safe _ (bind (match ?x with _ => _ end) _) _ _ =>
          destruct x eqn:?
      | |- caller_safe _ (match ?x with _ => _ end) _ _ => destruct x eqn:?
      | |- forall m : server, caller_view _ _ m -> _ =>
          let m := fresh "m" in
          let Hs := fresh "Hs" in
          let Hw := fresh "Hw" in
          let Ht := fresh "Ht" in
          let Hv := fresh "Hv" in
          let Hc := fresh "Hc" in
          intros m (Hs & Hw & Ht & Hv & Hc);
          cbn [g_sock g_handle g_forward] in Hs, Hw, Ht
      | |- exists sock th fwd, store_ok _ ?g ?f sock th fwd /\ _ =>
          exists (g_sock g), (g_handle g), (g_forward g);
          split;
          [ first [ apply quiet_store_ok; solve [keeps_fields]
                  | apply data_store_ok; solve [data_fields] ]
          | ]
      | |- forall old : bool, caller_safe _ _ _ _ => intros [|]
      | |- True /\ _ => split; [exact I|]
      | |- _ <> _ /\ _ => split; [assumption|]
      | |- ?x = ?x /\ _ => split; [reflexivity|]
      | |- forall r, True -> _ => intros ? _
      | |- forall r : socket_t, r <> _ -> _ => intros ? ?
      | |- True => exact I
      end ].

Ltac safe_steps := safe_steps_with ltac:(idtac; fail).

(** [close_socket] on a socket that is not [l], without the authority. *)
Lemma close_other_socket_safe (x sock : socket_t) (th : option handle)
    (fwd flag : bool) (thread : thread_state) (opened : bool) {A : Type}
    (k : unit -> prog A) (post : A -> ghost -> Prop) :
  x <> l ->
  caller_safe l (k tt) (mk_ghost sock th fwd false flag thread opened) post ->
  caller_safe l (bind (close_socket x) k)
    (mk_ghost sock th fwd false flag thread opened) post.
Proof.
  intros Hx Hk. unfold close_socket. safe_steps. exact Hk.
Qed.

(** [close_socket] on the server socket, with the authority. *)
Lemma close_server_socket_safe (sock : socket_t) (th : option handle)
    (fwd flag : bool) (thread : thread_state) (opened : bool) {A : Type}
    (k : unit -> prog A) (post : A -> ghost -> Prop) :
  caller_safe l (k tt) (mk_ghost sock th fwd false flag thread opened) post ->
  caller_safe l (bind (close_socket sock) k)
    (mk_ghost sock th fwd true flag thread opened) post.
Proof.
  intros Hk. unfold close_socket. safe_steps. exact Hk.
Qed.

Lemma close_server_socket_alone (sock : socket_t) (th : option handle)
    (fwd flag : bool) (thread : thread_state) (opened : bool)
    (post : unit -> ghost -> Prop) :
  post tt (mk_ghost sock th fwd false flag thread opened) ->
  caller_safe l (close_socket sock)
    (mk_ghost sock th fwd true flag thread opened) post.
Proof.
  intros Hk. unfold close_socket. safe_steps. exact Hk.
Qed.

(** The same steps, and the close of the server socket by the thread
    that holds the authority. *)
Ltac close_step :=
  match goal with
  | H : server_socket ?m = ?sock
    |- caller_safe _ (bind (close_socket (server_socket ?m)) _)
         (mk_ghost ?sock _ _ true _ _ _) _ =>
      rewrite H; apply close_server_socket_safe
  | H : server_socket ?m = ?sock
    |- caller_safe _ (close_socket (server_socket ?m))
         (mk_ghost ?sock _ _ true _ _ _) _ =>
      rewrite H; apply close_server_socket_alone
  end.

Ltac safe_run := safe_steps_with ltac:(idtac; close_step).

(** The test-and-set and the close that depends on it, as
    [server_connect_to] and [server_stop] have them. *)
Lemma close_if_first_safe (sock : socket_t) (th : option handle)
    (fwd flag : bool) (thread : thread_state) (opened : bool) {A : Type}
    (k : unit -> prog A) (post : A -> ghost -> Prop) :
  caller_safe l (k tt) (mk_ghost sock th fwd false true thread opened) post ->
  caller_safe l
    (was_closed <- atomic_flag_test_and_set;;
     u <- when (negb was_closed)
            (server_socket' <- get server_socket;; close_socket server_socket');;
     k u)
    (mk_ghost sock th fwd false flag thread opened) post.
Proof.
  intros Hk. cbn [caller_safe bind atomic_flag_test_and_set].
  intros [|];
    cbn [after_test_and_set g_sock g_handle g_forward g_own g_flag g_thread
         g_opened orb negb when bind get caller_safe].
  - exact Hk.
  - intros m (Hs & _). cbn [g_sock] in Hs. rewrite Hs.
    change (caller_safe l (bind (close_socket sock) k)
              (mk_ghost sock th fwd true true thread opened) post).
    now apply close_server_socket_safe.
Qed.

(** [if (socket != INVALID_SOCKET) close_socket(socket)] on a data
    socket. *)
Lemma close_data_socket_safe (proj : server -> socket_t) (b : bool)
    (sock : socket_t) (th : option handle) (fwd flag : bool)
    (thread : thread_state) (opened : bool) {A : Type}
    (k : unit -> prog A) (post : A -> ghost -> Prop) :
  (forall m,
      caller_view l (mk_ghost sock th fwd false flag thread opened) m ->
      proj m <> l) ->
  caller_safe l (k tt) (mk_ghost sock th fwd false flag thread opened) post ->
  caller_safe l (bind (when b (x <- get proj;; close_socket x)) k)
    (mk_ghost sock th fwd false flag thread opened) post.
Proof.
  intros Hproj Hk. destruct b; cbn [when get bind caller_safe]; [|exact Hk].
  intros m Hview. apply close_other_socket_safe; auto.
Qed.

(** [server_stop] closes the server socket if it wins the test-and-set,
    closes the two data sockets, and joins the thread. *)
Lemma server_stop_safe (sock : socket_t) (th : option handle) (fwd flag : bool)
    (thread : thread_state) (opened : bool) (post : unit -> ghost -> Prop) :
  (forall t, thread = Running t -> th = Some t) ->
  (forall flag',
      (sock = l -> flag' = true) ->
      post tt (mk_ghost sock th fwd false flag'
                 (match thread with Running _ => Joined | _ => thread end)
                 opened)) ->
  caller_safe l server_stop (mk_ghost sock th fwd false flag thread opened) post.
Proof.
  intros Hthread Hpost. unfold server_stop.
  ghost_cbn. intros m (Hs & _). cbn [g_sock] in Hs.
  match goal with |- caller_safe l (bind _ ?k) _ _ => set (rest := k) end.
  assert (Hrest : forall u flag',
             (sock = l -> flag' = true) ->
             caller_safe l (rest u)
               (mk_ghost sock th fwd false flag' thread opened) post).
  { intros u flag' Hflag. unfold rest. clear rest m Hs.
    ghost_cbn. intros m _.
    apply (close_data_socket_safe video_socket);
      [intros m' (_ & _ & _ & Hv & _); exact Hv|].
    ghost_cbn. intros m1 _.
    apply (close_data_socket_safe control_socket);
      [intros m' (_ & _ & _ & _ & Hc); exact Hc|].
    safe_steps;
      try (split;
       [ intros t Hrun;
         match goal with
         | H : wait_server_thread ?m = th |- wait_server_thread ?m = _ =>
             rewrite H
         end; now apply Hthread
       | intros _ _; destruct thread; cbn [with_thread g_sock g_handle g_forward
                                           g_own g_flag g_thread g_opened];
         apply Hpost; exact Hflag ]). }
  destruct (is_valid_socket (server_socket m)) eqn:Hvalid.
  - apply close_if_first_safe. apply Hrest. reflexivity.
  - cbn [bind]. apply Hrest. intros Hl. rewrite Hs, Hl, l_valid in Hvalid.
    discriminate.
Qed.

(** A probe keeps no socket that could be [l]. *)
Lemma connect_and_read_byte_safe (addr' port : Z) (sock : socket_t)
    (th : option handle) (fwd flag : bool) (thread : thread_state)
    (opened : bool) {A : Type} (k : socket_t -> prog A)
    (post : A -> ghost -> Prop) :
  (forall x, x <> l ->
     caller_safe l (k x) (mk_ghost sock th fwd false flag thread opened) post) ->
  caller_safe l (bind (connect_and_read_byte addr' port) k)
    (mk_ghost sock th fwd false flag thread opened) post.
Proof.
  intros Hk. unfold connect_and_read_byte. safe_steps; auto using invalid_is_not_l.
Qed.

Lemma connect_to_server_loop_safe (addr' port delay : Z) (sock : socket_t)
    (th : option handle) (fwd flag : bool) (thread : thread_state)
    (opened : bool) {A : Type} (k : socket_t -> prog A)
    (post : A -> ghost -> Prop) :
  (forall x, x <> l ->
     caller_safe l (k x) (mk_ghost sock th fwd false flag thread opened) post) ->
  forall (fuel : nat) (attempts : Z),
    caller_safe l (bind (connect_to_server_loop fuel addr' port attempts delay) k)
      (mk_ghost sock th fwd false flag thread opened) post.
Proof.
  intros Hk. induction fuel as [|fuel IH]; intros attempts.
  - exact I.
  - rewrite connect_to_server_loop_unfold. apply caller_safe_bind_assoc.
    apply connect_and_read_byte_safe. intros x Hx.
    safe_steps; auto using invalid_is_not_l.
Qed.

(** [server_connect_to] stores two sockets that are not [l] and, in
    the reverse mode, closes the server socket if it is the first to
    test and set the flag. *)
Lemma server_connect_to_safe (sock : socket_t) (th : option handle)
    (fwd flag : bool) (thread : thread_state) (opened : bool)
    (post : bool -> ghost -> Prop) :
  (forall b flag',
      (flag = true -> flag' = true) ->
      post b (mk_ghost sock th fwd false flag' thread opened)) ->
  caller_safe l server_connect_to
    (mk_ghost sock th fwd false flag thread opened) post.
Proof.
  intros Hpost. unfold server_connect_to, connect_to_server.
  safe_run; auto.
  - apply connect_to_server_loop_safe. intros x Hx. safe_run; auto.
  - apply connect_to_server_loop_safe. intros x Hx. safe_run; auto.
Qed.

Lemma server_socket_store_ok (sock : socket_t) (th : option handle)
    (fwd flag : bool) (opened : bool) (r : socket_t) :
  sock <> l ->
  (r = l -> flag = false) ->
  store_ok l (mk_ghost sock th fwd false flag NotCreated opened)
    (set_server_socket r) r th fwd.
Proof.
  intros Hsock Hflag. split; [|split].
  - intros m (_ & Hw & Ht & Hv & Hc). repeat split; auto.
  - reflexivity.
  - intros _. cbn [g_thread g_sock g_flag]. auto.
Qed.

Lemma tunnel_forward_store_ok (g : ghost) (b : bool) :
  store_ok l g (set_tunnel_forward b) (g_sock g) (g_handle g) b.
Proof.
  split; [|split].
  - intros m (Hs & Hw & _ & Hv & Hc). repeat split; auto.
  - reflexivity.
  - intros H. contradiction.
Qed.

Lemma wait_server_thread_store_ok (g : ghost) (t : option handle) :
  store_ok l g (set_wait_server_thread t) (g_sock g) t (g_forward g).
Proof.
  split; [|split].
  - intros m (Hs & _ & Ht & Hv & Hc). repeat split; auto.
  - reflexivity.
  - intros H. contradiction.
Qed.

(** The reverse sweep leaves in [server_socket] the socket it listens
    on, [l] or another one, or an invalid one. *)
Lemma enable_tunnel_reverse_loop_safe (range : sc_port_range)
    (th : option handle) (post : bool -> ghost -> Prop) :
  (forall b sock',
      sock' <> l ->
      post b (mk_ghost sock' th false false false NotCreated false)) ->
  post true (mk_ghost l th false false false NotCreated true) ->
  forall (fuel : nat) (port : Z) (sock : socket_t),
    sock <> l ->
    caller_safe l (enable_tunnel_reverse_loop fuel range port)
      (mk_ghost sock th false false false NotCreated false) post.
Proof.
  intros Hother Hl. induction fuel as [|fuel IH]; intros port sock Hsock.
  - exact I.
  - cbn [enable_tunnel_reverse_loop].
    unfold enable_tunnel_reverse, disable_tunnel_reverse, listen_on_port.
    safe_run; auto.
    exists r1, th, false. split; [now apply server_socket_store_ok|].
    destruct (socket_eqb r1 l) eqn:E.
    + apply socket_eqb_eq in E. subst r1. safe_run; auto; exfalso;
        match goal with
        | H : server_socket ?m = l,
          H' : is_valid_socket (server_socket ?m) = false |- _ =>
            rewrite H, l_valid in H'; discriminate
        end.
    + assert (Hr : r1 <> l).
      { intros Habs. rewrite Habs, socket_eqb_refl in E. discriminate. }
      safe_run; auto.
Qed.

Lemma caller_safe_put {A : Type} (f : server -> server) (p : prog A)
    (g : ghost) (post : A -> ghost -> Prop) (sock : socket_t)
    (th : option handle) (fwd : bool) :
  store_ok l g f sock th fwd ->
  caller_safe l p (with_fields sock th fwd g) post ->
  caller_safe l (put f;; p) g post.
Proof.
  intros Hstore Hp. cbn [put bind caller_safe]. eauto.
Qed.

Lemma enable_tunnel_forward_any_port_safe (range : sc_port_range)
    (sock : socket_t) (th : option handle) (fwd : bool)
    (post : bool -> ghost -> Prop) :
  (forall b, post b (mk_ghost sock th true false false NotCreated false)) ->
  caller_safe l (enable_tunnel_forward_any_port range)
    (mk_ghost sock th fwd false false NotCreated false) post.
Proof.
  intros Hpost. unfold enable_tunnel_forward_any_port.
  eapply caller_safe_put; [apply tunnel_forward_store_ok|].
  apply quiet_safe; [apply quiet_enable_tunnel_forward_loop|].
  intros b. apply Hpost.
Qed.

(** After [enable_tunnel_any_port], either [l] is the server socket,
    freshly opened, and [tunnel_forward] is still clear, or [l] is not
    open at all. *)
Lemma enable_tunnel_any_port_safe (range : sc_port_range) (force : bool)
    (sock : socket_t) (th : option handle) (post : bool -> ghost -> Prop) :
  sock <> l ->
  (forall b sock' fwd',
      sock' <> l ->
      post b (mk_ghost sock' th fwd' false false NotCreated false)) ->
  post true (mk_ghost l th false false false NotCreated true) ->
  caller_safe l (enable_tunnel_any_port range force)
    (mk_ghost sock th false false false NotCreated false) post.
Proof.
  intros Hsock Hother Hl. unfold enable_tunnel_any_port.
  destruct force; cbn [negb].
  - apply enable_tunnel_forward_any_port_safe. auto.
  - apply caller_safe_bind. unfold enable_tunnel_reverse_any_port.
    apply enable_tunnel_reverse_loop_safe; auto.
    intros [|] sock' Hsock'; cbn [caller_safe]; auto.
    apply enable_tunnel_forward_any_port_safe. auto.
Qed.

Lemma server_start_error1_safe (g : ghost) (post : bool -> ghost -> Prop) :
  post false g -> caller_safe l server_start_error1 g post.
Proof.
  intros Hpost. unfold server_start_error1. safe_run. exact Hpost.
Qed.

(** The unwinding from [error2] closes the server socket when
    [tunnel_forward] is clear. *)
Lemma server_start_error2_safe (sock : socket_t) (th : option handle)
    (fwd opened : bool) (post : bool -> ghost -> Prop) :
  (opened = true -> sock = l /\ fwd = false) ->
  (forall g', settled l g' -> post false g') ->
  caller_safe l server_start_error2
    (mk_ghost sock th fwd false false NotCreated opened) post.
Proof.
  intros Hopened Hpost. unfold server_start_error2.
  safe_run;
    try (apply server_start_error1_safe; apply Hpost; intros Ho;
         cbn [g_sock g_flag g_own g_thread g_opened g_forward] in *;
         repeat match goal with
                | H : negb _ = false |- _ => apply negb_false_iff in H
                end;
         destruct (Hopened Ho) as [-> ->]; repeat split; auto;
         try discriminate; congruence).
Qed.

(** The end of [server_start]: the thread is created over a program
    that keeps the discipline, or the start is unwound. *)
Lemma server_start_thread_safe (sock : socket_t) (th : option handle)
    (fwd opened : bool) (post : bool -> ghost -> Prop) :
  (opened = true -> sock = l /\ fwd = false) ->
  (forall g', settled l g' -> post false g') ->
  (forall t, post true (mk_ghost sock (Some t) fwd false false (Running t) opened)) ->
  caller_safe l server_start_thread
    (mk_ghost sock th fwd false false NotCreated opened) post.
Proof.
  intros Hopened Hfail Hok. unfold server_start_thread.
  cbn [bind ext caller_safe caller_call_ok answer_ok caller_after g_thread g_sock].
  split; [split; [reflexivity|apply run_wait_server_safe]|].
  intros [t|] _; unfold with_thread;
    cbn [g_sock g_handle g_forward g_own g_flag g_thread g_opened
         put bind caller_safe].
  - eexists _, (Some t), _. split; [apply wait_server_thread_store_ok|].
    safe_run; auto. congruence.
  - eexists _, None, _. split; [apply wait_server_thread_store_ok|].
    safe_run; try congruence; now apply server_start_error2_safe.
Qed.

(** [server_start] returns [false] with everything settled, or [true]
    with the thread running and no close due. *)
Lemma server_start_safe (prefix version : string) (ser : option string)
    (params : server_params) (sock : socket_t) (th : option handle)
    (post : bool -> ghost -> Prop) :
  sock <> l ->
  (forall g', settled l g' -> post false g') ->
  (forall sock' fwd' t opened',
      (opened' = true -> sock' = l) ->
      post true (mk_ghost sock' (Some t) fwd' false false (Running t) opened')) ->
  caller_safe l (server_start prefix version ser params)
    (mk_ghost sock th false false false NotCreated false) post.
Proof.
  intros Hsock Hfail Hok. unfold server_start.
  assert (Hunopened : forall sock' fwd',
             settled l (mk_ghost sock' th fwd' false false NotCreated false)).
  { intros sock' fwd' Ho. discriminate Ho. }
  assert (Hrest : forall duplicated,
             caller_safe l
               (if negb duplicated then Ret false
                else
                  direct' <- get direct;;
                  if direct' then
                    started <- execute_server_curl version params;;
                    if negb started then server_start_error2
                    else server_start_thread
                  else
                    pushed <- push_server prefix ser;;
                    if negb pushed then server_start_error1
                    else
                      tunnel <- enable_tunnel_any_port (params_port_range params)
                                  (force_adb_forward params);;
                      if negb tunnel then server_start_error1
                      else
                        process' <- execute_server_adb version params;;
                        put (set_process process');;
                        own <- get process;;
                        if process_eqb own PROCESS_NONE then server_start_error2
                        else server_start_thread)
               (mk_ghost sock th false false false NotCreated false) post).
  { intros [|]; cbn [negb caller_safe]; [|now apply Hfail].
    cbn [get bind caller_safe]. intros m _.
    destruct (direct m).
    - quiet_call_step (quiet_execute_server_curl version params).
      destruct a; cbn [negb].
      + apply server_start_thread_safe;
          [discriminate|exact Hfail|intros t; apply Hok; discriminate].
      + apply server_start_error2_safe; [discriminate|exact Hfail].
    - quiet_call_step (quiet_push_server prefix ser).
      destruct a; cbn [negb];
        [|apply server_start_error1_safe; now apply Hfail].
      apply caller_safe_bind. apply enable_tunnel_any_port_safe; [exact Hsock| |].
      + intros [|] sock' fwd' Hsock'; cbn [negb];
          [|apply server_start_error1_safe; now apply Hfail].
        quiet_call_step (quiet_execute_server_adb version params).
        safe_run.
        * apply server_start_error2_safe; [discriminate|exact Hfail].
        * apply server_start_thread_safe;
            [discriminate|exact Hfail|intros t; apply Hok; discriminate].
      + cbn [negb].
        quiet_call_step (quiet_execute_server_adb version params).
        safe_run.
        * apply server_start_error2_safe; [auto|exact Hfail].
        * apply server_start_thread_safe;
            [auto|exact Hfail|intros t; apply Hok; auto]. }
  eapply caller_safe_put; [apply quiet_store_ok; keeps_fields|].
  rewrite with_fields_same. apply caller_safe_bind.
  match goal with |- caller_safe _ _ _ ?Q => set (post' := Q) end.
  destruct ser as [text|]; safe_run; unfold post'; apply Hrest.
Qed.

(** The whole session of the caller keeps the discipline and ends
    settled. *)
Lemma session_safe (prefix version : string) (ser : option string)
    (params : server_params) (connect : bool) (sock : socket_t)
    (th : option handle) :
  sock <> l ->
  caller_safe l (session prefix version ser params connect)
    (mk_ghost sock th false false false NotCreated false)
    (fun _ g' => settled l g').
Proof.
  intros Hsock. unfold session. apply caller_safe_bind.
  apply server_start_safe; [exact Hsock|auto|].
  intros sock' fwd' t opened' Hopened.
  assert (Hstop : forall flag,
             caller_safe l server_stop
               (mk_ghost sock' (Some t) fwd' false flag (Running t) opened')
               (fun _ g' => settled l g')).
  { intros flag. apply server_stop_safe.
    - intros t' Ht. now injection Ht as ->.
    - intros flag' Hflag Ho. cbn [g_sock g_flag g_own g_thread g_opened].
      repeat split; auto. discriminate. }
  destruct connect; cbn [when].
  - apply caller_safe_bind_assoc. apply caller_safe_bind.
    apply server_connect_to_safe. intros b flag' _. cbn [bind caller_safe].
    apply Hstop.
  - cbn [bind]. apply Hstop.
Qed.

(** *** The invariant along an execution *)

Lemma close_once_step (c c' : config) :
  close_once l c ->
  step c c' ->
  existsb (reuses l) (history c') = false ->
  close_once l c'.
Proof.
  intros Hinv Hstep Hfresh.
  destruct Hstep as [m h p ts label m' p' _ Hthread Hreturn
                    |m h p ts1 ts2 th q label m' q' _ Hthread _];
    cbn [history] in Hfresh; rewrite existsb_app in Hfresh;
    apply orb_false_elim in Hfresh; destruct Hfresh as [_ Hlabel].
  - now apply close_once_caller_step with (m := m) (p := p).
  - now apply close_once_thread_step with (m := m) (q := q).
Qed.

Lemma step_history (c c' : config) :
  step c c' -> exists label, history c' = history c ++ label.
Proof.
  intros [m h p ts label m' p' _ _ _|m h p ts1 ts2 th q label m' q' _ _ _];
    now exists label.
Qed.

Lemma close_once_steps (c c' : config) :
  steps c c' ->
  close_once l c ->
  existsb (reuses l) (history c') = false ->
  close_once l c'.
Proof.
  induction 1 as [c|c1 c2 c3 Hsteps IH Hstep]; intros Hinv Hfresh; auto.
  apply close_once_step with (c := c2); auto. apply IH; auto.
  destruct (step_history c2 c3 Hstep) as [label Hlabel].
  rewrite Hlabel, existsb_app in Hfresh.
  now apply orb_false_elim in Hfresh.
Qed.

(** The invariant holds when the session begins. *)
Lemma close_once_initially (prefix version : string) (ser : option string)
    (params : server_params) (connect : bool) (m0 : server) :
  server_socket m0 = INVALID_SOCKET ->
  video_socket m0 = INVALID_SOCKET ->
  control_socket m0 = INVALID_SOCKET ->
  tunnel_forward m0 = false ->
  server_socket_closed m0 = false ->
  close_once l (mk_config m0 [] (session prefix version ser params connect) []).
Proof.
  intros Hs Hv Hc Ht Hf.
  exists (mk_ghost INVALID_SOCKET (wait_server_thread m0) false false false
            NotCreated false), false.
  cbn [caller memory threads history g_sock g_own g_flag g_thread g_opened].
  split; [apply session_safe; apply invalid_is_not_l|].
  split.
  { repeat split; cbn [g_sock g_handle g_forward]; auto;
      [rewrite Hv|rewrite Hc]; apply invalid_is_not_l. }
  split; [now constructor|]. rewrite Hf. cbn.
  repeat split; auto; try discriminate; try lia.
Qed.

End Soundness.

(** ** The scheduler runs executions of the interleaving semantics *)

Lemma thread_next_sound {A : Type} (env : oracle) (m : server) (h : list event)
    (p : prog A) (label : list event) (m' : server) (p' : prog A) :
  thread_next env m h p = Some (label, m', p') -> thread_step m p label m' p'.
Proof.
  destruct p; cbn [thread_next]; intros H; try discriminate H;
    injection H as <- <- <-; constructor.
Qed.

Lemma is_aborted_sound {A : Type} (p : prog A) :
  is_aborted p = false -> ~ aborted p.
Proof.
  intros H [msg ->]. discriminate H.
Qed.

Lemma is_alive_sound (c : config) : is_alive c = true -> alive c.
Proof.
  unfold is_alive, alive. intros H. apply andb_prop in H. destruct H as [Hc Ht].
  split.
  - apply is_aborted_sound. now apply negb_true_iff.
  - intros th q Hin. apply is_aborted_sound.
    rewrite forallb_forall in Ht. specialize (Ht (th, q) Hin).
    now apply negb_true_iff.
Qed.

Lemma is_finished_sound {A : Type} (p : prog A) :
  is_finished p = true -> finished p.
Proof.
  destruct p; try discriminate. intros _. now eexists.
Qed.

Lemma can_return_sound (ts : list (handle * prog Z)) (label : list event) :
  can_return ts label = true -> may_return ts label.
Proof.
  unfold can_return, may_return. intros H e th q He Hjoin Hin.
  rewrite forallb_forall in H. specialize (H e He). rewrite Hjoin in H.
  rewrite forallb_forall in H. specialize (H (th, q) Hin). cbn [fst snd] in H.
  rewrite Z.eqb_refl in H. now apply is_finished_sound.
Qed.

Lemma move_thread_sound (env : oracle) (m : server) (h : list event)
    (th : handle) (all : list (handle * prog Z)) :
  forall (ts : list (handle * prog Z)) (label : list event) (m' : server)
         (ts' : list (handle * prog Z)),
    move_thread env m h th all ts = Some (label, m', ts') ->
    exists ts1 th' q q' ts2,
      ts = ts1 ++ (th', q) :: ts2
      /\ ts' = ts1 ++ (th', q') :: ts2
      /\ thread_step m q label m' q'
      /\ may_return all label.
Proof.
  induction ts as [|[th' q] ts IH]; intros label m' ts' H; cbn [move_thread] in H;
    [discriminate H|].
  destruct (th' =? th).
  - destruct (thread_next env m h q) as [[[label0 m0] q0]|] eqn:Hnext;
      [|discriminate H].
    destruct (can_return all label0) eqn:Hret; [|discriminate H].
    injection H as <- <- <-.
    exists [], th', q, q0, ts. repeat split; auto.
    + now apply thread_next_sound with (env := env) (h := h).
    + now apply can_return_sound.
  - destruct (move_thread env m h th all ts) as [[[label0 m0] ts0]|] eqn:Hmove;
      [|discriminate H].
    injection H as <- <- <-.
    destruct (IH _ _ _ eq_refl) as (ts1 & th1 & q1 & q1' & ts2 & -> & -> & Hstep & Hret).
    exists ((th', q) :: ts1), th1, q1, q1', ts2. repeat split; auto.
Qed.

Lemma schedule_step_sound (env : oracle) (who : option handle) (c : config) :
  schedule_step env who c = c \/ step c (schedule_step env who c).
Proof.
  unfold schedule_step. destruct (is_alive c) eqn:Halive; [|now left].
  apply is_alive_sound in Halive. destruct c as [m h p ts].
  cbn [memory history caller threads] in *. destruct who as [th|].
  - destruct (move_thread env m h th ts ts) as [[[label m'] ts']|] eqn:Hmove;
      [|now left].
    apply move_thread_sound in Hmove.
    destruct Hmove as (ts1 & th' & q & q' & ts2 & -> & -> & Hstep & Hret).
    right. now constructor.
  - destruct (thread_next env m h p) as [[[label m'] p']|] eqn:Hnext; [|now left].
    destruct (can_return ts label) eqn:Hret; [|now left].
    right. constructor; auto.
    + now apply thread_next_sound with (env := env) (h := h).
    + now apply can_return_sound.
Qed.

Lemma schedule_run_steps (env : oracle) (schedule : list (option handle)) :
  forall c, steps c (schedule_run env schedule c).
Proof.
  assert (Htrans : forall c1 c2 c3, steps c2 c3 -> steps c1 c2 -> steps c1 c3).
  { intros c1 c2 c3 H. induction H as [c|c2 c3 c4 H23 IH34 Hstep]; intros H12;
      [assumption|].
    apply steps_then with (c2 := c3); [now apply IH34|exact Hstep]. }
  induction schedule as [|who schedule IH]; intros c; cbn [schedule_run].
  - constructor.
  - apply Htrans with (c2 := schedule_step env who c); [apply IH|].
    destruct (schedule_step_sound env who c) as [-> | Hstep].
    + constructor.
    + eapply steps_then; [constructor|exact Hstep].
Qed.

(** ** The listening socket is closed exactly once *)

(** C1.  Take a server as [server_init] leaves it and a caller that
    starts it and, if that succeeded, connects or not and then stops
    it, while the thread created by [server_start] runs
    [run_wait_server]; take any interleaving of the two threads and any
    answers of the collaborators in which no [net_connect] or
    [net_accept] returns the descriptor [l] again.  Then [net_close] is
    called at most once on [l] at every point of the execution, and
    exactly once when a [net_listen] returned [l] and the caller is
    done. *)
Theorem listening_socket_closed_exactly_once :
  forall (prefix version : string) (ser : option string)
         (params : server_params) (connect : bool) (m0 : server)
         (l : socket_t) (c : config),
    is_valid_socket l = true ->
    server_socket m0 = INVALID_SOCKET ->
    video_socket m0 = INVALID_SOCKET ->
    control_socket m0 = INVALID_SOCKET ->
    tunnel_forward m0 = false ->
    server_socket_closed m0 = false ->
    steps (mk_config m0 [] (session prefix version ser params connect) []) c ->
    existsb (reuses l) (history c) = false ->
    count_events (closes l) (history c) <= 1
    /\ (existsb (listens l) (history c) = true ->
        finished (caller c) ->
        count_events (closes l) (history c) = 1).
Proof.
  intros prefix version ser params connect m0 l c Hl Hs Hv Hc Ht Hf Hsteps Hfresh.
  assert (Hinv : close_once l c).
  { apply close_once_steps with (c := mk_config m0 []
                                        (session prefix version ser params connect) []);
      auto.
    now apply close_once_initially. }
  destruct Hinv as (g & own & Hsafe & Hview & Hthreads & Hle & Heq & Hflag & _ & Hopen).
  pose proof (count_events_nonneg (closes l) (history c)) as Hpos.
  split.
  - destruct (g_own g), own, (server_socket_closed (memory c));
      cbn [Z.b2z] in Hle; lia.
  - intros Hlisten [a Hdone]. rewrite Hdone in Hsafe. cbn [caller_safe] in Hsafe.
    destruct (Hsafe (Hopen Hlisten)) as (Hsock & Hset & Hown & Hthread).
    assert (Hnone : own = false).
    { destruct Hthreads as [_|th q own Hrun _|th b _]; auto.
      exfalso. now apply (Hthread th). }
    specialize (Heq Hsock). rewrite (Hflag Hset), Hown, Hnone in Heq.
    cbn [Z.b2z] in Heq. lia.
Qed.

(** The session [reverse_session]: the listening socket is descriptor
    12, and it is closed once, by [server_connect_to]. *)
Lemma listening_socket_closed_exactly_once_witness :
  is_valid_socket (Socket 12) = true
  /\ existsb (reuses (Socket 12)) (history reverse_session) = false
  /\ existsb (listens (Socket 12)) (history reverse_session) = true
  /\ finished (caller reverse_session)
  /\ count_events (closes (Socket 12)) (history reverse_session) = 1.
Proof.
  assert (Hfresh : existsb (reuses (Socket 12)) (history reverse_session) = false)
    by (vm_compute; reflexivity).
  assert (Hlisten : existsb (listens (Socket 12)) (history reverse_session) = true)
    by (vm_compute; reflexivity).
  assert (Hdone : finished (caller reverse_session))
    by (exists tt; vm_compute; reflexivity).
  destruct (listening_socket_closed_exactly_once "/usr/local" "1.17" None
              default_params true initialized (Socket 12) reverse_session
              eq_refl eq_refl eq_refl eq_refl eq_refl eq_refl
              (schedule_run_steps _ _ _) Hfresh) as [_ Hexact].
  repeat split; auto.
Defined.

(** ** The direct mode: start and stop *)

(** [server_stop] reaches its assertion on [process] whatever the
    sockets are, and fails there when no process was recorded. *)
Lemma server_stop_without_process (env : oracle) (s : server) (h : list event) :
  process s = PROCESS_NONE ->
  exists s' h',
    run env server_stop s h
    = (Aborted "server->process != PROCESS_NONE", s', h').
Proof.
  intros Hprocess. unfold server_stop, close_socket.
  run_head. 
  destruct (is_valid_socket (server_socket s)) eqn:Hserver; run_head.
  - destruct (server_socket_closed s); run_head.
    + destruct (is_valid_socket (video_socket s)) eqn:Hvideo; run_head;
        rewrite ?Hvideo; run_head;
        destruct (is_valid_socket (control_socket s)) eqn:Hcontrol; run_head;
        rewrite ?Hcontrol; run_head; rewrite Hprocess; cbn; eauto.
    + rewrite Hserver. run_head.
      destruct (is_valid_socket (video_socket s)) eqn:Hvideo; run_head;
        rewrite ?Hvideo; run_head;
        destruct (is_valid_socket (control_socket s)) eqn:Hcontrol; run_head;
        rewrite ?Hcontrol; run_head; rewrite Hprocess; cbn; eauto.
  - destruct (is_valid_socket (video_socket s)) eqn:Hvideo; run_head;
      rewrite ?Hvideo; run_head;
      destruct (is_valid_socket (control_socket s)) eqn:Hcontrol; run_head;
      rewrite ?Hcontrol; run_head; rewrite Hprocess; cbn; eauto.
Qed.

Lemma run_server_start_error1 (env : oracle) (s : server) (h : list event) :
  run env server_start_error1 s h
  = (Done false, s, h ++ [Ev (SDL_free (serial s)) (env h _ (SDL_free (serial s)))]).
Proof.
  reflexivity.
Qed.

(** The unwinding from [error2] never reports a success. *)
Lemma server_start_error2_not_true (env : oracle) (s : server) (h : list event)
    (s1 : server) (h1 : list event) :
  run env server_start_error2 s h <> (Done true, s1, h1).
Proof.
  unfold server_start_error2. rewrite run_get_bind, !run_bind.
  destruct (run env (when (negb (tunnel_forward s)) _) s h) as [[o s'] h'].
  destruct o as [u|msg|]; try discriminate.
  rewrite run_get_bind, run_bind.
  destruct (run env (if direct s' then _ else _) s' h') as [[o s''] h''].
  destruct o as [u'|msg|]; discriminate.
Qed.

(** When it reports a success, the end of [server_start] has recorded
    the thread and set [tunnel_enabled], and nothing else. *)
Lemma server_start_thread_true (env : oracle) (s : server) (h : list event)
    (s1 : server) (h1 : list event) :
  run env server_start_thread s h = (Done true, s1, h1) ->
  exists t,
    s1 = set_tunnel_enabled true (set_wait_server_thread (Some t) s)
    /\ h1 = h ++ [Ev (SDL_CreateThread RUN_WAIT_SERVER "wait-server") (Some t)].
Proof.
  unfold server_start_thread. intros Hrun. run_head_in Hrun.
  destruct (env h _ (SDL_CreateThread RUN_WAIT_SERVER "wait-server")) as [t|];
    run_head_in Hrun.
  - injection Hrun as <- <-. now exists t.
  - now apply server_start_error2_not_true in Hrun.
Qed.

(** In the direct mode a [server_start] that succeeds never touches
    [process]. *)
Lemma server_start_direct_success (prefix version : string) (env : oracle)
    (ser : option string) (params : server_params) (s : server)
    (h : list event) (s1 : server) (h1 : list event) :
  direct s = true ->
  run env (server_start prefix version ser params) s h = (Done true, s1, h1) ->
  process s1 = process s /\ direct s1 = true.
Proof.
  intros Hdirect Hrun.
  assert (Htail : forall s0 h0,
             direct s0 = true -> process s0 = process s ->
             run env
               (direct' <- get direct;;
                if direct' then
                  started <- execute_server_curl version params;;
                  if negb started then server_start_error2
                  else server_start_thread
                else
                  pushed <- push_server prefix ser;;
                  if negb pushed then server_start_error1
                  else
                    tunnel <- enable_tunnel_any_port (params_port_range params)
                                (force_adb_forward params);;
                    if negb tunnel then server_start_error1
                    else
                      process' <- execute_server_adb version params;;
                      put (set_process process');;
                      own <- get process;;
                      if process_eqb own PROCESS_NONE then server_start_error2
                      else server_start_thread) s0 h0 = (Done true, s1, h1) ->
             process s1 = process s /\ direct s1 = true).
  { intros s0 h0 Hd Hp H. rewrite run_get_bind, Hd in H.
    rewrite run_bind in H. unfold execute_server_curl in H.
    cbn [get ext bind run] in H.
    destruct (negb (curl_response_ok _ _)).
    - now apply server_start_error2_not_true in H.
    - apply server_start_thread_true in H. destruct H as (t & -> & _).
      cbn [process direct set_tunnel_enabled set_wait_server_thread]. auto. }
  unfold server_start in Hrun. rewrite run_put_bind, run_bind in Hrun.
  destruct ser as [text|].
  - rewrite run_ext_bind, run_put_bind, run_get_bind in Hrun.
    cbn [run serial set_serial] in Hrun.
    destruct (env h _ (SDL_strdup text)); cbn [negb] in Hrun;
      [|discriminate Hrun].
    now apply Htail in Hrun.
  - cbn [run negb] in Hrun. now apply Htail in Hrun.
Qed.

(** C2, what the code does in the direct mode.  A [server_start] that
    succeeds in the direct mode leaves [process] at [PROCESS_NONE], as
    [server_init] set it; [server_stop] on the started server, whatever
    the thread did in between to the fields it writes, then fails its
    assertion [server->process != PROCESS_NONE]. *)
Theorem server_stop_after_direct_start_fails :
  forall (prefix version : string) (env : oracle) (ser : option string)
         (params : server_params) (s : server) (h : list event)
         (s1 : server) (h1 : list event),
    direct s = true ->
    process s = PROCESS_NONE ->
    run env (server_start prefix version ser params) s h = (Done true, s1, h1) ->
    forall (env' : oracle) (s2 : server) (h2 : list event),
      process s2 = process s1 ->
      exists s3 h3,
        run env' server_stop s2 h2
        = (Aborted "server->process != PROCESS_NONE", s3, h3).
Proof.
  intros prefix version env ser params s h s1 h1 Hdirect Hnone Hrun env' s2 h2 Hsame.
  apply server_stop_without_process.
  destruct (server_start_direct_success prefix version env ser params s h s1 h1
              Hdirect Hrun) as [Hprocess _].
  congruence.
Qed.

(** The direct mode with an endpoint that answers [success]. *)
Lemma server_stop_after_direct_start_fails_witness :
  direct initialized_direct = true
  /\ process initialized_direct = PROCESS_NONE
  /\ fst (fst (run accept_all (server_start "/usr/local" "1.17" None default_params)
                 initialized_direct [])) = Done true
  /\ exists s3 h3,
       run accept_all server_stop
         (snd (fst (run accept_all
                      (server_start "/usr/local" "1.17" None default_params)
                      initialized_direct [])))
         (snd (run accept_all (server_start "/usr/local" "1.17" None default_params)
                 initialized_direct []))
       = (Aborted "server->process != PROCESS_NONE", s3, h3).
Proof.
  assert (Hrun : run accept_all (server_start "/usr/local" "1.17" None default_params)
                   initialized_direct []
                 = (Done true,
                    snd (fst (run accept_all
                                (server_start "/usr/local" "1.17" None default_params)
                                initialized_direct [])),
                    snd (run accept_all
                           (server_start "/usr/local" "1.17" None default_params)
                           initialized_direct [])))
    by (vm_compute; reflexivity).
  split; [reflexivity|]. split; [reflexivity|].
  split; [vm_compute; reflexivity|].
  exact (server_stop_after_direct_start_fails "/usr/local" "1.17" accept_all None
           default_params initialized_direct [] _ _ eq_refl eq_refl Hrun
           accept_all _ _ eq_refl).
Defined.

(** With [tunnel_forward] clear and no server socket, the unwinding
    from [error2] fails the assertion of [close_socket] before it calls
    anything. *)
Lemma server_start_error2_invalid_socket (env : oracle) (s : server)
    (h : list event) :
  tunnel_forward s = false ->
  server_socket s = INVALID_SOCKET ->
  server_socket_closed s = false ->
  run env server_start_error2 s h
  = (Aborted "socket != INVALID_SOCKET", set_server_socket_closed true s, h).
Proof.
  intros Hforward Hsocket Hflag. unfold server_start_error2, close_socket.
  run_head. rewrite Hforward. run_head. rewrite Hflag. run_head.
  rewrite Hsocket. reflexivity.
Qed.

(** C3, what the code does.  In the direct mode, on a server as
    [server_init] leaves it ([tunnel_forward] clear, no server socket,
    flag clear), when the HTTP start request does not answer [success],
    [server_start] does not return: it takes the flag and fails the
    assertion [socket != INVALID_SOCKET] of [close_socket].  The request
    to [startScrcpy] is the last call it makes: neither the request to
    [stopScrcpy] nor [SDL_free] is reached. *)
Theorem server_start_direct_failure_aborts :
  forall (prefix version : string) (env : oracle) (params : server_params)
         (s : server) (h : list event),
    direct s = true ->
    tunnel_forward s = false ->
    server_socket s = INVALID_SOCKET ->
    server_socket_closed s = false ->
    curl_response_ok
      (fst (env h _ (curl_get (start_url version (url s) params) 1024)))
      (snd (env h _ (curl_get (start_url version (url s) params) 1024))) = false ->
    run env (server_start prefix version None params) s h
    = (Aborted "socket != INVALID_SOCKET",
       set_server_socket_closed true (set_port_range (params_port_range params) s),
       h ++ [Ev (curl_get (start_url version (url s) params) 1024)
               (env h _ (curl_get (start_url version (url s) params) 1024))]).
Proof.
  intros prefix version env params s h Hdirect Hforward Hsocket Hflag Hanswer.
  unfold server_start. rewrite run_put_bind. cbn [bind negb].
  rewrite run_get_bind. cbn [direct set_port_range]. rewrite Hdirect.
  rewrite run_bind. unfold execute_server_curl. cbn [get ext bind run].
  change (url (set_port_range (params_port_range params) s)) with (url s).
  rewrite Hanswer. cbn [negb].
  now apply server_start_error2_invalid_socket.
Qed.

(** The direct mode with an endpoint that answers with an error. *)
Lemma server_start_direct_failure_aborts_witness :
  direct initialized_direct = true
  /\ tunnel_forward initialized_direct = false
  /\ server_socket initialized_direct = INVALID_SOCKET
  /\ server_socket_closed initialized_direct = false
  /\ fst (fst (run http_down (server_start "/usr/local" "1.17" None default_params)
                 initialized_direct []))
     = Aborted "socket != INVALID_SOCKET".
Proof.
  repeat (split; [reflexivity|]).
  rewrite (server_start_direct_failure_aborts "/usr/local" "1.17" http_down
             default_params initialized_direct [] eq_refl eq_refl eq_refl eq_refl
             eq_refl).
  reflexivity.
Defined.

(** ** Postconditions: soundness and composition *)

Lemma ensures_run {A : Type} (env : oracle) (p : prog A)
    (Q : A -> server -> list event -> Prop) :
  forall (s : server) (t : list event),
    ensures p Q s t ->
    forall h, exists a s' t',
      run env p s (h ++ t) = (Done a, s', h ++ t') /\ Q a s' t'.
Proof.
  induction p as [a|msg| |k IH|g k IH|k IH|R c k IH]; intros s t Hp h;
    cbn [ensures] in Hp; cbn [run]; try contradiction; eauto.
  destruct (IH _ _ _ (Hp (env (h ++ t) _ c)) h) as (a & s' & t' & Hrun & HQ).
  exists a, s', t'. now rewrite <- app_assoc.
Qed.

Lemma ensures_bind {A B : Type} (p : prog A) (f : A -> prog B)
    (Q : B -> server -> list event -> Prop) :
  forall (s : server) (t : list event),
    ensures p (fun a s' t' => ensures (f a) Q s' t') s t ->
    ensures (bind p f) Q s t.
Proof.
  induction p as [a|msg| |k IH|g k IH|k IH|R c k IH]; intros s t Hp;
    cbn [ensures bind] in *; auto.
Qed.

Lemma ensures_mono {A : Type} (p : prog A)
    (Q Q' : A -> server -> list event -> Prop) :
  (forall a s t, Q a s t -> Q' a s t) ->
  forall (s : server) (t : list event), ensures p Q s t -> ensures p Q' s t.
Proof.
  intros HQ. induction p as [a|msg| |k IH|g k IH|k IH|R c k IH]; intros s t Hp;
    cbn [ensures] in *; auto.
Qed.

(** From the start of a history. *)
Lemma ensures_run_nil {A : Type} (env : oracle) (p : prog A)
    (Q : A -> server -> list event -> Prop) (s : server) (h : list event) :
  ensures p Q s [] ->
  exists a s' t, run env p s h = (Done a, s', h ++ t) /\ Q a s' t.
Proof.
  intros Hp. destruct (ensures_run env p Q s [] Hp h) as (a & s' & t & Hrun & HQ).
  rewrite app_nil_r in Hrun. eauto.
Qed.

(** ** server_init and server_destroy *)

(** The state a successful [server_init] leaves, by the two handles. *)
Lemma run_server_init_true (env : oracle) (s : server) (h : list event)
    (s' : server) (h' : list event) :
  run env server_init s h = (Done true, s', h') ->
  exists m c,
    env h _ SDL_CreateMutex = Some m
    /\ env (h ++ [Ev SDL_CreateMutex (Some m)]) _ SDL_CreateCond = Some c
    /\ s' = mk_server None None 0 PROCESS_NONE None false (Some m) (Some c) false
              INVALID_SOCKET INVALID_SOCKET INVALID_SOCKET (mk_port_range 0 0) 0
              false false false
    /\ h' = h ++ [Ev SDL_CreateMutex (Some m); Ev SDL_CreateCond (Some c)].
Proof.
  unfold server_init. intros Hrun. run_head_in Hrun.
  destruct (env h _ SDL_CreateMutex) as [m|] eqn:Hm; run_head_in Hrun;
    [|discriminate Hrun].
  destruct (env (h ++ [Ev SDL_CreateMutex (Some m)]) _ SDL_CreateCond)
    as [c|] eqn:Hc; run_head_in Hrun; [|discriminate Hrun].
  injection Hrun as <- <-. exists m, c. rewrite <- app_assoc. auto.
Qed.

Lemma run_server_init_from (env : oracle) (s : server) (h : list event)
    (m c : handle) :
  env h _ SDL_CreateMutex = Some m ->
  env (h ++ [Ev SDL_CreateMutex (Some m)]) _ SDL_CreateCond = Some c ->
  run env server_init s h
  = (Done true,
     mk_server None None 0 PROCESS_NONE None false (Some m) (Some c) false
       INVALID_SOCKET INVALID_SOCKET INVALID_SOCKET (mk_port_range 0 0) 0
       false false false,
     h ++ [Ev SDL_CreateMutex (Some m); Ev SDL_CreateCond (Some c)]).
Proof.
  intros Hm Hc. unfold server_init. run_head. rewrite Hm. run_head.
  rewrite Hc. run_head. now rewrite <- app_assoc.
Qed.

(** [server_init] assigns every field of the structure: when it
    succeeds, the state it leaves is fixed by the two handles SDL
    returned, whatever the structure held before; in that state no
    socket is open, no process recorded, the flag is clear and no mode
    is selected. *)
Theorem server_init_overwrites_every_field :
  forall (env : oracle) (s1 s2 : server) (h : list event)
         (s' : server) (h' : list event),
    run env server_init s1 h = (Done true, s', h') ->
    run env server_init s2 h = (Done true, s', h')
    /\ exists m c,
         s' = mk_server None None 0 PROCESS_NONE None false (Some m) (Some c)
                false INVALID_SOCKET INVALID_SOCKET INVALID_SOCKET
                (mk_port_range 0 0) 0 false false false
         /\ h' = h ++ [Ev SDL_CreateMutex (Some m); Ev SDL_CreateCond (Some c)].
Proof.
  intros env s1 s2 h s' h' Hrun.
  destruct (run_server_init_true env s1 h s' h' Hrun) as (m & c & Hm & Hc & -> & ->).
  split; [now apply run_server_init_from|eauto].
Qed.

(** A structure that was in use is initialised again. *)
Lemma server_init_overwrites_every_field_witness :
  run accept_all server_init initialized_direct [] = (Done true, initialized, [Ev SDL_CreateMutex (Some 1); Ev SDL_CreateCond (Some 2)])
  /\ run accept_all server_init initialized []
     = (Done true, initialized,
        [Ev SDL_CreateMutex (Some 1); Ev SDL_CreateCond (Some 2)]).
Proof.
  assert (Hrun : run accept_all server_init initialized_direct []
                 = (Done true, initialized,
                    [Ev SDL_CreateMutex (Some 1); Ev SDL_CreateCond (Some 2)]))
    by reflexivity.
  split; [exact Hrun|].
  exact (proj1 (server_init_overwrites_every_field accept_all initialized_direct
                  initialized [] _ _ Hrun)).
Defined.

Lemma server_init_ensures (s : server) :
  ensures server_init
    (fun b s' t =>
       if b then
         exists m c,
           t = [Ev SDL_CreateMutex (Some m); Ev SDL_CreateCond (Some c)]
       else
         t = [Ev SDL_CreateMutex None]
         \/ exists m,
              t = [Ev SDL_CreateMutex (Some m); Ev SDL_CreateCond None;
                   Ev (SDL_DestroyMutex (Some m)) tt])
    s [].
Proof.
  unfold server_init. cbn. intros [m|]; cbn; [|now left].
  intros [c|]; cbn; [eauto|]. intros []. right. eauto.
Qed.

(** [server_init] always returns.  When it fails it has made no other
    call than these: the creation of a mutex that failed, or the
    creation of a mutex, the creation of a condition variable that
    failed, and the destruction of that mutex.  No handle is left
    behind by a failed [server_init]. *)
Theorem server_init_failure_releases_mutex :
  forall (env : oracle) (s : server) (h : list event),
    exists b s' t,
      run env server_init s h = (Done b, s', h ++ t)
      /\ (b = false ->
          t = [Ev SDL_CreateMutex None]
          \/ exists m,
               t = [Ev SDL_CreateMutex (Some m); Ev SDL_CreateCond None;
                    Ev (SDL_DestroyMutex (Some m)) tt])
      /\ (b = true ->
          exists m c,
            t = [Ev SDL_CreateMutex (Some m); Ev SDL_CreateCond (Some c)]).
Proof.
  intros env s h.
  destruct (ensures_run_nil env server_init _ s h (server_init_ensures s))
    as (b & s' & t & Hrun & Hpost).
  exists b, s', t. split; [exact Hrun|].
  split; intros ->; exact Hpost.
Qed.

Lemma run_server_destroy (env : oracle) (s : server) (h : list event) :
  run env server_destroy s h
  = (Done tt, s,
     h ++ [Ev (SDL_free (serial s)) tt; Ev (SDL_free (url s)) tt;
           Ev (SDL_DestroyCond (process_terminated_cond s)) tt;
           Ev (SDL_DestroyMutex (mutex s)) tt]).
Proof.
  unfold server_destroy. run_head. rewrite <- !app_assoc. cbn [app].
  repeat match goal with
         | |- context [env ?h0 unit ?c] => destruct (env h0 unit c)
         end.
  reflexivity.
Qed.

(** [server_destroy] on a server that was initialised and never
    started: it returns, and it destroys the condition variable and then
    the mutex that [server_init] created, each once; the two pointers it
    frees are [NULL]. *)
Theorem server_destroy_after_init :
  forall (env env' : oracle) (s : server) (h : list event)
         (s1 : server) (h1 : list event),
    run env server_init s h = (Done true, s1, h1) ->
    exists m c,
      h1 = h ++ [Ev SDL_CreateMutex (Some m); Ev SDL_CreateCond (Some c)]
      /\ run env' server_destroy s1 h1
         = (Done tt, s1,
            h1 ++ [Ev (SDL_free None) tt; Ev (SDL_free None) tt;
                   Ev (SDL_DestroyCond (Some c)) tt;
                   Ev (SDL_DestroyMutex (Some m)) tt]).
Proof.
  intros env env' s h s1 h1 Hrun.
  destruct (run_server_init_true env s h s1 h1 Hrun) as (m & c & _ & _ & -> & ->).
  exists m, c. split; [reflexivity|]. now rewrite run_server_destroy.
Qed.

Lemma server_destroy_after_init_witness :
  exists m c,
    run accept_all server_destroy initialized
      [Ev SDL_CreateMutex (Some 1); Ev SDL_CreateCond (Some 2)]
    = (Done tt, initialized,
       [Ev SDL_CreateMutex (Some 1); Ev SDL_CreateCond (Some 2)]
       ++ [Ev (SDL_free None) tt; Ev (SDL_free None) tt;
           Ev (SDL_DestroyCond (Some c)) tt;
           Ev (SDL_DestroyMutex (Some m)) tt]).
Proof.
  assert (Hrun : run accept_all server_init initialized_direct []
                 = (Done true, initialized,
                    [Ev SDL_CreateMutex (Some 1); Ev SDL_CreateCond (Some 2)]))
    by reflexivity.
  destruct (server_destroy_after_init accept_all accept_all initialized_direct
              [] _ _ Hrun) as (m & c & _ & Hdestroy).
  exists m, c. exact Hdestroy.
Defined.

(** ** server_stop *)

Lemma server_stop_ensures (s : server) :
  process_eqb (process s) PROCESS_NONE = false ->
  ensures server_stop (fun _ s' t => server_stop_post s s' t) s [].
Proof.
  destruct s as [ser base ad proc th flag mtx cnd term ssock vsock csock range
                 port enabled fwd dir].
  cbn [process]. intros Hproc.
  destruct proc as [|pid]; [discriminate Hproc|]. clear Hproc.
  unfold server_stop, close_socket, disable_tunnel, disable_tunnel_forward,
    disable_tunnel_reverse, stop_server_curl, server_stop_post.
  destruct ssock, vsock, csock, flag, enabled, fwd, dir, term; cbn; intros;
    try (match goal with
         | |- context [?r =? SDL_MUTEX_TIMEDOUT] =>
             destruct (r =? SDL_MUTEX_TIMEDOUT) eqn:Hr
         end; cbn; intros);
    repeat match goal with u : unit |- _ => destruct u end;
    (split; [reflexivity|]);
    (split; [match goal with
             | |- exists pre, ?t = _ => exists (removelast t); reflexivity
             end|]);
    unfold count_events; cbn; rewrite ?Hr, ?andb_false_r; cbn; auto 10.
Qed.

(** [connected_reverse] is the state a start and a connection reach
    when every collaborator succeeds. *)
Lemma connected_reverse_reached :
  fst (run accept_all
         (started <- server_start "/usr/local" "1.17" None default_params;;
          server_connect_to) initialized [])
  = (Done true, connected_reverse).
Proof.
  vm_compute. reflexivity.
Qed.

(** From any state that records a process, [server_stop] returns: no
    assertion fails, whatever the sockets and the modes are and whatever
    the collaborators answer.  It writes no field but the flag, which it
    sets when the server socket is valid, and the last call it makes is
    the join of the thread. *)
Theorem server_stop_completes :
  forall (env : oracle) (s : server) (h : list event),
    process_eqb (process s) PROCESS_NONE = false ->
    exists s' pre,
      run env server_stop s h
      = (Done tt, s', h ++ pre ++ [Ev (SDL_WaitThread (wait_server_thread s)) tt])
      /\ s' = (if is_valid_socket (server_socket s)
               then set_server_socket_closed true s else s).
Proof.
  intros env s h Hproc.
  destruct (ensures_run_nil env server_stop _ s h (server_stop_ensures s Hproc))
    as ([] & s' & t & Hrun & Hstate & (pre & ->) & _).
  exists s', pre. auto.
Qed.

Lemma server_stop_completes_witness :
  process_eqb (process connected_reverse) PROCESS_NONE = false
  /\ exists s' pre,
       run accept_all server_stop connected_reverse []
       = (Done tt, s',
          [] ++ pre ++ [Ev (SDL_WaitThread (wait_server_thread connected_reverse)) tt]).
Proof.
  split; [reflexivity|].
  destruct (server_stop_completes accept_all connected_reverse [] eq_refl)
    as (s' & pre & Hrun & _).
  exists s', pre. exact Hrun.
Defined.

(** The sockets [server_stop] closes, in the order of the calls: the
    server socket when it is valid and the flag was clear, then the
    video socket when it is valid, then the control socket when it is
    valid; each at most once and no other socket. *)
Theorem server_stop_closes_its_sockets :
  forall (env : oracle) (s : server) (h : list event),
    process_eqb (process s) PROCESS_NONE = false ->
    exists s' t,
      run env server_stop s h = (Done tt, s', h ++ t)
      /\ filter_map closed_socket t
         = only_if (is_valid_socket (server_socket s)
                    && negb (server_socket_closed s)) (server_socket s)
           ++ only_if (is_valid_socket (video_socket s)) (video_socket s)
           ++ only_if (is_valid_socket (control_socket s)) (control_socket s).
Proof.
  intros env s h Hproc.
  destruct (ensures_run_nil env server_stop _ s h (server_stop_ensures s Hproc))
    as ([] & s' & t & Hrun & _ & _ & Hcloses & _).
  exists s', t. auto.
Qed.

(** After a connection in the reverse mode the listener is closed
    already: [server_stop] closes the two data sockets. *)
Lemma server_stop_closes_its_sockets_witness :
  process_eqb (process connected_reverse) PROCESS_NONE = false
  /\ exists s' t,
       run accept_all server_stop connected_reverse [] = (Done tt, s', [] ++ t)
       /\ filter_map closed_socket t
          = [video_socket connected_reverse; control_socket connected_reverse].
Proof.
  split; [reflexivity|].
  destruct (server_stop_closes_its_sockets accept_all connected_reverse []
              eq_refl) as (s' & t & Hrun & Hcloses).
  exists s', t. split; [exact Hrun|exact Hcloses].
Defined.

(** [server_stop] waits for the process at most once, and not at all
    when the thread has recorded its end already; it calls
    [cmd_terminate] exactly when that wait timed out. *)
Theorem server_stop_kills_only_after_timeout :
  forall (env : oracle) (s : server) (h : list event),
    process_eqb (process s) PROCESS_NONE = false ->
    exists s' t,
      run env server_stop s h = (Done tt, s', h ++ t)
      /\ count_events is_cond_wait_timeout t
         = Z.b2z (negb (process_terminated s))
      /\ count_events is_cmd_terminate t = count_events timed_out t.
Proof.
  intros env s h Hproc.
  destruct (ensures_run_nil env server_stop _ s h (server_stop_ensures s Hproc))
    as ([] & s' & t & Hrun & _ & _ & _ & Hkill & Hwait & _).
  exists s', t. auto.
Qed.

(** The agent ends within the delay: nothing is killed. *)
Lemma server_stop_kills_only_after_timeout_witness :
  process_eqb (process connected_reverse) PROCESS_NONE = false
  /\ exists s' t,
       run accept_all server_stop connected_reverse [] = (Done tt, s', [] ++ t)
       /\ count_events is_cond_wait_timeout t = 1
       /\ count_events is_cmd_terminate t = count_events timed_out t.
Proof.
  split; [reflexivity|].
  destruct (server_stop_kills_only_after_timeout accept_all connected_reverse []
              eq_refl) as (s' & t & Hrun & Hwait & Hkill).
  exists s', t. auto.
Defined.

(** ** push_server *)

Lemma push_server_ensures (prefix : string) (ser : option string) (s : server) :
  ensures (push_server prefix ser)
    (fun b s' t =>
       s' = s
       /\ count_events allocated t = count_events released t
       /\ count_events released t <= 1
       /\ filter_map pushed_file t
          = filter_map regular_file t
       /\ Forall (fun to => to = DEVICE_SERVER_PATH) (filter_map push_destination t)
       /\ (b = true -> count_events is_adb_push t = 1)
       /\ filter_map closed_socket t = []
       /\ filter_map listening_socket t = []
       /\ count_events established t = 0
       /\ count_events is_tunnel_removal t = 0
       /\ filter_map agent_tunnel_flag t = []
       /\ filter_map acquired_socket t = [])
    s [].
Proof.
  unfold push_server, get_server_path. cbn. intros [src|]; cbn.
  - intros [path|]; cbn.
    + intros [|]; cbn; intros; unfold count_events;
        repeat match goal with b : bool |- _ => destruct b end; cbn;
        repeat split; auto; try lia; discriminate.
    + unfold count_events; cbn. repeat split; auto; try lia; discriminate.
  - intros [path|]; cbn.
    + intros [|]; cbn; intros; unfold count_events;
        repeat match goal with b : bool |- _ => destruct b end; cbn;
        repeat split; auto; try lia; discriminate.
    + unfold count_events; cbn. repeat split; auto; try lia; discriminate.
Qed.

(** [push_server] always returns, changes no field, and frees the path
    that [get_server_path] allocated on each of its paths: the copies
    [SDL_strdup] returned and the pointers given to [SDL_free] are as
    many, one at most. *)
Theorem push_server_frees_its_path :
  forall (prefix : string) (env : oracle) (ser : option string) (s : server)
         (h : list event),
    exists b t,
      run env (push_server prefix ser) s h = (Done b, s, h ++ t)
      /\ count_events allocated t = count_events released t
      /\ count_events released t <= 1.
Proof.
  intros prefix env ser s h.
  destruct (ensures_run_nil env (push_server prefix ser) _ s h
              (push_server_ensures prefix ser s))
    as (b & s' & t & Hrun & -> & Hbalance & Hone & _).
  exists b, t. auto.
Qed.

(** [push_server] gives [adb push] no other file than the one
    [is_regular_file] accepted, and no other destination than
    [DEVICE_SERVER_PATH]; it reports a success only when it has pushed. *)
Theorem push_server_pushes_regular_files_only :
  forall (prefix : string) (env : oracle) (ser : option string) (s : server)
         (h : list event),
    exists b t,
      run env (push_server prefix ser) s h = (Done b, s, h ++ t)
      /\ filter_map pushed_file t = filter_map regular_file t
      /\ Forall (fun to => to = DEVICE_SERVER_PATH)
           (filter_map push_destination t)
      /\ (b = true -> count_events is_adb_push t = 1).
Proof.
  intros prefix env ser s h.
  destruct (ensures_run_nil env (push_server prefix ser) _ s h
              (push_server_ensures prefix ser s))
    as (b & s' & t & Hrun & -> & _ & _ & Hfile & Hto & Hpushed & _).
  exists b, t. auto.
Qed.

(** ** The answer of the HTTP endpoint *)

Lemma substring_nothing (m : nat) (s : string) : substring m 0 s = EmptyString.
Proof.
  revert m. induction s as [|c s IH]; intros [|m]; simpl; auto.
Qed.

Lemma substring_empty (m len : nat) : substring m len EmptyString = EmptyString.
Proof.
  destruct m, len; reflexivity.
Qed.

(** A word found in the first [n] characters is found in the string. *)
Lemma substring_of_prefix (s : string) :
  forall n m len : nat,
    String.length (substring m len (substring 0 n s)) = len ->
    substring m len (substring 0 n s) = substring m len s.
Proof.
  induction s as [|c s IH]; intros n m len Hlen.
  - destruct n; reflexivity.
  - destruct n as [|n].
    + change (substring 0 0 (String c s)) with EmptyString in *.
      rewrite substring_empty in Hlen. cbn in Hlen. subst len.
      now rewrite substring_empty, substring_nothing.
    + change (substring 0 (S n) (String c s))
        with (String c (substring 0 n s)) in *.
      destruct m as [|m].
      * destruct len as [|len]; [reflexivity|].
        change (String c (substring 0 len (substring 0 n s))
                = String c (substring 0 len s)).
        f_equal. apply IH. cbn in Hlen. now injection Hlen.
      * change (substring m len (substring 0 n s) = substring m len s).
        now apply IH.
Qed.

Lemma length_substring (s : string) :
  forall m len : nat, (String.length (substring m len s) <= len)%nat.
Proof.
  induction s as [|c s IH]; intros m len.
  - rewrite substring_empty. cbn. lia.
  - destruct m as [|m]; cbn [substring].
    + destruct len as [|len]; cbn; [lia|]. specialize (IH 0%nat len). lia.
    + apply IH.
Qed.

Lemma length_substring_source (s : string) :
  forall m len : nat, (String.length (substring m len s) <= String.length s)%nat.
Proof.
  induction s as [|c s IH]; intros m len.
  - rewrite substring_empty. cbn. lia.
  - destruct m as [|m]; cbn [substring].
    + destruct len as [|len]; cbn; [lia|]. specialize (IH 0%nat len). lia.
    + specialize (IH m len). cbn. lia.
Qed.

Lemma c_string_of_prefix (s : string) :
  forall n : nat, c_string (substring 0 n s) = substring 0 n (c_string s).
Proof.
  induction s as [|c s IH]; intros n.
  - destruct n; reflexivity.
  - destruct n as [|n].
    + change (substring 0 0 (String c s)) with EmptyString.
      now rewrite substring_nothing.
    + change (substring 0 (S n) (String c s)) with (String c (substring 0 n s)).
      cbn [c_string]. destruct (Ascii.eqb c Ascii.zero); [reflexivity|].
      change (substring 0 (S n) (String c (c_string s)))
        with (String c (substring 0 n (c_string s))).
      now rewrite IH.
Qed.

Lemma length_c_string (s : string) :
  (String.length (c_string s) <= String.length s)%nat.
Proof.
  induction s as [|c s IH]; cbn [c_string String.length]; [lia|].
  destruct (Ascii.eqb c Ascii.zero); cbn [String.length]; lia.
Qed.

(** A word found before the terminator written at [n] is found in the
    C string that was there before. *)
Lemma strstr_prefix (s needle : string) (n : nat) :
  needle <> EmptyString ->
  strstr (substring 0 n s) needle = true ->
  strstr s needle = true.
Proof.
  unfold strstr. rewrite c_string_of_prefix. intros Hneedle Hfound.
  destruct (index 0 needle (substring 0 n (c_string s))) as [m|] eqn:Hprefix;
    [|discriminate].
  apply index_correct1 in Hprefix.
  assert (Hwhole : substring m (String.length needle) (c_string s) = needle).
  { rewrite <- substring_of_prefix with (n := n); [assumption|].
    now rewrite Hprefix. }
  destruct (index 0 needle (c_string s)) eqn:Hindex; [reflexivity|].
  exfalso.
  apply (index_correct3 0 m needle (c_string s) Hindex Hneedle); [lia|assumption].
Qed.

Lemma strstr_length (s needle : string) :
  strstr s needle = true -> (String.length needle <= String.length s)%nat.
Proof.
  unfold strstr.
  destruct (index 0 needle (c_string s)) as [m|] eqn:Hindex; [|discriminate].
  intros _. apply index_correct1 in Hindex.
  pose proof (length_substring_source (c_string s) m (String.length needle)) as H.
  rewrite Hindex in H. pose proof (length_c_string s). lia.
Qed.

(** The search stops at a zero byte: ten bytes with [success] after a
    zero byte are no success. *)
Lemma curl_response_ok_stops_at_zero_byte :
  curl_response_ok 10
    ("ab" ++ String Ascii.zero "success")%string
  = false.
Proof.
  reflexivity.
Qed.

(** The test on the answer of [curl_get], as one condition: [ret] is
    positive and [success] occurs in the C string of the buffer once the
    code has written the terminator at [ret], or at 1023 when [ret] is
    larger: before that terminator and before any zero byte [curl_get]
    left.  The test the code makes first, on the buffer as [curl_get]
    left it, rejects nothing that the second would accept. *)
Theorem curl_response_ok_terminated :
  forall (ret : Z) (buffer : string),
    curl_response_ok ret buffer
    = (0 <? ret)
      && strstr (substring 0 (Z.to_nat (Z.min ret 1023)) buffer) "success".
Proof.
  intros ret buffer. unfold curl_response_ok.
  rewrite Z.gtb_ltb. destruct (0 <? ret) eqn:Hret; cbn [andb]; [|reflexivity].
  assert (Hcut : (if ret >=? 1024 then substring 0 1023 buffer
                  else substring 0 (Z.to_nat ret) buffer)
                 = substring 0 (Z.to_nat (Z.min ret 1023)) buffer).
  { destruct (ret >=? 1024) eqn:Hlarge.
    - apply Z.geb_le in Hlarge. now rewrite Z.min_r by lia.
    - rewrite Z.geb_leb in Hlarge. apply Z.leb_gt in Hlarge.
      now rewrite Z.min_l by lia. }
  rewrite Hcut.
  destruct (strstr buffer "success") eqn:Hraw; [reflexivity|].
  destruct (strstr (substring 0 (Z.to_nat (Z.min ret 1023)) buffer) "success")
    eqn:Hcutfound; [|reflexivity].
  apply strstr_prefix in Hcutfound; [congruence|discriminate].
Qed.

(** An answer of fewer than seven bytes is never a success. *)
Theorem curl_response_ok_needs_seven_bytes :
  forall (ret : Z) (buffer : string),
    ret < 7 -> curl_response_ok ret buffer = false.
Proof.
  intros ret buffer Hshort. unfold curl_response_ok.
  destruct ((ret >? 0) && strstr buffer "success") eqn:Hfirst; [|reflexivity].
  apply andb_prop in Hfirst. destruct Hfirst as [Hpos _]. rewrite Hpos. cbn [andb].
  assert (Hsmall : (ret >=? 1024) = false).
  { rewrite Z.geb_leb. apply Z.leb_gt. lia. }
  rewrite Hsmall.
  destruct (strstr (substring 0 (Z.to_nat ret) buffer) "success") eqn:Hfound;
    [|reflexivity].
  apply strstr_length in Hfound.
  pose proof (length_substring buffer 0 (Z.to_nat ret)) as Hlen.
  cbn [String.length] in Hfound. lia.
Qed.

Lemma curl_response_ok_needs_seven_bytes_witness :
  curl_response_ok 6 "succes" = false.
Proof.
  apply (curl_response_ok_needs_seven_bytes 6 "succes"). lia.
Defined.

(** ** connect_to_server with any agent *)

Lemma count_events_cons_probe (p : event -> bool) (e : event) (t : list event) :
  count_events p (e :: t) = Z.b2z (p e) + count_events p t.
Proof.
  unfold count_events. cbn [filter]. destruct (p e); cbn [Z.b2z List.length]; lia.
Qed.

(** The loop with at least one attempt left, whatever the probes give. *)
Lemma connect_to_server_loop_counts (env : oracle) (addr' port delay : Z) :
  forall (fuel : nat) (attempts : Z) (s : server) (h : list event),
    1 <= attempts < UINT32_MODULUS ->
    attempts <= Z.of_nat fuel ->
    exists sock t,
      run env (connect_to_server_loop fuel addr' port attempts delay) s h
        = (Done sock, s, h ++ t)
      /\ 1 <= count_events is_net_connect t <= attempts
      /\ (is_valid_socket sock = true ->
          count_events is_SDL_Delay t = count_events is_net_connect t - 1
          /\ exists pre,
               t = pre ++ [Ev (net_connect addr' port) sock; Ev (net_recv sock 1) 1]
               /\ discarded pre)
      /\ (is_valid_socket sock = false ->
          count_events is_net_connect t = attempts
          /\ count_events is_SDL_Delay t = attempts
          /\ discarded t).
Proof.
  induction fuel as [|fuel IH]; intros attempts s h Hrange Hfuel; [lia|].
  rewrite connect_to_server_loop_unfold, run_bind.
  destruct (probe_ok env addr' port h) eqn:Hprobe.
  - destruct (successful_probe env addr' port s h Hprobe) as (sock & Hvalid & Hrun).
    rewrite Hrun, Hvalid. cbn [run]. eexists sock, _. split; [reflexivity|].
    change (count_events is_net_connect
              [Ev (net_connect addr' port) sock; Ev (net_recv sock 1) 1]) with 1.
    change (count_events is_SDL_Delay
              [Ev (net_connect addr' port) sock; Ev (net_recv sock 1) 1]) with 0.
    split; [lia|]. split; [|congruence].
    intros _. split; [lia|]. exists []. split; [reflexivity|apply discarded_nil].
  - destruct (failed_probe env addr' port s h Hprobe)
      as (tp & Hrun & Hconnects & Hdelays & _ & Hdiscarded).
    rewrite Hrun. cbn [is_valid_socket socket_eqb negb].
    set (probe := Ev (net_connect addr' port) (env h _ (net_connect addr' port))) in *.
    assert (Hnz : (attempts =? 0) = false) by (apply Z.eqb_neq; lia).
    rewrite Hnz. cbn [negb when]. rewrite run_bind. cbn [ext run].
    rewrite uint32_pred by assumption.
    rewrite (unit_is_tt (env _ unit _)), <- app_assoc.
    set (failed := (probe :: tp) ++ [Ev (SDL_Delay delay) tt]).
    assert (Hone : count_events is_net_connect failed = 1).
    { unfold failed. rewrite count_events_app, count_events_cons_probe, Hconnects.
      reflexivity. }
    assert (Hslept : count_events is_SDL_Delay failed = 1).
    { unfold failed. rewrite count_events_app, count_events_cons_probe, Hdelays.
      reflexivity. }
    assert (Hkept : discarded failed).
    { unfold failed. apply discarded_app; [assumption|]. intros x []. }
    clearbody failed.
    destruct (attempts - 1 >? 0) eqn:Hmore.
    + apply Z.gtb_lt in Hmore.
      destruct (IH (attempts - 1) s (h ++ failed)) as (sock & t & Hloop & Hc & Hv & Hi);
        [lia|lia|].
      exists sock, (failed ++ t). rewrite Hloop, <- app_assoc.
      split; [reflexivity|]. rewrite !count_events_app, Hone, Hslept.
      split; [lia|]. split.
      * intros Hvalid. destruct (Hv Hvalid) as (Hd & pre & -> & Hpre).
        split; [lia|]. exists (failed ++ pre). rewrite <- app_assoc.
        split; [reflexivity|now apply discarded_app].
      * intros Hinvalid. destruct (Hi Hinvalid) as (Hc' & Hd & Ht).
        split; [lia|]. split; [lia|now apply discarded_app].
    + assert (attempts = 1)
        by (rewrite Z.gtb_ltb in Hmore; apply Z.ltb_ge in Hmore; lia).
      exists INVALID_SOCKET, failed. cbn [run]. split; [reflexivity|].
      split; [lia|]. split; [discriminate|]. intros _. repeat split; auto; lia.
Qed.

(** With [1 <= attempts], whatever the agent does, [connect_to_server]
    returns after at least one and at most [attempts] probes and leaves
    the state alone.  A valid socket is the one of the last probe, which
    read its byte; the probes before it kept no socket (each socket
    they got was closed) and each was followed by one sleep.  When the
    result is [INVALID_SOCKET] there were [attempts] probes, as many
    sleeps, and no socket is left open. *)
Theorem connect_to_server_returns_first_success :
  forall (env : oracle) (addr' port attempts delay : Z) (s : server)
         (h : list event),
    1 <= attempts < UINT32_MODULUS ->
    exists sock t,
      run env (connect_to_server addr' port attempts delay) s h
        = (Done sock, s, h ++ t)
      /\ 1 <= count_events is_net_connect t <= attempts
      /\ (is_valid_socket sock = true ->
          count_events is_SDL_Delay t = count_events is_net_connect t - 1
          /\ exists pre,
               t = pre ++ [Ev (net_connect addr' port) sock; Ev (net_recv sock 1) 1]
               /\ discarded pre)
      /\ (is_valid_socket sock = false ->
          count_events is_net_connect t = attempts
          /\ count_events is_SDL_Delay t = attempts
          /\ discarded t).
Proof.
  intros env addr' port attempts delay s h Hrange.
  unfold connect_to_server. rewrite connect_iterations_positive by lia.
  apply connect_to_server_loop_counts; [assumption|lia].
Qed.

(** The agent of the forward mode answers the first probe. *)
Lemma connect_to_server_returns_first_success_witness :
  1 <= 100 < UINT32_MODULUS
  /\ exists sock t,
       run accept_all (connect_to_server IPV4_LOCALHOST 27183 100 100)
         initialized [] = (Done sock, initialized, [] ++ t)
       /\ 1 <= count_events is_net_connect t <= 100.
Proof.
  assert (Hrange : 1 <= 100 < UINT32_MODULUS) by (split; [lia|reflexivity]).
  split; [exact Hrange|].
  destruct (connect_to_server_returns_first_success accept_all IPV4_LOCALHOST
              27183 100 100 initialized [] Hrange) as (sock & t & Hrun & Hcount & _).
  exists sock, t. auto.
Defined.

(** ** The resources of the port sweeps *)

Lemma sweep_resources_app (t u : list event) (b : bool) (listener : list socket_t) :
  sweep_resources t false [] -> sweep_resources u b listener ->
  sweep_resources (t ++ u) b listener.
Proof.
  unfold sweep_resources.
  intros (Hc & Ha & Hr & Hl & He & Hg & Hq) (Hc' & Ha' & Hr' & Hl' & He' & Hg' & Hq').
  rewrite !filter_map_app, !count_events_app, Hc, Hc', Ha, Ha', Hr, Hr', Hl, Hl',
    Hg, Hg', Hq, Hq'.
  cbn [Z.b2z] in He. repeat split; auto. lia.
Qed.

Lemma reverse_round_resources (ser : option string) (port : Z)
    (pr rm : process_t) (removed : bool) :
  sweep_resources (reverse_round ser port pr rm removed) false [].
Proof.
  unfold sweep_resources, reverse_round, count_events.
  destruct removed; cbn; auto 10.
Qed.

Lemma reverse_sweep_resources (ser : option string) (range : sc_port_range)
    (port : Z) (s : server) (t : list event) (b : bool) (s' : server) :
  reverse_sweep ser range port s t b s' ->
  sweep_resources t b (only_if b (server_socket s'))
  /\ (b = true -> is_valid_socket (server_socket s') = true)
  /\ direct s' = direct s
  /\ server_socket_closed s' = server_socket_closed s
  /\ process s' = process s
  /\ video_socket s' = video_socket s
  /\ control_socket s' = control_socket s
  /\ (is_valid_socket (server_socket s) = false -> b = false ->
      is_valid_socket (server_socket s') = false).
Proof.
  induction 1 as [port s pr|port s pr sock Hvalid|port s pr rm removed Hlast
                  |port s pr rm removed t b s' Hlt Hsweep IH].
  - unfold sweep_resources, count_events. cbn. conjuncts.
  - unfold sweep_resources, count_events. cbn. rewrite Hvalid. conjuncts.
  - split; [apply reverse_round_resources|]. conjuncts.
  - destruct IH as (Hres & Hvalid & Hdirect & Hflag & Hprocess & Hvideo & Hcontrol
                    & Hinvalid).
    split; [apply sweep_resources_app; [apply reverse_round_resources|assumption]|].
    conjuncts.
Qed.

Lemma forward_sweep_resources (ser : option string) (range : sc_port_range)
    (port : Z) (s : server) (t : list event) (b : bool) (s' : server) :
  forward_sweep ser range port s t b s' ->
  sweep_resources t b []
  /\ count_events is_tunnel_removal t = 0
  /\ direct s' = direct s
  /\ server_socket_closed s' = server_socket_closed s
  /\ process s' = process s
  /\ server_socket s' = server_socket s
  /\ video_socket s' = video_socket s
  /\ control_socket s' = control_socket s.
Proof.
  induction 1 as [port s pr|port s pr Hlast|port s pr t b s' Hlt Hsweep IH].
  - unfold sweep_resources, count_events. cbn. conjuncts.
  - unfold sweep_resources, count_events. cbn. conjuncts.
  - destruct IH as (Hres & Hnone & Hdirect & Hflag & Hprocess & Hsocket & Hvideo
                    & Hcontrol).
    split; [|rewrite count_events_app, Hnone; conjuncts].
    apply sweep_resources_app; [|assumption].
    unfold sweep_resources, count_events. cbn. conjuncts.
Qed.

(** [enable_tunnel_any_port] from a state in which no forward tunnel is
    recorded. *)
Lemma enable_tunnel_any_port_resources (env : oracle) (range : sc_port_range)
    (force : bool) (s : server) (h : list event) :
  0 <= first range -> uint16 (last range) ->
  tunnel_forward s = false ->
  exists t b s',
    run env (enable_tunnel_any_port range force) s h = (Done b, s', h ++ t)
    /\ sweep_resources t b
         (only_if (b && negb (tunnel_forward s')) (server_socket s'))
    /\ (b = true -> tunnel_forward s' = false ->
        is_valid_socket (server_socket s') = true)
    /\ serial s' = serial s
    /\ direct s' = direct s
    /\ server_socket_closed s' = server_socket_closed s
    /\ process s' = process s
    /\ video_socket s' = video_socket s
    /\ control_socket s' = control_socket s
    /\ (is_valid_socket (server_socket s) = false -> tunnel_forward s' = true ->
        is_valid_socket (server_socket s') = false).
Proof.
  intros Hfirst Hlast Hreverse.
  assert (Hfuel : Z.max 0 (last range - first range) < Z.of_nat PORT_FUEL).
  { rewrite PORT_FUEL_value. unfold uint16 in Hlast. lia. }
  assert (Hforward : forall s0 h0,
             exists t b s',
               run env (enable_tunnel_forward_any_port range) s0 h0
               = (Done b, s', h0 ++ t)
               /\ sweep_resources t b []
               /\ tunnel_forward s' = true
               /\ serial s' = serial s0
               /\ direct s' = direct s0
               /\ server_socket_closed s' = server_socket_closed s0
               /\ process s' = process s0
               /\ video_socket s' = video_socket s0
               /\ control_socket s' = control_socket s0
               /\ server_socket s' = server_socket s0).
  { intros s0 h0. unfold enable_tunnel_forward_any_port. rewrite run_put_bind.
    destruct (enable_tunnel_forward_loop_sweep env range Hlast PORT_FUEL
                (first range) (set_tunnel_forward true s0) h0 Hfirst Hfuel)
      as (t & b & s' & Hrun & Hsweep).
    destruct (forward_sweep_resources _ _ _ _ _ _ _ Hsweep)
      as (Hres & _ & Hdirect & Hflag & Hprocess & Hsocket & Hvideo & Hcontrol).
    destruct (forward_sweep_state _ _ _ _ _ _ _ Hsweep) as (Hfwd & Hserial & _).
    exists t, b, s'. split; [exact Hrun|]. split; [exact Hres|].
    rewrite Hfwd, Hserial, Hdirect, Hflag, Hprocess, Hsocket, Hvideo, Hcontrol.
    clear. destruct s0. cbn. conjuncts. }
  unfold enable_tunnel_any_port. destruct force; cbn [negb].
  - destruct (Hforward s h)
      as (t & b & s' & Hrun & Hres & Hfwd & Hserial & Hdirect & Hflag & Hprocess
          & Hvideo & Hcontrol & Hsocket).
    exists t, b, s'. rewrite Hfwd, andb_false_r, Hsocket. cbn [negb only_if].
    split; [exact Hrun|]. split; [exact Hres|]. split; [discriminate|].
    conjuncts.
  - rewrite run_bind. unfold enable_tunnel_reverse_any_port.
    destruct (enable_tunnel_reverse_loop_sweep env range Hlast PORT_FUEL
                (first range) s h Hfirst Hfuel) as (t1 & b1 & s1 & Hrun1 & Hsweep).
    rewrite Hrun1.
    destruct (reverse_sweep_resources _ _ _ _ _ _ _ Hsweep)
      as (Hres1 & Hvalid1 & Hdirect1 & Hflag1 & Hprocess1 & Hvideo1 & Hcontrol1
          & Hinvalid1).
    destruct (reverse_sweep_state _ _ _ _ _ _ _ Hsweep) as (Hfwd1 & Hserial1 & _).
    destruct b1.
    + exists t1, true, s1. cbn [run]. split; [reflexivity|].
      rewrite Hfwd1, Hreverse. cbn [negb andb]. conjuncts.
    + destruct (Hforward s1 (h ++ t1))
        as (t & b & s' & Hrun & Hres & Hfwd & Hserial & Hdirect & Hflag & Hprocess
            & Hvideo & Hcontrol & Hsocket).
      exists (t1 ++ t), b, s'. rewrite Hrun, <- app_assoc.
      split; [reflexivity|]. rewrite Hfwd, andb_false_r. cbn [negb only_if].
      split; [now apply sweep_resources_app|]. split; [discriminate|].
      rewrite Hserial, Hdirect, Hflag, Hprocess, Hvideo, Hcontrol, Hsocket.
      conjuncts.
Qed.

(** ** server_start over adb *)

(** The end of [server_start] in the adb modes, from the start of the
    agent, in a state where the tunnel is up. *)
Lemma server_start_agent_ensures (version : string) (params : server_params)
    (s : server) :
  direct s = false ->
  server_socket_closed s = false ->
  (tunnel_forward s = false -> is_valid_socket (server_socket s) = true) ->
  ensures
    (process' <- execute_server_adb version params;;
     put (set_process process');;
     own <- get process;;
     if process_eqb own PROCESS_NONE then server_start_error2
     else server_start_thread)
    (fun b s' t =>
       count_events allocated t = 0
       /\ filter_map listening_socket t = []
       /\ count_events established t = 0
       /\ filter_map acquired_socket t = []
       /\ if b then
            filter_map closed_socket t = []
            /\ count_events released t = 0
            /\ count_events is_tunnel_removal t = 0
            /\ process_eqb (process s') PROCESS_NONE = false
            /\ tunnel_enabled s' = true
            /\ (exists th, wait_server_thread s' = Some th)
            /\ server_socket s' = server_socket s
            /\ tunnel_forward s' = tunnel_forward s
            /\ server_socket_closed s' = false
            /\ direct s' = false
            /\ filter_map agent_tunnel_flag t = [bool_string (tunnel_forward s)]
            /\ video_socket s' = video_socket s
            /\ control_socket s' = control_socket s
          else
            filter_map closed_socket t
            = only_if (negb (tunnel_forward s)) (server_socket s)
            /\ count_events released t
               = match serial s with Some _ => 1 | None => 0 end
            /\ count_events is_tunnel_removal t = 1)
    s [].
Proof.
  destruct s as [ser base ad proc th flag mtx cnd term ssock vsock csock range
                 port enabled fwd dir].
  cbn [direct server_socket_closed tunnel_forward server_socket serial].
  intros -> -> Hvalid.
  unfold execute_server_adb, server_start_error2, server_start_thread,
    server_start_error1, close_socket, disable_tunnel, disable_tunnel_forward,
    disable_tunnel_reverse.
  destruct fwd.
  - clear Hvalid. cbn. intros [|pid]; cbn; intros.
    + repeat match goal with b : bool |- _ => destruct b end;
        destruct ser; unfold count_events; cbn; conjuncts.
    + destruct r as [t|]; cbn; intros;
        repeat match goal with b : bool |- _ => destruct b end;
        try destruct ser; unfold count_events; cbn; conjuncts; eauto.
  - specialize (Hvalid eq_refl). destruct ssock as [|fd]; [discriminate Hvalid|].
    clear Hvalid. cbn. intros [|pid]; cbn; intros.
    + repeat match goal with b : bool |- _ => destruct b end;
        destruct ser; unfold count_events; cbn; conjuncts.
    + destruct r as [t|]; cbn; intros;
        repeat match goal with b : bool |- _ => destruct b end;
        try destruct ser; unfold count_events; cbn; conjuncts; eauto.
Qed.

Lemma released_one (env : oracle) (h : list event) (p : option string) :
  count_events released [Ev (SDL_free p) (env h _ (SDL_free p))]
  = match p with Some _ => 1 | None => 0 end.
Proof.
  destruct p; reflexivity.
Qed.

(** [server_start] in the adb modes, once the serial is copied. *)
Lemma server_start_adb_rest (prefix version : string) (env : oracle)
    (ser : option string) (params : server_params) (s : server) (h : list event) :
  direct s = false ->
  tunnel_forward s = false ->
  server_socket_closed s = false ->
  0 <= first (params_port_range params) ->
  uint16 (last (params_port_range params)) ->
  exists b s' t,
    run env
      (direct' <- get direct;;
       if direct' then
         started <- execute_server_curl version params;;
         if negb started then server_start_error2 else server_start_thread
       else
         pushed <- push_server prefix ser;;
         if negb pushed then server_start_error1
         else
           tunnel <- enable_tunnel_any_port (params_port_range params)
                       (force_adb_forward params);;
           if negb tunnel then server_start_error1
           else
             process' <- execute_server_adb version params;;
             put (set_process process');;
             own <- get process;;
             if process_eqb own PROCESS_NONE then server_start_error2
             else server_start_thread) s h
    = (Done b, s', h ++ t)
    /\ if b then
         filter_map closed_socket t = []
         /\ filter_map listening_socket t
            = only_if (negb (tunnel_forward s')) (server_socket s')
         /\ (tunnel_forward s' = false ->
             is_valid_socket (server_socket s') = true)
         /\ count_events allocated t = count_events released t
         /\ count_events established t = count_events is_tunnel_removal t + 1
         /\ process_eqb (process s') PROCESS_NONE = false
         /\ tunnel_enabled s' = true
         /\ (exists th, wait_server_thread s' = Some th)
         /\ server_socket_closed s' = false
         /\ direct s' = false
         /\ filter_map agent_tunnel_flag t = [bool_string (tunnel_forward s')]
         /\ video_socket s' = video_socket s
         /\ control_socket s' = control_socket s
         /\ (is_valid_socket (server_socket s) = false ->
             tunnel_forward s' = true ->
             is_valid_socket (server_socket s') = false)
         /\ filter_map acquired_socket t = []
       else
         filter_map closed_socket t = filter_map listening_socket t
         /\ count_events allocated t
            + match serial s with Some _ => 1 | None => 0 end
            = count_events released t
         /\ count_events established t = count_events is_tunnel_removal t
         /\ filter_map acquired_socket t = [].
Proof.
  intros Hdirect Hreverse Hflag Hfirst Hlast.
  rewrite run_get_bind, Hdirect, run_bind.
  destruct (ensures_run_nil env (push_server prefix ser) _ s h
              (push_server_ensures prefix ser s))
    as (pushed & s0 & tp & Hpush & -> & Hmem & _ & _ & _ & _ & Hc & Hl & He & Hr
        & Hg & Hq).
  rewrite Hpush. destruct pushed; cbn [negb].
  - rewrite run_bind.
    destruct (enable_tunnel_any_port_resources env (params_port_range params)
                (force_adb_forward params) s (h ++ tp) Hfirst Hlast Hreverse)
      as (tt & tunnel & s2 & Htunnel & (Hc2 & Ha2 & Hr2 & Hl2 & He2 & Hg2 & Hq2)
          & Hvalid2
          & Hserial2 & Hdirect2 & Hflag2 & _ & Hvideo2 & Hcontrol2 & Hinvalid2).
    rewrite Htunnel. destruct tunnel; cbn [negb andb] in *.
    + rewrite Hdirect in Hdirect2. rewrite Hflag in Hflag2.
      destruct (ensures_run env _ _ s2 []
                  (server_start_agent_ensures version params s2 Hdirect2 Hflag2
                     (Hvalid2 eq_refl)) ((h ++ tp) ++ tt))
        as (b & s' & ta & Hagent & Ha3 & Hl3 & He3 & Hq3 & Hpost).
      rewrite app_nil_r in Hagent. rewrite Hagent.
      exists b, s', (tp ++ tt ++ ta). rewrite <- !app_assoc.
      split; [reflexivity|].
      rewrite !filter_map_app, !count_events_app, Hc, Hl, He, Hr, Hc2, Ha2, Hr2,
        Hl2, He2, Ha3, Hl3, He3, Hg, Hg2, Hq, Hq2, Hq3.
      cbn [app]. destruct b.
      * destruct Hpost as (Hc3 & Hr3 & Hrm3 & Hprocess & Henabled & Hthread
                           & Hsocket & Hforward & Hflag3 & Hdirect3 & Hg3
                           & Hvideo3 & Hcontrol3).
        rewrite Hc3, Hr3, Hrm3, Hg3, Hsocket, Hforward, app_nil_r, Hvideo3,
          Hcontrol3.
        cbn [Z.b2z]. conjuncts.
      * destruct Hpost as (Hc3 & Hr3 & Hrm3).
        rewrite Hc3, Hr3, Hrm3, Hserial2, app_nil_r. cbn [Z.b2z]. conjuncts.
    + rewrite run_server_start_error1.
      exists false, s2, (tp ++ tt ++ [Ev (SDL_free (serial s2))
                                       (env ((h ++ tp) ++ tt) _ (SDL_free (serial s2)))]).
      rewrite <- !app_assoc. split; [reflexivity|].
      rewrite !filter_map_app, !count_events_app, released_one, Hc, Hl, He, Hr,
        Hc2, Ha2, Hr2, Hl2, He2, Hserial2, Hq, Hq2.
      unfold count_events in *. cbn. destruct (serial s); conjuncts.
  - rewrite run_server_start_error1.
    exists false, s, (tp ++ [Ev (SDL_free (serial s)) (env (h ++ tp) _ (SDL_free (serial s)))]).
    rewrite <- !app_assoc. split; [reflexivity|].
    rewrite !filter_map_app, !count_events_app, released_one, Hc, Hl, He, Hr, Hq.
    unfold count_events in *. cbn. destruct (serial s); conjuncts.
Qed.

Lemma server_start_adb_run (prefix version : string) (env : oracle)
    (ser : option string) (params : server_params) (s : server) (h : list event) :
  direct s = false ->
  tunnel_forward s = false ->
  server_socket_closed s = false ->
  serial s = None ->
  0 <= first (params_port_range params) ->
  uint16 (last (params_port_range params)) ->
  exists b s' t,
    run env (server_start prefix version ser params) s h = (Done b, s', h ++ t)
    /\ if b then
         filter_map closed_socket t = []
         /\ filter_map listening_socket t
            = only_if (negb (tunnel_forward s')) (server_socket s')
         /\ (tunnel_forward s' = false ->
             is_valid_socket (server_socket s') = true)
         /\ count_events allocated t
            = count_events released t + match ser with Some _ => 1 | None => 0 end
         /\ count_events established t = count_events is_tunnel_removal t + 1
         /\ process_eqb (process s') PROCESS_NONE = false
         /\ tunnel_enabled s' = true
         /\ (exists th, wait_server_thread s' = Some th)
         /\ server_socket_closed s' = false
         /\ direct s' = false
         /\ filter_map agent_tunnel_flag t = [bool_string (tunnel_forward s')]
         /\ video_socket s' = video_socket s
         /\ control_socket s' = control_socket s
         /\ (is_valid_socket (server_socket s) = false ->
             tunnel_forward s' = true ->
             is_valid_socket (server_socket s') = false)
         /\ filter_map acquired_socket t = []
       else
         filter_map closed_socket t = filter_map listening_socket t
         /\ count_events allocated t = count_events released t
         /\ count_events established t = count_events is_tunnel_removal t
         /\ filter_map acquired_socket t = [].
Proof.
  intros Hdirect Hreverse Hflag Hserial Hfirst Hlast.
  unfold server_start. rewrite run_put_bind, run_bind. destruct ser as [text|].
  - rewrite run_ext_bind, run_put_bind, run_get_bind. cbn [run serial set_serial].
    destruct (env h _ (SDL_strdup text)) as [copy|]; cbn [negb].
    + destruct (server_start_adb_rest prefix version env (Some text) params
                  (set_serial (Some copy)
                     (set_port_range (params_port_range params) s))
                  (h ++ [Ev (SDL_strdup text) (Some copy)])
                  Hdirect Hreverse Hflag Hfirst Hlast)
        as (b & s' & t & Hrun & Hpost).
      rewrite Hrun. exists b, s', (Ev (SDL_strdup text) (Some copy) :: t).
      rewrite <- app_assoc. split; [reflexivity|].
      rewrite !(count_events_cons_probe _ (Ev (SDL_strdup text) (Some copy))).
      cbn [filter_map closed_socket listening_socket allocated released
           established is_tunnel_removal Z.b2z].
      cbn [serial set_serial] in Hpost.
      destruct b.
      * destruct Hpost as (Hc & Hl & Hv & Hm & He & Hp & Hen & Hth & Hfl & Hd & Hg
                           & Hvs & Hcs & Hinv & Hq).
        conjuncts.
      * destruct Hpost as (Hc & Hm & He & Hq). conjuncts.
    + exists false, (set_serial None (set_port_range (params_port_range params) s)),
        [Ev (SDL_strdup text) None].
      split; [reflexivity|]. unfold count_events. cbn. auto.
  - cbn [run negb].
    destruct (server_start_adb_rest prefix version env None params
                (set_port_range (params_port_range params) s) h
                Hdirect Hreverse Hflag Hfirst Hlast)
      as (b & s' & t & Hrun & Hpost).
    rewrite Hrun. exists b, s', t. split; [reflexivity|].
    cbn [serial set_port_range] in Hpost. rewrite Hserial in Hpost.
    destruct b.
    + destruct Hpost as (Hc & Hl & Hv & Hm & He & Hp & Hen & Hth & Hfl & Hd & Hg
                           & Hvs & Hcs & Hinv & Hq).
        conjuncts.
    + destruct Hpost as (Hc & Hm & He & Hq). conjuncts.
Qed.

(** In the adb modes, from a server as [server_init] leaves it,
    [server_start] always returns: no assertion fails.  When it returns
    [false] it has undone what it did: the sockets it closed are the
    listeners it opened, it freed as many pointers as [SDL_strdup] gave
    it, and it asked for the removal of as many tunnels as it had
    established. *)
Theorem server_start_adb_failure_cleans_up :
  forall (prefix version : string) (env : oracle) (ser : option string)
         (params : server_params) (s : server) (h : list event),
    direct s = false ->
    tunnel_forward s = false ->
    server_socket_closed s = false ->
    serial s = None ->
    0 <= first (params_port_range params) ->
    uint16 (last (params_port_range params)) ->
    exists b s' t,
      run env (server_start prefix version ser params) s h = (Done b, s', h ++ t)
      /\ (b = false ->
          filter_map closed_socket t = filter_map listening_socket t
          /\ count_events allocated t = count_events released t
          /\ count_events established t = count_events is_tunnel_removal t).
Proof.
  intros prefix version env ser params s h Hdirect Hreverse Hflag Hserial
    Hfirst Hlast.
  destruct (server_start_adb_run prefix version env ser params s h Hdirect
              Hreverse Hflag Hserial Hfirst Hlast) as (b & s' & t & Hrun & Hpost).
  exists b, s', t. split; [exact Hrun|]. intros ->.
  destruct Hpost as (Hc & Hm & He & _). auto.
Qed.

(** No port can be listened on or forwarded: the start fails after the
    two sweeps. *)
Lemma server_start_adb_failure_cleans_up_witness :
  exists s' t,
    run no_tunnel (server_start "/usr/local" "1.17" (Some "0123456789abcdef"%string)
                     default_params) initialized []
    = (Done false, s', [] ++ t)
    /\ filter_map closed_socket t = filter_map listening_socket t
    /\ count_events allocated t = count_events released t
    /\ count_events established t = count_events is_tunnel_removal t.
Proof.
  assert (Hfirst : 0 <= first (params_port_range default_params))
    by (cbn; lia).
  assert (Hlast : uint16 (last (params_port_range default_params)))
    by (unfold uint16; cbn; split; [lia|reflexivity]).
  destruct (server_start_adb_failure_cleans_up "/usr/local" "1.17" no_tunnel
              (Some "0123456789abcdef"%string) default_params initialized []
              eq_refl eq_refl eq_refl eq_refl Hfirst Hlast)
    as (b & s' & t & Hrun & Hpost).
  assert (Hb : b = false).
  { assert (Hfst : fst (fst (run no_tunnel
                               (server_start "/usr/local" "1.17"
                                  (Some "0123456789abcdef"%string) default_params)
                               initialized [])) = Done false)
      by (vm_compute; reflexivity).
    rewrite Hrun in Hfst. cbn in Hfst. now injection Hfst. }
  subst b. exists s', t. split; [exact Hrun|]. now apply Hpost.
Defined.

(** In the adb modes a [server_start] that returns [true] has closed
    nothing and has recorded a process and a thread; the listener is open
    exactly in the reverse mode; the only memory it keeps is the copy of
    the serial; one tunnel is left on the device. *)
Theorem server_start_adb_success_state :
  forall (prefix version : string) (env : oracle) (ser : option string)
         (params : server_params) (s : server) (h : list event)
         (s' : server) (h' : list event),
    direct s = false ->
    tunnel_forward s = false ->
    server_socket_closed s = false ->
    serial s = None ->
    0 <= first (params_port_range params) ->
    uint16 (last (params_port_range params)) ->
    run env (server_start prefix version ser params) s h = (Done true, s', h') ->
    exists t,
      h' = h ++ t
      /\ filter_map closed_socket t = []
      /\ filter_map listening_socket t
         = only_if (negb (tunnel_forward s')) (server_socket s')
      /\ (tunnel_forward s' = false -> is_valid_socket (server_socket s') = true)
      /\ count_events allocated t
         = count_events released t + match ser with Some _ => 1 | None => 0 end
      /\ count_events established t = count_events is_tunnel_removal t + 1
      /\ process_eqb (process s') PROCESS_NONE = false
      /\ tunnel_enabled s' = true
      /\ (exists th, wait_server_thread s' = Some th)
      /\ server_socket_closed s' = false.
Proof.
  intros prefix version env ser params s h s' h' Hdirect Hreverse Hflag Hserial
    Hfirst Hlast Hrun.
  destruct (server_start_adb_run prefix version env ser params s h Hdirect
              Hreverse Hflag Hserial Hfirst Hlast) as (b & s1 & t & Hrun1 & Hpost).
  rewrite Hrun in Hrun1. injection Hrun1 as <- <- ->.
  exists t. split; [reflexivity|].
  destruct Hpost as (Hc & Hl & Hv & Hm & He & Hp & Hen & Hth & Hfl & _).
  conjuncts.
Qed.

(** The local ports are in use: the reverse sweep fails on each port of
    the range and the forward mode is used. *)
Lemma server_start_adb_success_state_witness :
  exists s' t,
    run ports_busy (server_start "/usr/local" "1.17" None default_params)
      initialized [] = (Done true, s', [] ++ t)
    /\ filter_map closed_socket t = []
    /\ filter_map listening_socket t = []
    /\ tunnel_forward s' = true.
Proof.
  assert (Hfirst : 0 <= first (params_port_range default_params))
    by (cbn; lia).
  assert (Hlast : uint16 (last (params_port_range default_params)))
    by (unfold uint16; cbn; split; [lia|reflexivity]).
  assert (Hrun : run ports_busy (server_start "/usr/local" "1.17" None default_params)
                   initialized []
                 = (Done true,
                    snd (fst (run ports_busy
                                (server_start "/usr/local" "1.17" None default_params)
                                initialized [])),
                    snd (run ports_busy
                           (server_start "/usr/local" "1.17" None default_params)
                           initialized [])))
    by (vm_compute; reflexivity).
  destruct (server_start_adb_success_state "/usr/local" "1.17" ports_busy None
              default_params initialized [] _ _ eq_refl eq_refl eq_refl eq_refl
              Hfirst Hlast Hrun) as (t & Ht & Hc & Hl & _).
  assert (Hfwd : tunnel_forward
                   (snd (fst (run ports_busy
                                (server_start "/usr/local" "1.17" None default_params)
                                initialized []))) = true)
    by (vm_compute; reflexivity).
  eexists _, t. rewrite Hrun at 1. rewrite Ht.
  split; [reflexivity|]. split; [exact Hc|]. split; [|exact Hfwd].
  rewrite Hl, Hfwd. reflexivity.
Defined.

(** In the adb modes a [server_start] that returns [true] has started
    one agent, and has told it the tunnel mode the server records: the
    argument of the command line that stands for [tunnel_forward] is
    [true] when [server_connect_to] will connect through the forward
    tunnel and [false] when it will accept on the listener. *)
Theorem server_start_tells_the_agent_the_tunnel_mode :
  forall (prefix version : string) (env : oracle) (ser : option string)
         (params : server_params) (s : server) (h : list event)
         (s' : server) (h' : list event),
    direct s = false ->
    tunnel_forward s = false ->
    server_socket_closed s = false ->
    serial s = None ->
    0 <= first (params_port_range params) ->
    uint16 (last (params_port_range params)) ->
    run env (server_start prefix version ser params) s h = (Done true, s', h') ->
    exists t,
      h' = h ++ t
      /\ filter_map agent_tunnel_flag t = [bool_string (tunnel_forward s')]
      /\ filter_map listening_socket t
         = only_if (negb (tunnel_forward s')) (server_socket s').
Proof.
  intros prefix version env ser params s h s' h' Hdirect Hreverse Hflag Hserial
    Hfirst Hlast Hrun.
  destruct (server_start_adb_run prefix version env ser params s h Hdirect
              Hreverse Hflag Hserial Hfirst Hlast) as (b & s1 & t & Hrun1 & Hpost).
  rewrite Hrun in Hrun1. injection Hrun1 as <- <- ->.
  exists t. split; [reflexivity|].
  destruct Hpost as (_ & Hl & _ & _ & _ & _ & _ & _ & _ & _ & Hg & _). auto.
Qed.

(** The local ports are in use: the agent is told to listen. *)
Lemma server_start_tells_the_agent_the_tunnel_mode_witness :
  exists t,
    snd (run ports_busy (server_start "/usr/local" "1.17" None default_params)
           initialized []) = [] ++ t
    /\ filter_map agent_tunnel_flag t = ["true"%string].
Proof.
  assert (Hfirst : 0 <= first (params_port_range default_params))
    by (cbn; lia).
  assert (Hlast : uint16 (last (params_port_range default_params)))
    by (unfold uint16; cbn; split; [lia|reflexivity]).
  assert (Hrun : run ports_busy (server_start "/usr/local" "1.17" None default_params)
                   initialized []
                 = (Done true,
                    snd (fst (run ports_busy
                                (server_start "/usr/local" "1.17" None default_params)
                                initialized [])),
                    snd (run ports_busy
                           (server_start "/usr/local" "1.17" None default_params)
                           initialized [])))
    by (vm_compute; reflexivity).
  destruct (server_start_tells_the_agent_the_tunnel_mode "/usr/local" "1.17"
              ports_busy None default_params initialized [] _ _ eq_refl eq_refl
              eq_refl eq_refl Hfirst Hlast Hrun) as (t & Ht & Hg & _).
  assert (Hfwd : tunnel_forward
                   (snd (fst (run ports_busy
                                (server_start "/usr/local" "1.17" None default_params)
                                initialized []))) = true)
    by (vm_compute; reflexivity).
  rewrite Hfwd in Hg. exists t. split; [exact Ht|exact Hg].
Defined.

(** In the adb modes [server_stop] and then [server_destroy] return
    after a [server_start] that succeeded, from a server as
    [server_init] leaves it: the start has recorded a process, which is
    what the assertion of [server_stop] asks for.  The thread may have
    run in between: it does not write [process]. *)
Theorem server_stop_after_adb_start_completes :
  forall (prefix version : string) (env : oracle) (ser : option string)
         (params : server_params) (s : server) (h : list event)
         (s1 : server) (h1 : list event),
    direct s = false ->
    tunnel_forward s = false ->
    server_socket_closed s = false ->
    serial s = None ->
    0 <= first (params_port_range params) ->
    uint16 (last (params_port_range params)) ->
    run env (server_start prefix version ser params) s h = (Done true, s1, h1) ->
    forall (env' : oracle) (s2 : server) (h2 : list event),
      process s2 = process s1 ->
      exists s3 t u,
        run env' server_stop s2 h2 = (Done tt, s3, h2 ++ t)
        /\ run env' server_destroy s3 (h2 ++ t) = (Done tt, s3, (h2 ++ t) ++ u).
Proof.
  intros prefix version env ser params s h s1 h1 Hdirect Hreverse Hflag Hserial
    Hfirst Hlast Hrun env' s2 h2 Hsame.
  destruct (server_start_adb_run prefix version env ser params s h Hdirect
              Hreverse Hflag Hserial Hfirst Hlast) as (b & s' & t & Hrun1 & Hpost).
  rewrite Hrun in Hrun1. injection Hrun1 as <- <- ->.
  destruct Hpost as (_ & _ & _ & _ & _ & Hprocess & _).
  rewrite <- Hsame in Hprocess.
  destruct (ensures_run_nil env' server_stop _ s2 h2
              (server_stop_ensures s2 Hprocess))
    as ([] & s3 & t' & Hstop & _).
  exists s3, t'. eexists. split; [exact Hstop|]. apply run_server_destroy.
Qed.

Lemma server_stop_after_adb_start_completes_witness :
  exists s3 t u,
    run accept_all server_stop
      (snd (fst (run accept_all
                   (server_start "/usr/local" "1.17" None default_params)
                   initialized [])))
      (snd (run accept_all (server_start "/usr/local" "1.17" None default_params)
              initialized []))
    = (Done tt, s3,
       snd (run accept_all (server_start "/usr/local" "1.17" None default_params)
              initialized []) ++ t)
    /\ run accept_all server_destroy s3
         (snd (run accept_all (server_start "/usr/local" "1.17" None default_params)
                 initialized []) ++ t)
       = (Done tt, s3,
          (snd (run accept_all (server_start "/usr/local" "1.17" None default_params)
                  initialized []) ++ t) ++ u).
Proof.
  assert (Hfirst : 0 <= first (params_port_range default_params))
    by (cbn; lia).
  assert (Hlast : uint16 (last (params_port_range default_params)))
    by (unfold uint16; cbn; split; [lia|reflexivity]).
  assert (Hrun : run accept_all (server_start "/usr/local" "1.17" None default_params)
                   initialized []
                 = (Done true,
                    snd (fst (run accept_all
                                (server_start "/usr/local" "1.17" None default_params)
                                initialized [])),
                    snd (run accept_all
                           (server_start "/usr/local" "1.17" None default_params)
                           initialized [])))
    by (vm_compute; reflexivity).
  exact (server_stop_after_adb_start_completes "/usr/local" "1.17" accept_all None
           default_params initialized [] _ _ eq_refl eq_refl eq_refl eq_refl
           Hfirst Hlast Hrun accept_all _ _ eq_refl).
Defined.

(** ** run_wait_server *)

Lemma run_wait_server_ensures (s : server) :
  ensures run_wait_server
    (fun r s' t =>
       r = 0
       /\ s' = (if is_valid_socket (server_socket s)
                then set_server_socket_closed true (set_process_terminated true s)
                else set_process_terminated true s)
       /\ exists exited closing,
            t = [Ev (cmd_simple_wait (process s)) exited;
                 Ev (mutex_lock (mutex s)) tt;
                 Ev (cond_signal (process_terminated_cond s)) tt;
                 Ev (mutex_unlock (mutex s)) tt] ++ closing
            /\ filter_map closed_socket closing
               = only_if (is_valid_socket (server_socket s)
                          && negb (server_socket_closed s)) (server_socket s)
            /\ count_events is_cmd_terminate closing = 0
            /\ (closing = []
                \/ exists down closed,
                     closing = [Ev (net_shutdown (server_socket s)) down;
                                Ev (net_close (server_socket s)) closed]))
    s [].
Proof.
  destruct s as [ser base ad proc th flag mtx cnd term ssock vsock csock range
                 port enabled fwd dir].
  unfold run_wait_server, close_socket.
  destruct ssock, flag; cbn; intros;
    repeat match goal with u : unit |- _ => destruct u end;
    (split; [reflexivity|]); (split; [reflexivity|]);
    eexists; eexists; (split; [reflexivity|]); (split; [reflexivity|]);
    (split; [reflexivity|]);
    first [left; reflexivity | right; eexists; eexists; reflexivity].
Qed.

(** The thread, run alone, always returns 0, and no assertion fails in
    it.  Its calls are, in this order: the wait for the process, the
    lock of the mutex, the signal of the condition, the unlock of the
    mutex, and then nothing, or the shutdown and the close of the server
    socket; it closes that socket exactly when it is valid and the flag
    was clear.  It leaves [process_terminated] set, and the flag set
    when the server socket is valid. *)
Theorem run_wait_server_calls_in_order :
  forall (env : oracle) (s : server) (h : list event),
    exists s' exited closing,
      run env run_wait_server s h
      = (Done 0, s',
         h ++ [Ev (cmd_simple_wait (process s)) exited;
               Ev (mutex_lock (mutex s)) tt;
               Ev (cond_signal (process_terminated_cond s)) tt;
               Ev (mutex_unlock (mutex s)) tt] ++ closing)
      /\ process_terminated s' = true
      /\ server_socket_closed s'
         = (is_valid_socket (server_socket s) || server_socket_closed s)
      /\ filter_map closed_socket closing
         = only_if (is_valid_socket (server_socket s)
                    && negb (server_socket_closed s)) (server_socket s)
      /\ (closing = []
          \/ exists down closed,
               closing = [Ev (net_shutdown (server_socket s)) down;
                          Ev (net_close (server_socket s)) closed]).
Proof.
  intros env s h.
  destruct (ensures_run_nil env run_wait_server _ s h (run_wait_server_ensures s))
    as (r & s' & t & Hrun & -> & -> & exited & closing & -> & Hcloses & _ & Hshape).
  exists (if is_valid_socket (server_socket s)
          then set_server_socket_closed true (set_process_terminated true s)
          else set_process_terminated true s), exited, closing.
  split; [exact Hrun|].
  destruct (is_valid_socket (server_socket s)); auto.
Qed.

(** *** The thread under any interference *)

Lemma always_trace {A : Type} (P : list action -> Prop) (p0 : prog A)
    (a : list action) (p : prog A) :
  always P p0 [] -> thread_trace p0 a p -> always P p a.
Proof.
  intros Hstart Htrace.
  induction Htrace as [|a k m _ IH|a f k _ IH|a k old _ IH|a R c k r _ IH];
    [exact Hstart|..]; destruct IH as [_ IH]; cbn [always] in IH; auto.
Qed.

(** A step of the interleaving semantics is a step of [thread_trace]. *)
Lemma thread_step_trace {A : Type} (p0 : prog A) (a : list action)
    (m : server) (p : prog A) (label : list event) (m' : server) (p' : prog A) :
  thread_trace p0 a p ->
  thread_step m p label m' p' ->
  thread_trace p0 (a ++ [step_action p label]) p'.
Proof.
  intros Htrace Hstep. destruct Hstep; cbn [step_action].
  - now apply trace_fetch.
  - now apply trace_store.
  - now apply trace_test_and_set.
  - now apply trace_ext.
Qed.

(** In the interleaved executions of a caller, what a created thread
    has left to run is reached from [run_wait_server] by steps of
    [thread_trace]. *)
Lemma threads_traced (c0 c : config) :
  threads c0 = [] ->
  steps c0 c ->
  forall th q, In (th, q) (threads c) ->
               exists a, thread_trace run_wait_server a q.
Proof.
  intros Hnone Hsteps.
  assert (Hnew : forall label th q,
             In (th, q) (filter_map created_thread label) ->
             exists a, thread_trace run_wait_server a q).
  { intros label th q. induction label as [|e label IH]; cbn [filter_map];
      [intros []|].
    destruct (created_thread e) as [[th' q']|] eqn:He; [|exact IH].
    intros [Hin|Hin]; [|auto].
    injection Hin as -> ->. destruct e as [R what r].
    destruct what; cbn in He; try discriminate He.
    destruct r as [h'|]; [|discriminate He].
    injection He as _ <-. exists []. destruct fn. apply trace_start. }
  induction Hsteps as [c1|c1 c2 c3 _ IH Hstep]; intros th q Hin.
  - rewrite Hnone in Hin. destruct Hin.
  - specialize (IH Hnone).
    destruct Hstep as [m h p ts label m' p' _ _ _
                      |m h p ts1 ts2 th0 q0 label m' q' _ Hstep _];
      cbn [threads] in *.
    + apply in_app_or in Hin. destruct Hin as [Hin|Hin]; eauto.
    + apply in_app_or in Hin. destruct Hin as [Hin|Hin]; [|eauto].
      apply in_app_or in Hin. destruct Hin as [Hin|[Hin|Hin]].
      * apply (IH th q). apply in_or_app. now left.
      * injection Hin as <- <-.
        destruct (IH th0 q0) as [a Ha]; [apply in_or_app; right; now left|].
        eexists. eapply thread_step_trace; eassumption.
      * apply (IH th q). apply in_or_app. right. now right.
Qed.

Lemma run_wait_server_always_disciplined :
  always (lock_discipline Outside) run_wait_server [].
Proof.
  unfold run_wait_server, close_socket, when, assert.
  repeat (cbn;
          match goal with
          | |- _ /\ _ => split
          | |- forall _, _ => intro
          | |- context [if ?b then _ else _] => destruct b
          | |- True => exact I
          | |- _ = _ => reflexivity
          end).
Qed.

(** The thread keeps the discipline of the mutex whatever the caller
    does meanwhile.  In every sequence of steps of [run_wait_server],
    with any values read and any answers: the only write is the one that
    sets [process_terminated] to [true]; it is made after the lock of the
    mutex and before the signal of the condition; the signal is made
    after that write and before the unlock. *)
Theorem run_wait_server_writes_and_signals_under_lock :
  forall (a : list action) (p : prog Z),
    thread_trace run_wait_server a p -> lock_discipline Outside a.
Proof.
  intros a p Htrace.
  pose proof (always_trace (lock_discipline Outside) run_wait_server a p
                run_wait_server_always_disciplined Htrace) as Halways.
  destruct p; cbn [always] in Halways; destruct Halways as [Hdiscipline _];
    exact Hdiscipline.
Qed.

(** The steps of the thread up to its write. *)
Lemma run_wait_server_writes_and_signals_under_lock_witness :
  lock_discipline Outside
    [Read; Called (Ev (cmd_simple_wait (Process 105)) true); Read;
     Called (Ev (mutex_lock (Some 1)) tt); Wrote (set_process_terminated true)].
Proof.
  pose proof (trace_start run_wait_server) as Htrace.
  unfold run_wait_server in Htrace at 2. cbn [bind get ext put] in Htrace.
  apply (trace_fetch _ _ _ connected_reverse) in Htrace.
  cbn [app process connected_reverse] in Htrace.
  apply (trace_ext _ _ _ _ _ true) in Htrace.
  cbn [app] in Htrace.
  apply (trace_fetch _ _ _ connected_reverse) in Htrace.
  cbn [app mutex connected_reverse] in Htrace.
  apply (trace_ext _ _ _ _ _ tt) in Htrace.
  cbn [app] in Htrace.
  apply trace_store in Htrace.
  cbn [app] in Htrace.
  exact (run_wait_server_writes_and_signals_under_lock _ _ Htrace).
Defined.

(** Once the thread has run, [server_stop] does not wait for the
    process, kills nothing, and leaves the server socket alone: the
    thread has closed it or it was never opened. *)
Theorem server_stop_after_thread :
  forall (env env' : oracle) (s : server) (h h' : list event)
         (r : Z) (s1 : server) (h1 : list event),
    process_eqb (process s) PROCESS_NONE = false ->
    run env run_wait_server s h = (Done r, s1, h1) ->
    exists s2 t,
      run env' server_stop s1 h' = (Done tt, s2, h' ++ t)
      /\ count_events is_cond_wait_timeout t = 0
      /\ count_events is_cmd_terminate t = 0
      /\ filter_map closed_socket t
         = only_if (is_valid_socket (video_socket s)) (video_socket s)
           ++ only_if (is_valid_socket (control_socket s)) (control_socket s).
Proof.
  intros env env' s h h' r s1 h1 Hprocess Hrun.
  destruct (ensures_run_nil env run_wait_server _ s h (run_wait_server_ensures s))
    as (r' & s' & t & Hrun' & _ & Hstate & _).
  rewrite Hrun in Hrun'. injection Hrun' as <- <- _. clear Hrun.
  assert (Hfields : process s1 = process s
                    /\ process_terminated s1 = true
                    /\ video_socket s1 = video_socket s
                    /\ control_socket s1 = control_socket s
                    /\ server_socket s1 = server_socket s
                    /\ (is_valid_socket (server_socket s) = true ->
                        server_socket_closed s1 = true)).
  { rewrite Hstate. clear.
    destruct s as [ser base ad proc th flag mtx cnd term ssock vsock csock range
                   port enabled fwd dir].
    cbn. destruct (is_valid_socket ssock); cbn; conjuncts. }
  destruct Hfields as (Hp & Hterm & Hv & Hc & Hs & Hflag).
  rewrite <- Hp in Hprocess.
  destruct (ensures_run_nil env' server_stop _ s1 h'
              (server_stop_ensures s1 Hprocess))
    as ([] & s2 & t2 & Hstop & _ & _ & Hcloses & Hkill & Hwait & _).
  exists s2, t2. split; [exact Hstop|].
  rewrite Hterm in Hwait. cbn [negb Z.b2z] in Hwait.
  split; [exact Hwait|].
  assert (Hnone : count_events timed_out t2 = 0).
  { clear - Hwait. unfold count_events in *.
    induction t2 as [|e t2 IH]; [reflexivity|].
    cbn [filter] in *. destruct e as [R c x].
    destruct c; cbn in *; try (apply IH; exact Hwait).
    cbn [List.length] in Hwait. lia. }
  split; [lia|].
  rewrite Hcloses, Hv, Hc, Hs.
  destruct (is_valid_socket (server_socket s)) eqn:Hvalid; cbn [andb only_if app];
    [|reflexivity].
  rewrite (Hflag eq_refl). reflexivity.
Qed.

Lemma server_stop_after_thread_witness :
  exists s2 t,
    run accept_all server_stop
      (snd (fst (run accept_all run_wait_server connected_reverse []))) []
    = (Done tt, s2, [] ++ t)
    /\ count_events is_cond_wait_timeout t = 0
    /\ count_events is_cmd_terminate t = 0.
Proof.
  assert (Hrun : run accept_all run_wait_server connected_reverse []
                 = (Done 0,
                    snd (fst (run accept_all run_wait_server connected_reverse [])),
                    snd (run accept_all run_wait_server connected_reverse [])))
    by (vm_compute; reflexivity).
  destruct (server_stop_after_thread accept_all accept_all connected_reverse [] []
              0 _ _ eq_refl Hrun) as (s2 & t & Hstop & Hwait & Hkill & _).
  exists s2, t. auto.
Defined.

(** ** The calls a program can make *)

Lemma emits_run {A : Type} (P : event -> bool) (env : oracle) (p : prog A) :
  emits P p ->
  forall (s : server) (h : list event),
    exists t, snd (run env p s h) = h ++ t /\ Forall (fun e => P e = true) t.
Proof.
  induction p as [a|msg| |k IH|g k IH|k IH|R c k IH]; intros Hp s h;
    cbn [emits run] in *;
    try (exists []; rewrite app_nil_r; split; [reflexivity|constructor]);
    auto.
  destruct (Hp (env h _ c)) as [Hc Hk].
  destruct (IH _ Hk s (h ++ [Ev c (env h _ c)])) as (t & Ht & HP).
  exists (Ev c (env h _ c) :: t). rewrite Ht, <- app_assoc.
  split; [reflexivity|]. now constructor.
Qed.

Lemma emits_bind {A B : Type} (P : event -> bool) (p : prog A) (f : A -> prog B) :
  emits P p -> (forall a, emits P (f a)) -> emits P (bind p f).
Proof.
  intros Hp Hf.
  induction p as [a|msg| |k IH|g k IH|k IH|R c k IH]; cbn [emits bind] in *; auto.
  intros r. destruct (Hp r). auto.
Qed.

Lemma Forall_count_zero (P Q : event -> bool) (t : list event) :
  (forall e, P e = true -> Q e = false) ->
  Forall (fun e => P e = true) t -> count_events Q t = 0.
Proof.
  intros HPQ Ht. unfold count_events.
  induction Ht as [|e t He Ht IH]; [reflexivity|].
  cbn [filter]. now rewrite (HPQ e He).
Qed.

Lemma connect_to_server_loop_emits (addr' port delay : Z) :
  forall (fuel : nat) (attempts : Z),
    emits is_probe_call (connect_to_server_loop fuel addr' port attempts delay).
Proof.
  induction fuel as [|fuel IH]; intros attempts; [exact I|].
  rewrite connect_to_server_loop_unfold. apply emits_bind.
  - unfold connect_and_read_byte. cbn. intros sock. split; [reflexivity|].
    destruct (is_valid_socket sock); cbn; [|exact I].
    intros n. split; [reflexivity|]. destruct (n =? 1); cbn; auto.
  - intros sock. destruct (is_valid_socket sock); [exact I|].
    apply emits_bind.
    + destruct (attempts =? 0); cbn; auto.
    + intros _. destruct (_ >? 0); [apply IH|exact I].
Qed.

(** [connect_to_server] with [1 <= attempts]: it returns, and makes no
    other calls than those of its probes and its sleeps, [attempts] of
    each at most. *)
Lemma connect_to_server_calls (env : oracle) (addr' port attempts delay : Z)
    (s : server) (h : list event) :
  1 <= attempts < UINT32_MODULUS ->
  exists sock t,
    run env (connect_to_server addr' port attempts delay) s h
      = (Done sock, s, h ++ t)
    /\ Forall (fun e => is_probe_call e = true) t
    /\ count_events is_net_connect t <= attempts
    /\ count_events is_SDL_Delay t <= attempts.
Proof.
  intros Hrange. unfold connect_to_server.
  rewrite connect_iterations_positive by lia.
  destruct (connect_to_server_loop_counts env addr' port delay
              (Z.to_nat attempts) attempts s h Hrange)
    as (sock & t & Hrun & Hconnects & Hvalid & Hinvalid); [lia|].
  destruct (emits_run is_probe_call env _
              (connect_to_server_loop_emits addr' port delay (Z.to_nat attempts)
                 attempts) s h) as (t' & Ht & Hcalls).
  rewrite Hrun in Ht. cbn [snd] in Ht. apply app_inv_head in Ht. subst t'.
  exists sock, t. split; [exact Hrun|]. split; [exact Hcalls|]. split; [lia|].
  destruct (is_valid_socket sock).
  - destruct (Hvalid eq_refl) as [Hdelays _]. lia.
  - destruct (Hinvalid eq_refl) as (_ & Hdelays & _). lia.
Qed.

(** ** The tunnel across server_connect_to and server_stop *)

(** The forward mode of [server_connect_to] once the video socket is
    there or not. *)
Lemma server_connect_to_forward_ensures (sock : socket_t) (s : server) :
  ensures
    (put (set_video_socket sock);;
     video_socket' <- get video_socket;;
     if negb (is_valid_socket video_socket') then
       Ret false
     else
       port <- get local_port;;
       socket <- ext (net_connect IPV4_LOCALHOST port);;
       put (set_control_socket socket);;
       control_socket' <- get control_socket;;
       if negb (is_valid_socket control_socket') then
         Ret false
       else
         disable_tunnel;;
         put (set_tunnel_enabled false);;
         Ret true)
    (fun b s' t =>
       process s' = process s
       /\ direct s' = direct s
       /\ tunnel_enabled s' = (tunnel_enabled s && negb b)
       /\ count_events is_tunnel_removal t = Z.b2z b
       /\ b = is_valid_socket (video_socket s')
               && is_valid_socket (control_socket s')
       /\ count_events is_net_connect t <= 1
       /\ count_events is_SDL_Delay t = 0
       /\ count_events is_net_accept t = 0)
    s [].
Proof.
  destruct s as [ser base ad proc th flag mtx cnd term ssock vsock csock range
                 port enabled fwd dir].
  unfold disable_tunnel, disable_tunnel_forward, disable_tunnel_reverse.
  destruct sock as [|fd]; cbn.
  - rewrite andb_true_r. unfold count_events. cbn. conjuncts.
  - intros [|fd']; cbn.
    + rewrite andb_true_r. unfold count_events. cbn. conjuncts.
    + destruct fwd; cbn; intros; rewrite andb_false_r; unfold count_events; cbn;
        conjuncts.
Qed.

(** The direct mode of [server_connect_to] once the video socket is
    there or not. *)
Lemma server_connect_to_direct_ensures (sock : socket_t) (s : server) :
  ensures
    (put (set_video_socket sock);;
     video_socket' <- get video_socket;;
     if negb (is_valid_socket video_socket') then
       Ret false
     else
       addr' <- get addr;;
       range <- get port_range;;
       socket <- ext (net_connect addr' (first range));;
       put (set_control_socket socket);;
       control_socket' <- get control_socket;;
       if negb (is_valid_socket control_socket') then
         Ret false
       else
         Ret true)
    (fun b s' t =>
       b = is_valid_socket (video_socket s') && is_valid_socket (control_socket s')
       /\ count_events is_net_connect t <= 1
       /\ count_events is_SDL_Delay t = 0
       /\ count_events is_net_accept t = 0
       /\ Forall (fun e => is_probe_call e = true) t
       /\ server_socket s' = server_socket s
       /\ server_socket_closed s' = server_socket_closed s
       /\ tunnel_enabled s' = tunnel_enabled s)
    s [].
Proof.
  destruct s as [ser base ad proc th flag mtx cnd term ssock vsock csock range
                 port enabled fwd dir].
  destruct sock as [|fd]; cbn.
  - unfold count_events. cbn. conjuncts.
  - intros [|fd']; cbn; unfold count_events; cbn; conjuncts.
Qed.

(** The reverse mode of [server_connect_to]. *)
Lemma server_connect_to_reverse_ensures (s : server) :
  is_valid_socket (server_socket s) = true ->
  ensures
    (server_socket' <- get server_socket;;
     socket <- ext (net_accept server_socket');;
     put (set_video_socket socket);;
     video_socket' <- get video_socket;;
     if negb (is_valid_socket video_socket') then
       Ret false
     else
       server_socket' <- get server_socket;;
       socket <- ext (net_accept server_socket');;
       put (set_control_socket socket);;
       control_socket' <- get control_socket;;
       if negb (is_valid_socket control_socket') then
         Ret false
       else
         was_closed <- atomic_flag_test_and_set;;
         when (negb was_closed)
           (server_socket' <- get server_socket;;
            close_socket server_socket');;
         Ret true)
    (fun b s' t =>
       process s' = process s
       /\ direct s' = direct s
       /\ tunnel_enabled s' = tunnel_enabled s
       /\ count_events is_tunnel_removal t = 0
       /\ b = is_valid_socket (video_socket s')
               && is_valid_socket (control_socket s')
       /\ count_events is_net_connect t = 0
       /\ count_events is_SDL_Delay t = 0
       /\ count_events is_net_accept t <= 2)
    s [].
Proof.
  destruct s as [ser base ad proc th flag mtx cnd term ssock vsock csock range
                 port enabled fwd dir].
  cbn [server_socket]. intros Hvalid.
  destruct ssock as [|fd]; [discriminate Hvalid|]. clear Hvalid.
  unfold close_socket. cbn. intros [|v]; cbn;
    [unfold count_events; cbn; conjuncts|].
  intros [|c]; cbn; [unfold count_events; cbn; conjuncts|].
  destruct flag; cbn; intros; unfold count_events; cbn; conjuncts.
Qed.

(** [started_forward] is the state a start reaches when the forward
    mode is forced and every collaborator succeeds. *)
Lemma started_forward_reached :
  fst (run accept_all (server_start "/usr/local" "1.17" None forward_params)
         initialized [])
  = (Done true, started_forward).
Proof.
  vm_compute. reflexivity.
Qed.

(** In the adb modes the tunnel is removed once over a connection and
    the stop that follows, whether the connection succeeds or not:
    [server_connect_to] removes the forward tunnel when it succeeds and
    clears [tunnel_enabled], and [server_stop] removes the tunnel when
    [tunnel_enabled] is still set. *)
Theorem tunnel_removed_once_over_connect_and_stop :
  forall (env : oracle) (s : server) (h : list event),
    direct s = false ->
    tunnel_enabled s = true ->
    process_eqb (process s) PROCESS_NONE = false ->
    (tunnel_forward s = false -> is_valid_socket (server_socket s) = true) ->
    exists b s1 t1,
      run env server_connect_to s h = (Done b, s1, h ++ t1)
      /\ forall (env' : oracle) (h' : list event),
           exists s2 t2,
             run env' server_stop s1 h' = (Done tt, s2, h' ++ t2)
             /\ count_events is_tunnel_removal t1
                + count_events is_tunnel_removal t2 = 1.
Proof.
  intros env s h Hdirect Henabled Hprocess Hvalid.
  assert (Hstop : forall s1 t1,
             process s1 = process s -> direct s1 = false ->
             count_events is_tunnel_removal t1
             + Z.b2z (tunnel_enabled s1) = 1 ->
             forall (env' : oracle) (h' : list event),
             exists s2 t2,
               run env' server_stop s1 h' = (Done tt, s2, h' ++ t2)
               /\ count_events is_tunnel_removal t1
                  + count_events is_tunnel_removal t2 = 1).
  { intros s1 t1 Hp Hd Hsum env' h'. rewrite <- Hp in Hprocess.
    destruct (ensures_run_nil env' server_stop _ s1 h'
                (server_stop_ensures s1 Hprocess))
      as ([] & s2 & t2 & Hrun & _ & _ & _ & _ & _ & Hremoved & _).
    exists s2, t2. split; [exact Hrun|].
    rewrite Hremoved, Hd, andb_true_r. exact Hsum. }
  unfold server_connect_to. rewrite run_get_bind, Hdirect, run_get_bind.
  destruct (tunnel_forward s) eqn:Hforward.
  - rewrite run_get_bind, run_bind.
    destruct (connect_to_server_calls env IPV4_LOCALHOST (local_port s) 100 100
                s h) as (sock & t & Hconnect & Hcalls & _);
      [split; [lia|reflexivity]|].
    rewrite Hconnect.
    destruct (ensures_run env _ _ s [] (server_connect_to_forward_ensures sock s)
                (h ++ t)) as (b & s1 & t1 & Hrun & Hp & Hd & Hen & Hcount & _).
    rewrite app_nil_r in Hrun. rewrite Hrun.
    exists b, s1, (t ++ t1). rewrite <- app_assoc. split; [reflexivity|].
    apply Hstop; [exact Hp|congruence|].
    rewrite count_events_app, Hcount, Hen, Henabled.
    rewrite (Forall_count_zero is_probe_call is_tunnel_removal t); [|clear|assumption].
    + destruct b; reflexivity.
    + intros [R c r]; destruct c; cbn; congruence.
  - destruct (ensures_run_nil env _ _ s h
                (server_connect_to_reverse_ensures s (Hvalid eq_refl)))
      as (b & s1 & t1 & Hrun & Hp & Hd & Hen & Hcount & _).
    rewrite Hrun. exists b, s1, t1. split; [reflexivity|].
    apply Hstop; [exact Hp|congruence|].
    rewrite Hcount, Hen, Henabled. reflexivity.
Qed.


(** The forward mode, port 27183: the connection removes the tunnel
    and the stop does not. *)
Lemma tunnel_removed_once_over_connect_and_stop_witness :
  exists b s1 t1,
    run accept_all server_connect_to started_forward [] = (Done b, s1, [] ++ t1)
    /\ exists s2 t2,
         run accept_all server_stop s1 ([] ++ t1) = (Done tt, s2, ([] ++ t1) ++ t2)
         /\ count_events is_tunnel_removal t1
            + count_events is_tunnel_removal t2 = 1.
Proof.
  destruct (tunnel_removed_once_over_connect_and_stop accept_all started_forward
              [] eq_refl eq_refl eq_refl)
    as (b & s1 & t1 & Hrun & Hstop); [discriminate|].
  exists b, s1, t1. split; [exact Hrun|]. apply Hstop.
Defined.

(** ** disable_tunnel after enable_tunnel_any_port *)

Lemma reverse_sweep_last (ser : option string) (range : sc_port_range)
    (port : Z) (s : server) (t : list event) (b : bool) (s' : server) :
  reverse_sweep ser range port s t b s' ->
  b = true ->
  exists pre pr,
    t = pre ++ [Ev (adb_reverse ser SOCKET_NAME (local_port s')) pr;
                Ev (process_check_success pr "adb reverse") true;
                Ev (net_listen IPV4_LOCALHOST (local_port s') 1) (server_socket s')].
Proof.
  induction 1 as [port s pr|port s pr sock Hvalid|port s pr rm removed Hlast
                  |port s pr rm removed t b s' Hlt Hsweep IH]; intros Hb;
    try discriminate Hb.
  - exists [], pr. destruct s. reflexivity.
  - destruct (IH Hb) as (pre & pr' & ->).
    exists (reverse_round ser port pr rm removed ++ pre), pr'.
    now rewrite <- app_assoc.
Qed.

Lemma forward_sweep_last (ser : option string) (range : sc_port_range)
    (port : Z) (s : server) (t : list event) (b : bool) (s' : server) :
  forward_sweep ser range port s t b s' ->
  b = true ->
  exists pre pr,
    t = pre ++ [Ev (adb_forward ser (local_port s') SOCKET_NAME) pr;
                Ev (process_check_success pr "adb forward") true].
Proof.
  induction 1 as [port s pr|port s pr Hlast|port s pr t b s' Hlt Hsweep IH];
    intros Hb; try discriminate Hb.
  - exists [], pr. destruct s. reflexivity.
  - destruct (IH Hb) as (pre & pr' & ->).
    eexists (_ ++ pre), pr'. now rewrite <- app_assoc.
Qed.

Lemma run_disable_tunnel_forward (env : oracle) (s : server) (h : list event) :
  tunnel_forward s = true ->
  exists pr ok,
    run env disable_tunnel s h
    = (Done ok, s,
       h ++ [Ev (adb_forward_remove (serial s) (local_port s)) pr;
             Ev (process_check_success pr "adb forward --remove") ok]).
Proof.
  intros Hforward. unfold disable_tunnel, disable_tunnel_forward.
  run_head. rewrite Hforward. run_head. rewrite <- app_assoc.
  do 2 eexists. reflexivity.
Qed.

Lemma run_disable_tunnel_reverse (env : oracle) (s : server) (h : list event) :
  tunnel_forward s = false ->
  exists pr ok,
    run env disable_tunnel s h
    = (Done ok, s,
       h ++ [Ev (adb_reverse_remove (serial s) SOCKET_NAME) pr;
             Ev (process_check_success pr "adb reverse --remove") ok]).
Proof.
  intros Hforward. unfold disable_tunnel, disable_tunnel_reverse.
  run_head. rewrite Hforward. run_head. rewrite <- app_assoc.
  do 2 eexists. reflexivity.
Qed.

(** The forward strategy when it succeeds. *)
Lemma enable_tunnel_forward_any_port_last (env env' : oracle)
    (range : sc_port_range) (s0 : server) (h0 : list event)
    (s1 : server) (h1 h' : list event) :
  0 <= first range ->
  uint16 (last range) ->
  run env (enable_tunnel_forward_any_port range) s0 h0 = (Done true, s1, h1) ->
  exists pre pr0 pr ok,
    tunnel_forward s1 = true
    /\ h1 = h0 ++ pre
              ++ [Ev (adb_forward (serial s0) (local_port s1) SOCKET_NAME) pr0;
                  Ev (process_check_success pr0 "adb forward") true]
    /\ run env' disable_tunnel s1 h'
       = (Done ok, s1,
          h' ++ [Ev (adb_forward_remove (serial s0) (local_port s1)) pr;
                 Ev (process_check_success pr "adb forward --remove") ok]).
Proof.
  intros Hfirst Hlast H.
  assert (Hfuel : Z.max 0 (last range - first range) < Z.of_nat PORT_FUEL).
  { rewrite PORT_FUEL_value. unfold uint16 in Hlast. lia. }
  unfold enable_tunnel_forward_any_port in H. rewrite run_put_bind in H.
  destruct (enable_tunnel_forward_loop_sweep env range Hlast PORT_FUEL
              (first range) (set_tunnel_forward true s0) h0 Hfirst Hfuel)
    as (t & b & s' & Hloop & Hsweep).
  rewrite Hloop in H. injection H as -> -> <-.
  destruct (forward_sweep_state _ _ _ _ _ _ _ Hsweep) as (Hfwd & Hserial & _).
  destruct (forward_sweep_last _ _ _ _ _ _ _ Hsweep eq_refl) as (pre & pr0 & Ht).
  clear Hloop Hsweep.
  assert (Hfwd1 : tunnel_forward s1 = true).
  { rewrite Hfwd. clear. now destruct s0. }
  assert (Hserial1 : serial s1 = serial s0).
  { rewrite Hserial. clear. now destruct s0. }
  destruct (run_disable_tunnel_forward env' s1 h' Hfwd1) as (pr & ok & Hdisable).
  exists pre, pr0, pr, ok. split; [exact Hfwd1|].
  rewrite <- Hserial1. split; [|exact Hdisable].
  rewrite Ht, Hserial1. clear. now destruct s0.
Qed.

(** [enable_tunnel_any_port] by its two strategies. *)
Lemma run_enable_tunnel_any_port (env : oracle) (range : sc_port_range)
    (force : bool) (s : server) (h : list event) :
  run env (enable_tunnel_any_port range force) s h
  = if force then run env (enable_tunnel_forward_any_port range) s h
    else
      match run env (enable_tunnel_reverse_loop PORT_FUEL range (first range)) s h
      with
      | (Done true, s', h') => (Done true, s', h')
      | (Done false, s', h') =>
          run env (enable_tunnel_forward_any_port range) s' h'
      | (Aborted msg, s', h') => (Aborted msg, s', h')
      | (OutOfFuel, s', h') => (OutOfFuel, s', h')
      end.
Proof.
  unfold enable_tunnel_any_port. destruct force; cbn [negb]; [reflexivity|].
  rewrite run_bind. unfold enable_tunnel_reverse_any_port.
  destruct (run env (enable_tunnel_reverse_loop PORT_FUEL range (first range)) s h)
    as [[[[|]|msg|] s'] h']; reflexivity.
Qed.

(** [disable_tunnel] undoes what [enable_tunnel_any_port] did.  After
    a success of [enable_tunnel_any_port], the last command of the
    sweep is the one that set the tunnel up, on [local_port]; in the
    forward mode [disable_tunnel] removes the forward of that port for
    the same serial, in the reverse mode it removes the reverse of
    [SOCKET_NAME] for the same serial, and the listener on that port is
    the server socket. *)
Theorem disable_tunnel_removes_the_tunnel_enabled :
  forall (env env' : oracle) (range : sc_port_range) (force : bool)
         (s : server) (h : list event) (s1 : server) (h1 h' : list event),
    0 <= first range ->
    uint16 (last range) ->
    tunnel_forward s = false ->
    run env (enable_tunnel_any_port range force) s h = (Done true, s1, h1) ->
    exists pre pr0 pr ok,
      if tunnel_forward s1 then
        h1 = h ++ pre
               ++ [Ev (adb_forward (serial s) (local_port s1) SOCKET_NAME) pr0;
                   Ev (process_check_success pr0 "adb forward") true]
        /\ run env' disable_tunnel s1 h'
           = (Done ok, s1,
              h' ++ [Ev (adb_forward_remove (serial s) (local_port s1)) pr;
                     Ev (process_check_success pr "adb forward --remove") ok])
      else
        h1 = h ++ pre
               ++ [Ev (adb_reverse (serial s) SOCKET_NAME (local_port s1)) pr0;
                   Ev (process_check_success pr0 "adb reverse") true;
                   Ev (net_listen IPV4_LOCALHOST (local_port s1) 1)
                      (server_socket s1)]
        /\ run env' disable_tunnel s1 h'
           = (Done ok, s1,
              h' ++ [Ev (adb_reverse_remove (serial s) SOCKET_NAME) pr;
                     Ev (process_check_success pr "adb reverse --remove") ok]).
Proof.
  intros env env' range force s h s1 h1 h' Hfirst Hlast Hreverse Hrun.
  assert (Hfuel : Z.max 0 (last range - first range) < Z.of_nat PORT_FUEL).
  { rewrite PORT_FUEL_value. unfold uint16 in Hlast. lia. }
  rewrite run_enable_tunnel_any_port in Hrun. destruct force.
  - destruct (enable_tunnel_forward_any_port_last env env' range s h s1 h1 h'
                Hfirst Hlast Hrun) as (pre & pr0 & pr & ok & -> & H1 & H2).
    exists pre, pr0, pr, ok. auto.
  - destruct (enable_tunnel_reverse_loop_sweep env range Hlast PORT_FUEL
                (first range) s h Hfirst Hfuel) as (t1 & b1 & s1' & Hloop & Hsweep).
    rewrite Hloop in Hrun. clear Hloop.
    destruct (reverse_sweep_state _ _ _ _ _ _ _ Hsweep) as (Hfwd & Hserial & _).
    destruct b1.
    + injection Hrun as -> <-.
      destruct (reverse_sweep_last _ _ _ _ _ _ _ Hsweep eq_refl) as (pre & pr0 & ->).
      assert (Hfwd1 : tunnel_forward s1 = false) by congruence.
      destruct (run_disable_tunnel_reverse env' s1 h' Hfwd1) as (pr & ok & Hdisable).
      exists pre, pr0, pr, ok. rewrite Hfwd1, <- Hserial. auto.
    + destruct (enable_tunnel_forward_any_port_last env env' range s1' (h ++ t1)
                  s1 h1 h' Hfirst Hlast Hrun)
        as (pre & pr0 & pr & ok & -> & H1 & H2).
      exists (t1 ++ pre), pr0, pr, ok. rewrite <- Hserial, <- !app_assoc.
      rewrite <- !app_assoc in H1. auto.
Qed.

(** The reverse mode on the first port of the range. *)
Lemma disable_tunnel_removes_the_tunnel_enabled_witness :
  exists pre pr0 pr ok,
    snd (run accept_all (enable_tunnel_any_port (mk_port_range 27183 27199) false)
           initialized [])
    = [] ++ pre
         ++ [Ev (adb_reverse None SOCKET_NAME 27183) pr0;
             Ev (process_check_success pr0 "adb reverse") true;
             Ev (net_listen IPV4_LOCALHOST 27183 1) (Socket 6)]
    /\ run accept_all disable_tunnel
         (snd (fst (run accept_all
                      (enable_tunnel_any_port (mk_port_range 27183 27199) false)
                      initialized []))) []
       = (Done ok,
          snd (fst (run accept_all
                      (enable_tunnel_any_port (mk_port_range 27183 27199) false)
                      initialized [])),
          [] ++ [Ev (adb_reverse_remove None SOCKET_NAME) pr;
                 Ev (process_check_success pr "adb reverse --remove") ok]).
Proof.
  assert (Hfirst : 0 <= first (mk_port_range 27183 27199)) by (cbn; lia).
  assert (Hlast : uint16 (last (mk_port_range 27183 27199)))
    by (unfold uint16; cbn; split; [lia|reflexivity]).
  assert (Hrun : run accept_all
                   (enable_tunnel_any_port (mk_port_range 27183 27199) false)
                   initialized []
                 = (Done true,
                    snd (fst (run accept_all
                                (enable_tunnel_any_port (mk_port_range 27183 27199)
                                   false) initialized [])),
                    snd (run accept_all
                           (enable_tunnel_any_port (mk_port_range 27183 27199)
                              false) initialized [])))
    by (vm_compute; reflexivity).
  destruct (disable_tunnel_removes_the_tunnel_enabled accept_all accept_all
              (mk_port_range 27183 27199) false initialized [] _ _ [] Hfirst
              Hlast eq_refl Hrun) as (pre & pr0 & pr & ok & Hpost).
  exists pre, pr0, pr, ok.
  assert (Hfwd : tunnel_forward
                   (snd (fst (run accept_all
                                (enable_tunnel_any_port (mk_port_range 27183 27199)
                                   false) initialized []))) = false)
    by (vm_compute; reflexivity).
  rewrite Hfwd in Hpost. exact Hpost.
Defined.

(** ** server_connect_to: attempts and result *)

(** [server_connect_to] returns, provided the server socket is valid in
    the reverse mode.  It returns [true] exactly when it leaves two valid
    data sockets.  The direct mode makes at most 13 connections and 12
    sleeps, the forward mode at most 101 connections and 100 sleeps, and
    neither accepts; the reverse mode accepts at most twice and neither
    connects nor sleeps. *)
Theorem server_connect_to_bounded_attempts :
  forall (env : oracle) (s : server) (h : list event),
    (direct s = false -> tunnel_forward s = false ->
     is_valid_socket (server_socket s) = true) ->
    exists b s' t,
      run env server_connect_to s h = (Done b, s', h ++ t)
      /\ b = is_valid_socket (video_socket s') && is_valid_socket (control_socket s')
      /\ count_events is_net_connect t
         <= (if direct s then 13 else if tunnel_forward s then 101 else 0)
      /\ count_events is_SDL_Delay t
         <= (if direct s then 12 else if tunnel_forward s then 100 else 0)
      /\ count_events is_net_accept t
         <= (if direct s || tunnel_forward s then 0 else 2).
Proof.
  intros env s h Hvalid.
  assert (Hprobe : forall e, is_probe_call e = true -> is_net_accept e = false).
  { intros [R c r]; destruct c; cbn; congruence. }
  unfold server_connect_to. rewrite run_get_bind.
  destruct (direct s) eqn:Hdirect.
  - rewrite !run_get_bind, run_bind.
    destruct (connect_to_server_calls env (addr s) (first (port_range s)) 12 1000
                s h) as (sock & t & Hconnect & Hcalls & Hconnects & Hdelays);
      [split; [lia|reflexivity]|].
    rewrite Hconnect.
    destruct (ensures_run env _ _ s [] (server_connect_to_direct_ensures sock s)
                (h ++ t)) as (b & s1 & t1 & Hrun & Hb & Hc & Hd & Ha & _).
    rewrite app_nil_r in Hrun. rewrite Hrun.
    exists b, s1, (t ++ t1). rewrite <- app_assoc. split; [reflexivity|].
    rewrite !count_events_app, Hd, Ha,
      (Forall_count_zero is_probe_call is_net_accept t Hprobe Hcalls).
    cbn [orb]. conjuncts.
  - rewrite run_get_bind. destruct (tunnel_forward s) eqn:Hforward.
    + rewrite run_get_bind, run_bind.
      destruct (connect_to_server_calls env IPV4_LOCALHOST (local_port s) 100 100
                  s h) as (sock & t & Hconnect & Hcalls & Hconnects & Hdelays);
        [split; [lia|reflexivity]|].
      rewrite Hconnect.
      destruct (ensures_run env _ _ s [] (server_connect_to_forward_ensures sock s)
                  (h ++ t))
        as (b & s1 & t1 & Hrun & _ & _ & _ & _ & Hb & Hc & Hd & Ha).
      rewrite app_nil_r in Hrun. rewrite Hrun.
      exists b, s1, (t ++ t1). rewrite <- app_assoc. split; [reflexivity|].
      rewrite !count_events_app, Hd, Ha,
        (Forall_count_zero is_probe_call is_net_accept t Hprobe Hcalls).
      cbn [orb]. conjuncts.
    + destruct (ensures_run_nil env _ _ s h
                  (server_connect_to_reverse_ensures s (Hvalid eq_refl eq_refl)))
        as (b & s1 & t1 & Hrun & _ & _ & _ & _ & Hb & Hc & Hd & Ha).
      rewrite Hrun. exists b, s1, t1. split; [reflexivity|].
      cbn [orb]. conjuncts.
Qed.

(** The agent of the direct mode answers the first probe. *)
Lemma server_connect_to_bounded_attempts_witness :
  exists b s' t,
    run accept_all server_connect_to initialized_direct [] = (Done b, s', [] ++ t)
    /\ count_events is_net_connect t <= 13.
Proof.
  destruct (server_connect_to_bounded_attempts accept_all initialized_direct [])
    as (b & s' & t & Hrun & _ & Hconnects & _); [discriminate|].
  exists b, s', t. split; [exact Hrun|exact Hconnects].
Defined.

(** ** The serial after a start that failed *)

(** In the adb modes a [server_start] that fails has freed all it
    allocated, the copy of the serial included, but the pointer stays in
    [serial]: when [serial] is not [NULL] after the failure, a
    [server_destroy] on that server gives [SDL_free] one pointer more
    than was ever allocated. *)
Theorem server_destroy_after_failed_start_frees_again :
  forall (prefix version : string) (env env' : oracle) (ser : option string)
         (params : server_params) (s : server) (h : list event)
         (s' : server) (h' : list event),
    direct s = false ->
    tunnel_forward s = false ->
    server_socket_closed s = false ->
    serial s = None ->
    0 <= first (params_port_range params) ->
    uint16 (last (params_port_range params)) ->
    run env (server_start prefix version ser params) s h = (Done false, s', h') ->
    serial s' <> None ->
    exists t u,
      h' = h ++ t
      /\ count_events allocated t = count_events released t
      /\ run env' server_destroy s' h' = (Done tt, s', h' ++ u)
      /\ count_events allocated (t ++ u) < count_events released (t ++ u).
Proof.
  intros prefix version env env' ser params s h s' h' Hdirect Hreverse Hflag
    Hserial Hfirst Hlast Hrun Hkept.
  destruct (server_start_adb_run prefix version env ser params s h Hdirect
              Hreverse Hflag Hserial Hfirst Hlast) as (b & s1 & t & Hrun1 & Hpost).
  rewrite Hrun in Hrun1. injection Hrun1 as <- <- ->.
  destruct Hpost as (_ & Hmem & _).
  exists t. eexists. split; [reflexivity|]. split; [exact Hmem|].
  split; [apply run_server_destroy|].
  rewrite !count_events_app, Hmem.
  destruct (serial s') as [copy|]; [|contradiction].
  destruct (url s'); unfold count_events; cbn; lia.
Qed.

(** No port can be listened on or forwarded and the start fails: the
    copy of the serial is freed and still recorded. *)
Lemma server_destroy_after_failed_start_frees_again_witness :
  exists t u,
    snd (run no_tunnel
           (server_start "/usr/local" "1.17" (Some "0123456789abcdef"%string)
              default_params) initialized []) = [] ++ t
    /\ count_events allocated (t ++ u) < count_events released (t ++ u).
Proof.
  assert (Hfirst : 0 <= first (params_port_range default_params))
    by (cbn; lia).
  assert (Hlast : uint16 (last (params_port_range default_params)))
    by (unfold uint16; cbn; split; [lia|reflexivity]).
  assert (Hrun : run no_tunnel
                   (server_start "/usr/local" "1.17"
                      (Some "0123456789abcdef"%string) default_params)
                   initialized []
                 = (Done false,
                    snd (fst (run no_tunnel
                                (server_start "/usr/local" "1.17"
                                   (Some "0123456789abcdef"%string) default_params)
                                initialized [])),
                    snd (run no_tunnel
                           (server_start "/usr/local" "1.17"
                              (Some "0123456789abcdef"%string) default_params)
                           initialized [])))
    by (vm_compute; reflexivity).
  assert (Hkept : serial
                    (snd (fst (run no_tunnel
                                 (server_start "/usr/local" "1.17"
                                    (Some "0123456789abcdef"%string) default_params)
                                 initialized []))) <> None)
    by (vm_compute; discriminate).
  destruct (server_destroy_after_failed_start_frees_again "/usr/local" "1.17"
              no_tunnel accept_all (Some "0123456789abcdef"%string) default_params
              initialized [] _ _ eq_refl eq_refl eq_refl eq_refl Hfirst Hlast
              Hrun Hkept) as (t & u & Ht & _ & _ & Hmore).
  exists t, u. split; [exact Ht|exact Hmore].
Defined.

(** ** The direct mode of server_start *)

(** In the direct mode a [server_start] that returns [true] has made
    no adb call and opened no socket: it has copied the serial when one
    was given, sent the start request, and created the thread.  It
    leaves [process] as it was and sets [tunnel_enabled]. *)
Theorem server_start_direct_success_calls :
  forall (prefix version : string) (env : oracle) (ser : option string)
         (params : server_params) (s : server) (h : list event)
         (s' : server) (h' : list event),
    direct s = true ->
    run env (server_start prefix version ser params) s h = (Done true, s', h') ->
    exists answer th,
      h' = h ++ match ser with
                | Some text => [Ev (SDL_strdup text) (serial s')]
                | None => []
                end
             ++ [Ev (curl_get (start_url version (url s) params) 1024) answer;
                 Ev (SDL_CreateThread RUN_WAIT_SERVER "wait-server") (Some th)]
      /\ (ser <> None -> serial s' <> None)
      /\ curl_response_ok (fst answer) (snd answer) = true
      /\ process s' = process s
      /\ tunnel_enabled s' = true
      /\ wait_server_thread s' = Some th
      /\ server_socket s' = server_socket s.
Proof.
  intros prefix version env ser params s h s' h' Hdirect Hrun.
  assert (Htail : forall s0 h0,
             direct s0 = true ->
             run env
               (direct' <- get direct;;
                if direct' then
                  started <- execute_server_curl version params;;
                  if negb started then server_start_error2
                  else server_start_thread
                else
                  pushed <- push_server prefix ser;;
                  if negb pushed then server_start_error1
                  else
                    tunnel <- enable_tunnel_any_port (params_port_range params)
                                (force_adb_forward params);;
                    if negb tunnel then server_start_error1
                    else
                      process' <- execute_server_adb version params;;
                      put (set_process process');;
                      own <- get process;;
                      if process_eqb own PROCESS_NONE then server_start_error2
                      else server_start_thread) s0 h0 = (Done true, s', h') ->
             exists answer th,
               h' = h0 ++ [Ev (curl_get (start_url version (url s0) params) 1024)
                             answer;
                           Ev (SDL_CreateThread RUN_WAIT_SERVER "wait-server")
                             (Some th)]
               /\ curl_response_ok (fst answer) (snd answer) = true
               /\ s' = set_tunnel_enabled true (set_wait_server_thread (Some th) s0)).
  { intros s0 h0 Hd H. rewrite run_get_bind, Hd in H.
    rewrite run_bind in H. unfold execute_server_curl in H.
    cbn [get ext bind run] in H.
    destruct (curl_response_ok _ _) eqn:Hanswer; cbn [negb] in H.
    - apply server_start_thread_true in H. destruct H as (th & -> & ->).
      eexists _, th. rewrite <- app_assoc. split; [reflexivity|].
      split; [exact Hanswer|reflexivity].
    - now apply server_start_error2_not_true in H. }
  unfold server_start in Hrun. rewrite run_put_bind, run_bind in Hrun.
  destruct ser as [text|].
  - rewrite run_ext_bind, run_put_bind, run_get_bind in Hrun.
    cbn [run serial set_serial] in Hrun.
    destruct (env h _ (SDL_strdup text)) as [copy|]; cbn [negb] in Hrun;
      [|discriminate Hrun].
    apply Htail in Hrun; [|exact Hdirect].
    destruct Hrun as (answer & th & -> & Hanswer & ->).
    exists answer, th. rewrite <- app_assoc. cbn. conjuncts.
  - cbn [run negb] in Hrun. apply Htail in Hrun; [|exact Hdirect].
    destruct Hrun as (answer & th & -> & Hanswer & ->).
    exists answer, th. cbn. conjuncts.
Qed.

Lemma server_start_direct_success_calls_witness :
  exists answer th,
    snd (run accept_all (server_start "/usr/local" "1.17" None default_params)
           initialized_direct [])
    = [] ++ []
         ++ [Ev (curl_get (start_url "1.17" (url initialized_direct) default_params)
                   1024) answer;
             Ev (SDL_CreateThread RUN_WAIT_SERVER "wait-server") (Some th)]
    /\ process (snd (fst (run accept_all
                            (server_start "/usr/local" "1.17" None default_params)
                            initialized_direct []))) = PROCESS_NONE.
Proof.
  assert (Hrun : run accept_all (server_start "/usr/local" "1.17" None default_params)
                   initialized_direct []
                 = (Done true,
                    snd (fst (run accept_all
                                (server_start "/usr/local" "1.17" None default_params)
                                initialized_direct [])),
                    snd (run accept_all
                           (server_start "/usr/local" "1.17" None default_params)
                           initialized_direct [])))
    by (vm_compute; reflexivity).
  destruct (server_start_direct_success_calls "/usr/local" "1.17" accept_all None
              default_params initialized_direct [] _ _ eq_refl Hrun)
    as (answer & th & Ht & _ & _ & Hprocess & _).
  exists answer, th. split; [exact Ht|exact Hprocess].
Defined.

(** ** The account of the sockets *)

Lemma sockets_opened_app (t u : list event) :
  sockets_opened (t ++ u) = sockets_opened t + sockets_opened u.
Proof.
  unfold sockets_opened. rewrite !filter_map_app, !length_app. lia.
Qed.

Lemma sockets_closed_app (t u : list event) :
  sockets_closed (t ++ u) = sockets_closed t + sockets_closed u.
Proof.
  unfold sockets_closed. rewrite filter_map_app, length_app. lia.
Qed.

(** One probe: the socket it got is returned or closed. *)
Lemma probe_sockets (env : oracle) (addr' port : Z) (s : server) (h : list event) :
  exists sock tp,
    run env (connect_and_read_byte addr' port) s h = (Done sock, s, h ++ tp)
    /\ sockets_opened tp = sockets_closed tp + Z.b2z (is_valid_socket sock)
    /\ count_events is_tunnel_removal tp = 0
    /\ count_events established tp = 0.
Proof.
  pose proof (run_connect_and_read_byte env addr' port s h) as Hrun.
  cbv zeta in Hrun. rewrite Hrun. clear Hrun.
  set (sock := env h _ (net_connect addr' port)).
  destruct (is_valid_socket sock) eqn:Hvalid.
  - match goal with |- context [?n =? 1] => destruct (n =? 1) end.
    + exists sock. eexists. rewrite <- app_assoc. split; [reflexivity|].
      unfold sockets_opened, sockets_closed, count_events. cbn.
      rewrite Hvalid. cbn. auto.
    + exists INVALID_SOCKET. eexists. rewrite <- !app_assoc.
      split; [reflexivity|].
      unfold sockets_opened, sockets_closed, count_events. cbn.
      rewrite Hvalid. cbn. auto.
  - exists INVALID_SOCKET. eexists. split; [reflexivity|].
    unfold sockets_opened, sockets_closed, count_events. cbn.
    rewrite Hvalid. cbn. auto.
Qed.

Lemma connect_to_server_loop_sockets (env : oracle) (addr' port delay : Z) :
  forall (fuel : nat) (attempts : Z) (s : server) (h : list event),
  exists o t,
    run env (connect_to_server_loop fuel addr' port attempts delay) s h
      = (o, s, h ++ t)
    /\ forall sock,
         o = Done sock ->
         sockets_opened t = sockets_closed t + Z.b2z (is_valid_socket sock)
         /\ count_events is_tunnel_removal t = 0
         /\ count_events established t = 0.
Proof.
  induction fuel as [|fuel IH]; intros attempts s h.
  - exists OutOfFuel, []. cbn. rewrite app_nil_r. split; [reflexivity|].
    discriminate.
  - rewrite connect_to_server_loop_unfold, run_bind.
    destruct (probe_sockets env addr' port s h)
      as (sock & tp & Hprobe & Hp & Hr & He).
    rewrite Hprobe. destruct (is_valid_socket sock) eqn:Hvalid.
    + exists (Done sock), tp. cbn [run]. split; [reflexivity|].
      intros sock' Hsock. injection Hsock as <-. rewrite Hvalid. auto.
    + rewrite run_bind.
      assert (Hsleep : exists u,
                 run env (when (negb (attempts =? 0)) (ext (SDL_Delay delay))) s
                   (h ++ tp) = (Done tt, s, (h ++ tp) ++ u)
                 /\ sockets_opened u = 0 /\ sockets_closed u = 0
                 /\ count_events is_tunnel_removal u = 0
                 /\ count_events established u = 0).
      { destruct (attempts =? 0); cbn [negb when ext run].
        - exists []. rewrite app_nil_r. auto.
        - eexists [_]. rewrite (unit_is_tt (env _ unit _)). auto 10. }
      destruct Hsleep as (u & Hsleep & Hou & Hcu & Hru & Heu). rewrite Hsleep.
      cbn [Z.b2z] in Hp.
      destruct ((attempts - 1) mod UINT32_MODULUS >? 0).
      * destruct (IH ((attempts - 1) mod UINT32_MODULUS) s ((h ++ tp) ++ u))
          as (o & t & Hloop & Ho).
        exists o, (tp ++ u ++ t). rewrite Hloop, <- !app_assoc.
        split; [reflexivity|]. intros sock' Hsock.
        destruct (Ho sock' Hsock) as (Hbalance & Hremoved & Hest).
        rewrite !sockets_opened_app, !sockets_closed_app, !count_events_app.
        repeat split; lia.
      * exists (Done INVALID_SOCKET), (tp ++ u). cbn [run].
        rewrite <- !app_assoc. split; [reflexivity|].
        intros sock' Hsock. injection Hsock as <-.
        rewrite !sockets_opened_app, !sockets_closed_app, !count_events_app.
        cbn. repeat split; lia.
Qed.

(** [connect_to_server] with [1 <= attempts]: it returns, and every
    socket it got is the one it returns or was closed. *)
Lemma connect_to_server_sockets (env : oracle) (addr' port attempts delay : Z)
    (s : server) (h : list event) :
  1 <= attempts < UINT32_MODULUS ->
  exists sock t,
    run env (connect_to_server addr' port attempts delay) s h
      = (Done sock, s, h ++ t)
    /\ sockets_opened t = sockets_closed t + Z.b2z (is_valid_socket sock)
    /\ count_events is_tunnel_removal t = 0
    /\ count_events established t = 0.
Proof.
  intros Hrange.
  destruct (connect_to_server_calls env addr' port attempts delay s h Hrange)
    as (sock & t & Hrun & _).
  unfold connect_to_server in *.
  destruct (connect_to_server_loop_sockets env addr' port delay
              (Z.to_nat (connect_iterations attempts)) attempts s h)
    as (o & t' & Hrun' & Ho).
  rewrite Hrun in Hrun'. injection Hrun' as <- Ht. apply app_inv_head in Ht.
  subst t'. exists sock, t. split; [exact Hrun|]. now apply Ho.
Qed.

(** The forward and the direct mode of [server_connect_to] once the
    video socket is there or not, on a server with no data socket. *)
Lemma server_connect_to_forward_sockets (sock : socket_t) (s : server) :
  video_socket s = INVALID_SOCKET ->
  control_socket s = INVALID_SOCKET ->
  ensures
    (put (set_video_socket sock);;
     video_socket' <- get video_socket;;
     if negb (is_valid_socket video_socket') then
       Ret false
     else
       port <- get local_port;;
       socket <- ext (net_connect IPV4_LOCALHOST port);;
       put (set_control_socket socket);;
       control_socket' <- get control_socket;;
       if negb (is_valid_socket control_socket') then
         Ret false
       else
         disable_tunnel;;
         put (set_tunnel_enabled false);;
         Ret true)
    (fun b s' t =>
       sockets_opened t + Z.b2z (is_valid_socket sock) + held s
       = sockets_closed t + held s'
       /\ process s' = process s
       /\ direct s' = direct s
       /\ count_events is_tunnel_removal t + Z.b2z (tunnel_enabled s')
          = Z.b2z (tunnel_enabled s) + Z.b2z (b && negb (tunnel_enabled s))
       /\ count_events established t = 0)
    s [].
Proof.
  destruct s as [ser base ad proc th flag mtx cnd term ssock vsock csock range
                 port enabled fwd dir].
  cbn [video_socket control_socket]. intros -> ->.
  unfold disable_tunnel, disable_tunnel_forward, disable_tunnel_reverse.
  destruct sock as [|fd]; cbn.
  - unfold sockets_opened, sockets_closed, held, count_events. cbn.
    destruct ssock, flag, enabled; cbn; auto 10.
  - intros [|fd']; cbn.
    + unfold sockets_opened, sockets_closed, held, count_events. cbn.
      destruct ssock, flag, enabled; cbn; auto 10.
    + destruct fwd; cbn; intros;
        unfold sockets_opened, sockets_closed, held, count_events; cbn;
        rewrite ?andb_false_r; destruct ssock, flag, enabled; cbn; auto 10.
Qed.

Lemma server_connect_to_direct_sockets (sock : socket_t) (s : server) :
  video_socket s = INVALID_SOCKET ->
  control_socket s = INVALID_SOCKET ->
  ensures
    (put (set_video_socket sock);;
     video_socket' <- get video_socket;;
     if negb (is_valid_socket video_socket') then
       Ret false
     else
       addr' <- get addr;;
       range <- get port_range;;
       socket <- ext (net_connect addr' (first range));;
       put (set_control_socket socket);;
       control_socket' <- get control_socket;;
       if negb (is_valid_socket control_socket') then
         Ret false
       else
         Ret true)
    (fun b s' t =>
       sockets_opened t + Z.b2z (is_valid_socket sock) + held s
       = sockets_closed t + held s')
    s [].
Proof.
  destruct s as [ser base ad proc th flag mtx cnd term ssock vsock csock range
                 port enabled fwd dir].
  cbn [video_socket control_socket]. intros -> ->.
  destruct sock as [|fd]; cbn.
  - unfold sockets_opened, sockets_closed, held. cbn.
    destruct ssock, flag; cbn; auto.
  - intros [|fd']; cbn; unfold sockets_opened, sockets_closed, held; cbn;
      destruct ssock, flag; cbn; auto.
Qed.

(** The reverse mode of [server_connect_to], on a server with no data
    socket. *)
Lemma server_connect_to_reverse_sockets (s : server) :
  is_valid_socket (server_socket s) = true ->
  video_socket s = INVALID_SOCKET ->
  control_socket s = INVALID_SOCKET ->
  ensures
    (server_socket' <- get server_socket;;
     socket <- ext (net_accept server_socket');;
     put (set_video_socket socket);;
     video_socket' <- get video_socket;;
     if negb (is_valid_socket video_socket') then
       Ret false
     else
       server_socket' <- get server_socket;;
       socket <- ext (net_accept server_socket');;
       put (set_control_socket socket);;
       control_socket' <- get control_socket;;
       if negb (is_valid_socket control_socket') then
         Ret false
       else
         was_closed <- atomic_flag_test_and_set;;
         when (negb was_closed)
           (server_socket' <- get server_socket;;
            close_socket server_socket');;
         Ret true)
    (fun b s' t =>
       sockets_opened t + held s = sockets_closed t + held s'
       /\ process s' = process s
       /\ direct s' = direct s
       /\ tunnel_enabled s' = tunnel_enabled s
       /\ count_events is_tunnel_removal t = 0
       /\ count_events established t = 0)
    s [].
Proof.
  destruct s as [ser base ad proc th flag mtx cnd term ssock vsock csock range
                 port enabled fwd dir].
  cbn [server_socket video_socket control_socket]. intros Hvalid -> ->.
  destruct ssock as [|fd]; [discriminate Hvalid|]. clear Hvalid.
  unfold close_socket. cbn. intros [|v]; cbn.
  - unfold sockets_opened, sockets_closed, held, count_events. cbn.
    destruct flag; cbn; auto 10.
  - intros [|c]; cbn.
    + unfold sockets_opened, sockets_closed, held, count_events. cbn.
      destruct flag; cbn; auto 10.
    + destruct flag; cbn; intros;
        unfold sockets_opened, sockets_closed, held, count_events; cbn; auto 10.
Qed.

(** [server_connect_to] on a server that holds no data socket yet. *)
Lemma server_connect_to_sockets (env : oracle) (s : server) (h : list event) :
  video_socket s = INVALID_SOCKET ->
  control_socket s = INVALID_SOCKET ->
  (direct s = false -> tunnel_forward s = false ->
   is_valid_socket (server_socket s) = true) ->
  exists b s' t,
    run env server_connect_to s h = (Done b, s', h ++ t)
    /\ sockets_opened t + held s = sockets_closed t + held s'
    /\ (direct s = false ->
        process s' = process s
        /\ direct s' = false
        /\ count_events established t = 0
        /\ (tunnel_enabled s = true ->
            count_events is_tunnel_removal t + Z.b2z (tunnel_enabled s') = 1)).
Proof.
  intros Hvideo Hcontrol Hvalid.
  unfold server_connect_to. rewrite run_get_bind.
  destruct (direct s) eqn:Hdirect.
  - rewrite !run_get_bind, run_bind.
    destruct (connect_to_server_sockets env (addr s) (first (port_range s)) 12
                1000 s h) as (sock & t & Hconnect & Hprobes & _);
      [split; [lia|reflexivity]|].
    rewrite Hconnect.
    destruct (ensures_run env _ _ s []
                (server_connect_to_direct_sockets sock s Hvideo Hcontrol) (h ++ t))
      as (b & s1 & t1 & Hrun & Hbalance).
    rewrite app_nil_r in Hrun. rewrite Hrun.
    exists b, s1, (t ++ t1). rewrite <- app_assoc. split; [reflexivity|].
    rewrite sockets_opened_app, sockets_closed_app.
    split; [lia|discriminate].
  - rewrite run_get_bind. destruct (tunnel_forward s) eqn:Hforward.
    + rewrite run_get_bind, run_bind.
      destruct (connect_to_server_sockets env IPV4_LOCALHOST (local_port s) 100
                  100 s h) as (sock & t & Hconnect & Hprobes & Hquiet & Hnone);
        [split; [lia|reflexivity]|].
      rewrite Hconnect.
      destruct (ensures_run env _ _ s []
                  (server_connect_to_forward_sockets sock s Hvideo Hcontrol)
                  (h ++ t))
        as (b & s1 & t1 & Hrun & Hbalance & Hp & Hd & Hremoved & Hest).
      rewrite app_nil_r in Hrun. rewrite Hrun.
      exists b, s1, (t ++ t1). rewrite <- app_assoc. split; [reflexivity|].
      rewrite sockets_opened_app, sockets_closed_app, !count_events_app.
      split; [lia|]. intros _. split; [exact Hp|]. split; [congruence|].
      split; [lia|]. intros Henabled. rewrite Henabled in Hremoved.
      rewrite andb_false_r in Hremoved. cbn [Z.b2z] in Hremoved. lia.
    + destruct (ensures_run_nil env _ _ s h
                  (server_connect_to_reverse_sockets s (Hvalid eq_refl eq_refl)
                     Hvideo Hcontrol))
        as (b & s1 & t1 & Hrun & Hbalance & Hp & Hd & Hen & Hremoved & Hest).
      rewrite Hrun. exists b, s1, t1. split; [reflexivity|].
      split; [exact Hbalance|]. intros _. split; [exact Hp|].
      split; [congruence|]. split; [exact Hest|]. intros Henabled.
      rewrite Hremoved, Hen, Henabled. reflexivity.
Qed.

(** [server_connect_to] keeps the account of the sockets: called on a
    server that holds no data socket, with a valid server socket in the
    reverse mode, it returns, and the sockets its calls opened and those
    the server held before are the sockets its calls closed and those the
    server holds after.  No socket of a failed probe or of a connection
    that failed half-way is lost. *)
Theorem server_connect_to_accounts_for_sockets :
  forall (env : oracle) (s : server) (h : list event),
    video_socket s = INVALID_SOCKET ->
    control_socket s = INVALID_SOCKET ->
    (direct s = false -> tunnel_forward s = false ->
     is_valid_socket (server_socket s) = true) ->
    exists b s' t,
      run env server_connect_to s h = (Done b, s', h ++ t)
      /\ sockets_opened t + held s = sockets_closed t + held s'.
Proof.
  intros env s h Hvideo Hcontrol Hvalid.
  destruct (server_connect_to_sockets env s h Hvideo Hcontrol Hvalid)
    as (b & s' & t & Hrun & Hbalance & _).
  exists b, s', t. auto.
Qed.

(** The agent of the forward mode never answers: a hundred sockets
    are connected and closed again. *)
Lemma server_connect_to_accounts_for_sockets_witness :
  exists b s' t,
    run agent_silent server_connect_to started_forward [] = (Done b, s', [] ++ t)
    /\ sockets_opened t + held started_forward = sockets_closed t + held s'.
Proof.
  apply (server_connect_to_accounts_for_sockets agent_silent started_forward []
           eq_refl eq_refl).
  discriminate.
Defined.

(** [server_stop] closes what the server holds: from a state that
    records a process, its calls open no socket and close as many as
    the server held. *)
Theorem server_stop_closes_what_is_held :
  forall (env : oracle) (s : server) (h : list event),
    process_eqb (process s) PROCESS_NONE = false ->
    exists s' t,
      run env server_stop s h = (Done tt, s', h ++ t)
      /\ sockets_opened t = 0
      /\ sockets_closed t = held s.
Proof.
  intros env s h Hprocess.
  destruct (ensures_run_nil env server_stop _ s h (server_stop_ensures s Hprocess))
    as ([] & s' & t & Hrun & _ & _ & Hcloses & _ & _ & _ & _ & Hl & Hq & _).
  exists s', t. split; [exact Hrun|].
  unfold sockets_opened, sockets_closed, held. rewrite Hl, Hq, Hcloses.
  split; [reflexivity|].
  destruct (is_valid_socket (server_socket s) && negb (server_socket_closed s)),
    (is_valid_socket (video_socket s)), (is_valid_socket (control_socket s));
    reflexivity.
Qed.

Lemma server_stop_closes_what_is_held_witness :
  exists s' t,
    run accept_all server_stop connected_reverse [] = (Done tt, s', [] ++ t)
    /\ sockets_opened t = 0
    /\ sockets_closed t = 2.
Proof.
  apply (server_stop_closes_what_is_held accept_all connected_reverse []).
  reflexivity.
Defined.

(** ** A whole session over adb *)

(** What [server_stop] leaves of the sockets and of the tunnel. *)
Lemma server_stop_account (env : oracle) (s : server) (h : list event) :
  process_eqb (process s) PROCESS_NONE = false ->
  exists s' t,
    run env server_stop s h = (Done tt, s', h ++ t)
    /\ sockets_opened t = 0
    /\ sockets_closed t = held s
    /\ count_events established t = 0
    /\ count_events is_tunnel_removal t
       = Z.b2z (tunnel_enabled s && negb (direct s)).
Proof.
  intros Hprocess.
  destruct (ensures_run_nil env server_stop _ s h (server_stop_ensures s Hprocess))
    as ([] & s' & t & Hrun & _ & _ & Hcloses & _ & _ & Hremoved & _ & Hl & Hq & He).
  exists s', t. split; [exact Hrun|].
  unfold sockets_opened, sockets_closed, held. rewrite Hl, Hq, Hcloses.
  split; [reflexivity|]. split; [|auto].
  destruct (is_valid_socket (server_socket s) && negb (server_socket_closed s)),
    (is_valid_socket (video_socket s)), (is_valid_socket (control_socket s));
    reflexivity.
Qed.

(** A session over adb, from a server as [server_init] leaves it, when
    the thread does not take part: the start, the connection when the
    caller asks for it, and the stop.  It returns, whatever the
    collaborators answer, and it leaves nothing behind: every socket its
    calls opened was closed, and every tunnel it set up on the device was
    asked to be removed. *)
Theorem session_releases_sockets_and_tunnels :
  forall (prefix version : string) (env : oracle) (ser : option string)
         (params : server_params) (connect : bool) (s : server) (h : list event),
    direct s = false ->
    tunnel_forward s = false ->
    server_socket_closed s = false ->
    serial s = None ->
    server_socket s = INVALID_SOCKET ->
    video_socket s = INVALID_SOCKET ->
    control_socket s = INVALID_SOCKET ->
    0 <= first (params_port_range params) ->
    uint16 (last (params_port_range params)) ->
    exists s' t,
      run env (session prefix version ser params connect) s h
      = (Done tt, s', h ++ t)
      /\ sockets_opened t = sockets_closed t
      /\ count_events established t = count_events is_tunnel_removal t.
Proof.
  intros prefix version env ser params connect s h Hdirect Hreverse Hflag Hserial
    Hsocket Hvideo Hcontrol Hfirst Hlast.
  unfold session. rewrite run_bind.
  destruct (server_start_adb_run prefix version env ser params s h Hdirect
              Hreverse Hflag Hserial Hfirst Hlast) as (b & s1 & t0 & Hstart & Hpost).
  rewrite Hstart. destruct b.
  - destruct Hpost as (Hc0 & Hl0 & Hvalid1 & _ & He0 & Hprocess1 & Henabled1 & _
                       & Hflag1 & Hdirect1 & _ & Hvideo1 & Hcontrol1 & Hinvalid1
                       & Hq0).
    rewrite Hvideo in Hvideo1. rewrite Hcontrol in Hcontrol1.
    rewrite Hsocket in Hinvalid1. specialize (Hinvalid1 eq_refl).
    assert (Hheld1 : sockets_opened t0 = sockets_closed t0 + held s1).
    { unfold sockets_opened, sockets_closed, held.
      rewrite Hc0, Hl0, Hq0, Hflag1, Hvideo1, Hcontrol1.
      destruct (tunnel_forward s1); cbn [negb only_if].
      - rewrite (Hinvalid1 eq_refl). reflexivity.
      - rewrite (Hvalid1 eq_refl). reflexivity. }
    rewrite run_bind. destruct connect; cbn [when].
    + rewrite run_bind.
      destruct (server_connect_to_sockets env s1 (h ++ t0) Hvideo1 Hcontrol1)
        as (b1 & s2 & t1 & Hconnect & Hbalance & Hadb); [auto|].
      destruct (Hadb Hdirect1) as (Hprocess2 & Hdirect2 & He1 & Hremoved1).
      specialize (Hremoved1 Henabled1).
      rewrite Hconnect. cbn [run].
      rewrite <- Hprocess2 in Hprocess1.
      destruct (server_stop_account env s2 ((h ++ t0) ++ t1) Hprocess1)
        as (s3 & t2 & Hstop & Ho2 & Hc2 & He2 & Hremoved2).
      rewrite Hstop. exists s3, (t0 ++ t1 ++ t2). rewrite <- !app_assoc.
      split; [reflexivity|].
      rewrite !sockets_opened_app, !sockets_closed_app, !count_events_app.
      rewrite Hdirect2, andb_true_r in Hremoved2.
      split; lia.
    + cbn [run].
      destruct (server_stop_account env s1 (h ++ t0) Hprocess1)
        as (s3 & t2 & Hstop & Ho2 & Hc2 & He2 & Hremoved2).
      rewrite Hstop. exists s3, (t0 ++ t2). rewrite <- !app_assoc.
      split; [reflexivity|].
      rewrite !sockets_opened_app, !sockets_closed_app, !count_events_app.
      rewrite Hdirect1, Henabled1 in Hremoved2. cbn in Hremoved2.
      split; lia.
  - cbn [run]. exists s1, t0. split; [reflexivity|].
    destruct Hpost as (Hc0 & _ & He0 & Hq0).
    unfold sockets_opened, sockets_closed. rewrite Hc0, Hq0. cbn. split; [lia|auto].
Qed.

(** The ports are in use: the session goes through the reverse sweep,
    falls back to the forward mode, connects and stops. *)
Lemma session_releases_sockets_and_tunnels_witness :
  exists s' t,
    run ports_busy (session "/usr/local" "1.17" None default_params true)
      initialized [] = (Done tt, s', [] ++ t)
    /\ sockets_opened t = sockets_closed t
    /\ count_events established t = count_events is_tunnel_removal t.
Proof.
  assert (Hfirst : 0 <= first (params_port_range default_params))
    by (cbn; lia).
  assert (Hlast : uint16 (last (params_port_range default_params)))
    by (unfold uint16; cbn; split; [lia|reflexivity]).
  exact (session_releases_sockets_and_tunnels "/usr/local" "1.17" ports_busy None
           default_params true initialized [] eq_refl eq_refl eq_refl eq_refl
           eq_refl eq_refl eq_refl Hfirst Hlast).
Defined.
